(** * Compliance checker: standards normalizer and response parsing

    A shallow embedding of [read_standards_file] and [analyze_compliance]
    of [src/app.py], together with the fragments of Python's [str], of
    pandas' [DataFrame] and of [json.loads] that the two functions use;
    then of [read_docx] and of the script that calls the three functions.

    Text is modelled by Rocq strings read as sequences of code points
    below 256; on that range [str.strip], [str.lower], [in], [startswith],
    [endswith] and slicing are modelled exactly. *)

From Stdlib Require Import Ascii String NArith ZArith List Bool Lia.
From Stdlib Require Import DecimalString.
From stdpp Require Import gmap strings list.

(** ** Python [str] *)

Module PyStr.

Definition code (c : ascii) : N := N_of_ascii c.

(** The line feed, the double quote and the backslash. *)
Definition LF : ascii := "010"%char.
Definition DQ : ascii := "034"%char.
Definition BS : ascii := "092"%char.
Definition nl : string := String LF "".
Definition dq : string := String DQ "".

(** [c.isspace()]: U+0009..U+000D, U+001C..U+0020, U+0085, U+00A0. *)
Definition isspace (c : ascii) : bool :=
  let n := code c in
  ((9 <=? n) && (n <=? 13) || (28 <=? n) && (n <=? 32)
   || (n =? 133) || (n =? 160))%N.

(** [c.lower()]: A..Z and the upper-case letters of U+00C0..U+00DE
    (all but the multiplication sign U+00D7) move up by 32. *)
Definition lower_char (c : ascii) : ascii :=
  let n := code c in
  if ((65 <=? n) && (n <=? 90)
      || (192 <=? n) && (n <=? 222) && negb (n =? 215))%N
  then ascii_of_N (n + 32) else c.

Fixpoint lower (s : string) : string :=
  match s with
  | "" => ""
  | String c s' => String (lower_char c) (lower s')
  end.

Fixpoint lstrip (s : string) : string :=
  match s with
  | "" => ""
  | String c s' => if isspace c then lstrip s' else s
  end.

Fixpoint rstrip (s : string) : string :=
  match s with
  | "" => ""
  | String c s' =>
      match rstrip s' with
      | "" => if isspace c then "" else String c ""
      | r => String c r
      end
  end.

(** [s.strip()] *)
Definition strip (s : string) : string := rstrip (lstrip s).

(** [s.startswith(p)] *)
Definition startswith (s p : string) : bool := String.prefix p s.

(** [s[n:]] *)
Fixpoint drop (n : nat) (s : string) : string :=
  match n, s with
  | S n', String _ s' => drop n' s'
  | _, _ => s
  end.

(** [s[:n]] for [n >= 0] *)
Fixpoint take (n : nat) (s : string) : string :=
  match n, s with
  | S n', String c s' => String c (take n' s')
  | _, _ => ""
  end.

(** [s[:-n]] for [n > 0]: empty when the string is shorter than [n]. *)
Definition drop_last (n : nat) (s : string) : string :=
  take (String.length s - n) s.

(** [s.endswith(p)] *)
Definition endswith (s p : string) : bool :=
  (String.length p <=? String.length s)
  && String.eqb (drop (String.length s - String.length p) s) p.

(** [sub in s] *)
Fixpoint contains (sub s : string) : bool :=
  String.prefix sub s
  || match s with
     | "" => false
     | String _ s' => contains sub s'
     end.

(** [str(n)] for a natural number, and for an integer. *)
Definition str_nat (n : nat) : string := NilZero.string_of_uint (Nat.to_uint n).
Definition str_Z (z : Z) : string := NilZero.string_of_int (Z.to_int z).

(** Every character of [s] is whitespace. *)
Fixpoint all_space (s : string) : bool :=
  match s with
  | "" => true
  | String c s' => isspace c && all_space s'
  end.

End PyStr.

(** ** pandas [DataFrame] *)

Module Pandas.

(** A cell as Python sees it.  Floats other than NaN are left out. *)
Inductive cell :=
| CStr (s : string)
| CInt (z : Z)
| CBool (b : bool)
| CNaN.

(** [str(v)], as an f-string formats a cell. *)
Definition str (v : cell) : string :=
  match v with
  | CStr s => s
  | CInt z => PyStr.str_Z z
  | CBool true => "True"
  | CBool false => "False"
  | CNaN => "nan"
  end.

(** [bool(v)], as an [if] tests a cell. *)
Definition truthy (v : cell) : bool :=
  match v with
  | CStr s => negb (String.eqb s "")
  | CInt z => negb (z =? 0)%Z
  | CBool b => b
  | CNaN => true
  end.

(** A frame is a sequence of labelled columns; labels may repeat. *)
Record DataFrame := Frame { nrows : nat; cols : list (string * list cell) }.

(** [df.columns] *)
Definition columns (df : DataFrame) : list string := fst <$> cols df.

(** [label in df.columns] *)
Definition has_column (label : string) (df : DataFrame) : bool :=
  bool_decide (label ∈ columns df).

(** [df.columns = df.columns.str.strip()] and [df.rename(columns=f)]
    both relabel the columns in place. *)
Definition relabel (f : string → string) (df : DataFrame) : DataFrame :=
  Frame (nrows df) (prod_map f id <$> cols df).

(** [df.rename(columns=mapping)]: a label that is a key of the mapping is
    replaced by its value, any other label is kept. *)
Definition rename (mapping : gmap string string) (df : DataFrame) : DataFrame :=
  relabel (λ c, default c (mapping !! c)) df.

(** [df[label] = v] for a scalar [v]: every column bearing the label is
    overwritten; when there is none, a new last column is added. *)
Definition setitem (label : string) (v : cell) (df : DataFrame) : DataFrame :=
  let fresh := replicate (nrows df) v in
  if has_column label df
  then Frame (nrows df)
         ((λ c, if String.eqb (fst c) label then (fst c, fresh) else c) <$> cols df)
  else Frame (nrows df) (cols df ++ [(label, fresh)]).

(** The columns bearing [label], in frame order. *)
Definition columns_labelled (label : string) (df : DataFrame)
  : list (string * list cell) :=
  filter (λ c, fst c = label) (cols df).

(** What a pandas call can raise: [KeyError] when selected labels are
    borne by no column (it names them), or whatever a reader raised. *)
Inductive pandas_error :=
| KeyError (missing : list string)
| ReaderError (what : string).

(** [df[keys]] for a list of labels: for each key in turn, every column
    bearing it; [KeyError] with the absent keys when there is one. *)
Definition getitem_list (keys : list string) (df : DataFrame)
  : pandas_error + DataFrame :=
  match filter (λ k, k ∉ columns df) keys with
  | [] => inr (Frame (nrows df) (k ← keys; columns_labelled k df))
  | missing => inl (KeyError missing)
  end.

(** One row as [iterrows] yields it: the labels with the row's cells. *)
Definition row_at (i : nat) (df : DataFrame) : list (string * cell) :=
  (λ c, (fst c, nth i (snd c) CNaN)) <$> cols df.

(** [df.iterrows()], without the index labels. *)
Definition iterrows (df : DataFrame) : list (list (string * cell)) :=
  (λ i, row_at i df) <$> seq 0 (nrows df).

(** [row[label]] when exactly one entry bears the label.  Python raises
    [KeyError] when none does and returns a sub-series when several do;
    neither is modelled, and both give [None] here. *)
Definition row_getitem (label : string) (row : list (string * cell)) : option cell :=
  match filter (λ e, fst e = label) row with
  | [e] => Some (snd e)
  | _ => None
  end.

End Pandas.

(** ** [read_standards_file] *)

Module Normalizer.
Import PyStr Pandas.

(** An uploaded file: its name and its bytes. *)
Record UploadedFile := Upload { name : string; content : string }.

(** The four tests of the column loop, on the lower-cased header. *)
Definition id_rule (col_lower : string) : bool :=
  contains "id" col_lower || contains "standard" col_lower.
Definition category_rule (col_lower : string) : bool :=
  contains "category" col_lower || contains "type" col_lower.
Definition requirement_rule (col_lower : string) : bool :=
  contains "requirement" col_lower || contains "standard" col_lower.
Definition description_rule (col_lower : string) : bool :=
  contains "description" col_lower || contains "detail" col_lower.

(** The [if]/[elif] chain: the canonical name assigned, if any. *)
Definition col_rule (col_lower : string) : option string :=
  if id_rule col_lower then Some "ID"
  else if category_rule col_lower then Some "Category"
  else if requirement_rule col_lower then Some "Requirement"
  else if description_rule col_lower then Some "Description"
  else None.

(** One turn of [for col in df.columns]. *)
Definition col_mapping_step (col_mapping : gmap string string) (col : string)
  : gmap string string :=
  match col_rule (lower col) with
  | Some target => <[col := target]> col_mapping
  | None => col_mapping
  end.

(** The dictionary [col_mapping] after the loop. *)
Definition build_col_mapping (headers : list string) : gmap string string :=
  foldl col_mapping_step ∅ headers.

(** The frame after [df.columns.str.strip()] and [df.rename]. *)
Definition renamed (df : DataFrame) : DataFrame :=
  let df := relabel strip df in
  rename (build_col_mapping (columns df)) df.

(** The frame after the [Description] column has been ensured. *)
Definition with_description (df : DataFrame) : DataFrame :=
  let df := renamed df in
  if negb (has_column "Description" df) then setitem "Description" (CStr "") df
  else df.

Definition canonical : list string := ["ID"; "Category"; "Requirement"; "Description"].

(** Lines 37 to 61: everything after the table has been read. *)
Definition standardize (df : DataFrame) : pandas_error + DataFrame :=
  getitem_list canonical (with_description df).

Definition unsupported_message : string :=
  "Unsupported file format. Please upload CSV or Excel file.".

(** How a call of [read_standards_file] ends: it returns a frame or
    [None], or an exception leaves it. *)
Inductive outcome :=
| Returns (v : option DataFrame)
| Raises (e : pandas_error).

(** The call together with the messages it passed to [st.error]. *)
Record run := Run { result : outcome; st_errors : list string }.

Section Readers.

(** [pd.read_csv] and [pd.read_excel]: the table, or the exception raised. *)
Variable read_csv read_excel : UploadedFile → pandas_error + DataFrame.

Definition after_read (r : pandas_error + DataFrame) : run :=
  match r with
  | inl e => Run (Raises e) []
  | inr df =>
      match standardize df with
      | inl e => Run (Raises e) []
      | inr out => Run (Returns (Some out)) []
      end
  end.

Definition read_standards_file (file : UploadedFile) : run :=
  if endswith (name file) ".csv" then after_read (read_csv file)
  else if endswith (name file) ".xlsx" || endswith (name file) ".xls"
  then after_read (read_excel file)
  else Run (Returns None) [unsupported_message].

End Readers.

(** *** Vocabulary for the statements below *)

(** The canonical field a raw header resolves to: the rule applied to
    the stripped, lower-cased header. *)
Definition resolve (header : string) : option string :=
  col_rule (lower (strip header)).

(** The label a raw header bears once stripped and renamed. *)
Definition final_label (header : string) : string :=
  default (strip header) (resolve header).

(** The source columns whose header resolves to [target], relabelled. *)
Definition mapped_to (target : string) (df : DataFrame) : list (string * list cell) :=
  (λ c, (target, snd c)) <$> filter (λ c, resolve (fst c) = Some target) (cols df).

(** The [Description] columns of the result: the mapped ones, or the
    synthesized column of empty strings when there is none. *)
Definition description_columns (df : DataFrame) : list (string * list cell) :=
  match mapped_to "Description" df with
  | [] => [("Description", replicate (nrows df) (CStr ""))]
  | mapped => mapped
  end.

(** A raw header passes the test of a rule, whether or not an earlier
    rule takes it first. *)
Definition matches (rule : string → bool) (header : string) : bool :=
  rule (lower (strip header)).

(** Two headers that differ only by the case of their letters. *)
Definition same_up_to_case (h h' : string) : Prop := lower h = lower h'.

(** The file has a supported extension and its reader returned [df]. *)
Definition reads_as (read_csv read_excel : UploadedFile → pandas_error + DataFrame)
  (file : UploadedFile) (df : DataFrame) : Prop :=
  (endswith (name file) ".csv" = true ∧ read_csv file = inr df)
  ∨ (endswith (name file) ".csv" = false
     ∧ endswith (name file) ".xlsx" || endswith (name file) ".xls" = true
     ∧ read_excel file = inr df).

(** The frame that a successful normalization of [df] returns. *)
Definition normalized (df : DataFrame) : DataFrame :=
  Frame (nrows df)
    (mapped_to "ID" df ++ mapped_to "Category" df
     ++ mapped_to "Requirement" df ++ description_columns df).

End Normalizer.

(** ** [json.loads]

    A model of CPython's decoder (the accelerated scanner that [json]
    uses by default, with the messages of CPython 3.12), on text whose
    code points are below 256.  Decoded strings are sequences of code
    points, since an escape can name any.  A number with a fraction or an
    exponent keeps its lexeme instead of becoming a float.  Nesting depth
    and the length of integer literals are not limited.

    The scanning functions work on the text that is left; where CPython
    reports an index, they report the suffix that starts there, and
    [loads] turns it into the index. *)

Module Json.
Import PyStr.

Inductive constant := NaN | Infinity | NegInfinity.

#[local] Unset Elimination Schemes.
Inductive json :=
| JNull
| JBool (b : bool)
| JInt (z : Z)
| JFloat (lexeme : string)
| JConst (c : constant)
| JStr (s : list N)
| JArr (items : list json)
| JObj (members : list (list N * json)).
#[local] Set Elimination Schemes.

(** The code points of a text. *)
Fixpoint codes (s : string) : list N :=
  match s with
  | "" => []
  | String c s' => code c :: codes s'
  end.

(** What a scanning function yields: a value and the text left, a
    [JSONDecodeError] in the making, [StopIteration], or fuel exhaustion. *)
Inductive scan (A : Type) :=
| Ok (a : A) (rest : string)
| Err (msg : string) (at_suffix : string)
| Stop (at_suffix : string)
| Exhausted.
Arguments Ok {A} a rest.
Arguments Err {A} msg at_suffix.
Arguments Stop {A} at_suffix.
Arguments Exhausted {A}.

Definition scan_map {A B : Type} (f : A → B) (r : scan A) : scan B :=
  match r with
  | Ok a rest => Ok (f a) rest
  | Err msg at_suffix => Err msg at_suffix
  | Stop at_suffix => Stop at_suffix
  | Exhausted => Exhausted
  end.

(** JSON whitespace: space, tab, line feed, carriage return. *)
Definition is_ws (c : ascii) : bool :=
  ((c =? " ") || (c =? "009") || (c =? "010") || (c =? "013"))%char.

Fixpoint skip_ws (s : string) : string :=
  match s with
  | "" => ""
  | String c s' => if is_ws c then skip_ws s' else s
  end.

Definition isdigit (c : ascii) : bool :=
  ((48 <=? code c) && (code c <=? 57))%N.

Definition hex_digit (c : ascii) : option N :=
  let n := code c in
  if ((48 <=? n) && (n <=? 57))%N then Some (n - 48)%N
  else if ((97 <=? n) && (n <=? 102))%N then Some (n - 87)%N
  else if ((65 <=? n) && (n <=? 70))%N then Some (n - 55)%N
  else None.

Definition hex4 (a b c d : ascii) : option N :=
  match hex_digit a, hex_digit b, hex_digit c, hex_digit d with
  | Some x, Some y, Some z, Some w => Some (((x * 16 + y) * 16 + z) * 16 + w)%N
  | _, _, _, _ => None
  end.

(** The one-character escapes: the quote, the backslash, the slash,
    and b, f, n, r, t. *)
Definition escape (c : ascii) : option N :=
  (if c =? DQ then Some 34 else if c =? BS then Some 92
   else if c =? "/" then Some 47 else if c =? "b" then Some 8
   else if c =? "f" then Some 12 else if c =? "n" then Some 10
   else if c =? "r" then Some 13 else if c =? "t" then Some 9
   else None)%char%N.

Definition high_surrogate (u : N) : bool := ((55296 <=? u) && (u <=? 56319))%N.
Definition low_surrogate (u : N) : bool := ((56320 <=? u) && (u <=? 57343))%N.
Definition join_surrogates (hi lo : N) : N :=
  (65536 + ((hi - 55296) * 1024 + (lo - 56320)))%N.

Definition unterminated : string := "Unterminated string starting at".
Definition bad_unicode : string := "Invalid \uXXXX escape".
Definition bad_escape : string := "Invalid \escape".
Definition bad_control : string := "Invalid control character at".

(** [scanstring]: [s] starts after the opening quote, [opening] at it.
    An escaped code point needs a character after its four digits, and
    a surrogate pair one after its second half, as in the C scanner. *)
Fixpoint scanstring (s : string) (opening : string) : scan (list N) :=
  match s with
  | "" => Err unterminated opening
  | String c s1 =>
      if (c =? DQ)%char then Ok [] s1
      else if (c =? BS)%char then
          match s1 with
          | "" => Err unterminated opening
          | String e s2 =>
              if (e =? "u")%char
              then
                match s2 with
                | String h1 (String h2 (String h3 (String h4 (String _ _ as r)))) =>
                    match hex4 h1 h2 h3 h4 with
                    | None => Err bad_unicode s1
                    | Some u =>
                        match r with
                        | String b (String v (String g1 (String g2 (String g3
                            (String g4 (String _ _ as r2))))) as at_v) =>
                            if high_surrogate u && (b =? BS)%char && (v =? "u")%char
                            then
                              match hex4 g1 g2 g3 g4 with
                              | None => Err bad_unicode at_v
                              | Some u2 =>
                                  if low_surrogate u2
                                  then scan_map (cons (join_surrogates u u2))
                                         (scanstring r2 opening)
                                  else scan_map (cons u) (scanstring r opening)
                              end
                            else scan_map (cons u) (scanstring r opening)
                        | _ => scan_map (cons u) (scanstring r opening)
                        end
                    end
                | _ => Err bad_unicode s1
                end
              else
                match escape e with
                | Some n => scan_map (cons n) (scanstring s2 opening)
                | None => Err bad_escape s
                end
          end
      else if (code c <=? 31)%N then Err bad_control s
      else scan_map (cons (code c)) (scanstring s1 opening)
  end.

Fixpoint span_digits (s : string) : string * string :=
  match s with
  | "" => ("", "")
  | String c s' =>
      if isdigit c then let (d, r) := span_digits s' in (String c d, r)
      else ("", s)
  end.

Fixpoint digits_value (acc : N) (s : string) : N :=
  match s with
  | "" => acc
  | String c s' => digits_value (acc * 10 + (code c - 48))%N s'
  end.

(** The integer part of a number: a lone 0, or a digit from 1 to 9
    followed by any digits. *)
Definition int_part (s : string) : option (string * string) :=
  match s with
  | "" => None
  | String c s1 =>
      if (c =? "0")%char then Some ("0", s1)
      else if isdigit c
           then let (d, r) := span_digits s1 in Some (String c d, r)
           else None
  end.

(** A fraction: a dot followed by at least one digit. *)
Definition frac_part (s : string) : string * string :=
  match s with
  | String dot (String d s2) =>
      if (dot =? ".")%char && isdigit d
      then let (f, r) := span_digits s2 in (String dot (String d f), r)
      else ("", s)
  | _ => ("", s)
  end.

(** An exponent: e or E, an optional sign, at least one digit; without
    a digit nothing is taken. *)
Definition exp_part (s : string) : string * string :=
  match s with
  | String e s1 =>
      if ((e =? "e") || (e =? "E"))%char
      then
        let (sign, s2) :=
          match s1 with
          | String g s2 =>
              if ((g =? "+") || (g =? "-"))%char then (String g "", s2)
              else ("", s1)
          | "" => ("", s1)
          end in
        match span_digits s2 with
        | ("", _) => ("", s)
        | (ds, r) => (String e (sign +:+ ds), r)
        end
      else ("", s)
  | "" => ("", s)
  end.

(** [_match_number]: [StopIteration] at the start when no number
    begins there. *)
Definition match_number (s : string) : scan json :=
  let (negative, s0) :=
    match s with
    | String c s' => if (c =? "-")%char then (true, s') else (false, s)
    | "" => (false, s)
    end in
  match int_part s0 with
  | None => Stop s
  | Some (ds, r) =>
      let (frac, r1) := frac_part r in
      let (exp, r2) := exp_part r1 in
      let magnitude := Z.of_N (digits_value 0 ds) in
      match frac, exp with
      | "", "" => Ok (JInt (if negative then - magnitude else magnitude)%Z) r2
      | _, _ => Ok (JFloat ((if negative then "-" else "") +:+ ds +:+ frac +:+ exp)) r2
      end
  end.

(** The named constants, tried before a number is. *)
Definition literals : list (string * json) :=
  [("null", JNull); ("true", JBool true); ("false", JBool false);
   ("NaN", JConst NaN); ("Infinity", JConst Infinity);
   ("-Infinity", JConst NegInfinity)].

Fixpoint match_literal (ls : list (string * json)) (s : string) : scan json :=
  match ls with
  | [] => match_number s
  | (l, v) :: ls' =>
      if String.prefix l s then Ok v (drop (String.length l) s)
      else match_literal ls' s
  end.

(** Storing a member as a [dict] does: a key already present keeps its
    place and takes the new value. *)
Fixpoint dict_set (key : list N) (v : json) (members : list (list N * json))
  : list (list N * json) :=
  match members with
  | [] => [(key, v)]
  | (k, w) :: ms =>
      if bool_decide (k = key) then (k, v) :: ms else (k, w) :: dict_set key v ms
  end.

Definition want_key : string := "Expecting property name enclosed in double quotes".
Definition want_colon : string := "Expecting ':' delimiter".
Definition want_comma : string := "Expecting ',' delimiter".

(** [scan_once] with the loops of [_parse_array] and [_parse_object].
    [parse_items] starts at a term and [parse_members] at a key, the
    whitespace before them skipped. *)
Fixpoint scan_once (fuel : nat) (s : string) {struct fuel} : scan json :=
  match fuel with
  | 0 => Exhausted
  | S fuel =>
      match s with
      | "" => Stop s
      | String c s1 =>
          if (c =? DQ)%char then scan_map JStr (scanstring s1 s)
          else if (c =? "{")%char then
            match skip_ws s1 with
            | String d r1 as r =>
                if (d =? "}")%char then Ok (JObj []) r1
                else parse_members fuel r []
            | "" => parse_members fuel "" []
            end
          else if (c =? "[")%char then
            match skip_ws s1 with
            | String d r1 as r =>
                if (d =? "]")%char then Ok (JArr []) r1
                else parse_items fuel r []
            | "" => parse_items fuel "" []
            end
          else match_literal literals s
      end
  end
with parse_items (fuel : nat) (s : string) (acc : list json)
  {struct fuel} : scan json :=
  match fuel with
  | 0 => Exhausted
  | S fuel =>
      match scan_once fuel s with
      | Ok v r =>
          match skip_ws r with
          | String d r2 as r1 =>
              if (d =? "]")%char then Ok (JArr (acc ++ [v])) r2
              else if (d =? ",")%char
                   then parse_items fuel (skip_ws r2) (acc ++ [v])
                   else Err want_comma r1
          | "" => Err want_comma ""
          end
      | Err msg at_suffix => Err msg at_suffix
      | Stop at_suffix => Stop at_suffix
      | Exhausted => Exhausted
      end
  end
with parse_members (fuel : nat) (s : string) (acc : list (list N * json))
  {struct fuel} : scan json :=
  match fuel with
  | 0 => Exhausted
  | S fuel =>
      match s with
      | "" => Err want_key s
      | String q s1 =>
          if negb (q =? DQ)%char then Err want_key s
          else
            match scanstring s1 s with
            | Ok key r =>
                match skip_ws r with
                | "" => Err want_colon ""
                | String colon r2 as r1 =>
                    if negb (colon =? ":")%char then Err want_colon r1
                    else
                      match scan_once fuel (skip_ws r2) with
                      | Ok v r4 =>
                          match skip_ws r4 with
                          | String d r6 as r5 =>
                              if (d =? "}")%char
                              then Ok (JObj (dict_set key v acc)) r6
                              else if (d =? ",")%char
                                   then parse_members fuel (skip_ws r6)
                                          (dict_set key v acc)
                                   else Err want_comma r5
                          | "" => Err want_comma ""
                          end
                      | Err msg at_suffix => Err msg at_suffix
                      | Stop at_suffix => Stop at_suffix
                      | Exhausted => Exhausted
                      end
                end
            | Err msg at_suffix => Err msg at_suffix
            | Stop at_suffix => Stop at_suffix
            | Exhausted => Exhausted
            end
      end
  end.

(** What [json.loads] raises. *)
Inductive error :=
| JSONDecodeError (msg doc : string) (pos : nat)
| RecursionError.

(** Fuel that no text exhausts (see [JsonFacts.loads_never_exhausted]). *)
Definition fuel_for (s : string) : nat := 2 * String.length s + 2.

(** The index in [doc] at which the suffix [at_suffix] starts. *)
Definition index_of (doc at_suffix : string) : nat :=
  String.length doc - String.length at_suffix.

(** [json.loads(s)]: whitespace, one term, whitespace, end of text. *)
Definition loads (s : string) : error + json :=
  match scan_once (fuel_for s) (skip_ws s) with
  | Ok v r =>
      match skip_ws r with
      | "" => inr v
      | extra => inl (JSONDecodeError "Extra data" s (index_of s extra))
      end
  | Err msg at_suffix => inl (JSONDecodeError msg s (index_of s at_suffix))
  | Stop at_suffix => inl (JSONDecodeError "Expecting value" s (index_of s at_suffix))
  | Exhausted => inl RecursionError
  end.

(** [doc.count('\n', 0, pos) + 1] *)
Fixpoint lineno (doc : string) (pos : nat) : nat :=
  match pos, doc with
  | S pos', String c doc' =>
      (if (c =? LF)%char then 1 else 0) + lineno doc' pos'
  | _, _ => 1
  end.

(** [pos - doc.rfind('\n', 0, pos)], computed from the left: [col] is
    the column reached so far. *)
Fixpoint colno_from (col : nat) (doc : string) (pos : nat) : nat :=
  match pos, doc with
  | S pos', String c doc' =>
      colno_from (if (c =? LF)%char then 1 else S col) doc' pos'
  | _, _ => col
  end.
Definition colno (doc : string) (pos : nat) : nat := colno_from 1 doc pos.

(** [str(e)] *)
Definition str_error (e : error) : string :=
  match e with
  | JSONDecodeError msg doc pos =>
      msg +:+ ": line " +:+ str_nat (lineno doc pos)
          +:+ " column " +:+ str_nat (colno doc pos)
          +:+ " (char " +:+ str_nat pos +:+ ")"
  | RecursionError => "maximum recursion depth exceeded"
  end.

(** *** Vocabulary for the facts below *)

(** A character that no JSON term can end with: whitespace as [strip]
    sees it, and the backtick of the fence markers. *)
Definition inert (c : ascii) : bool := isspace c || (c =? "`")%char.

(** [c] occurs in [s]. *)
Fixpoint char_in (c : ascii) (s : string) : bool :=
  match s with
  | "" => false
  | String a s' => (a =? c)%char || char_in c s'
  end.

(** Every character of [s] is inert. *)
Fixpoint all_inert (s : string) : bool :=
  match s with
  | "" => true
  | String c s' => inert c && all_inert s'
  end.

(** What the decoder makes of an inert character, test by test. *)
Record inert_char (c : ascii) : Prop := {
  inert_dq : (c =? DQ)%char = false;
  inert_bs : (c =? BS)%char = false;
  inert_digit : isdigit c = false;
  inert_zero : (c =? "0")%char = false;
  inert_dot : (c =? ".")%char = false;
  inert_minus : (c =? "-")%char = false;
  inert_close_bracket : (c =? "]")%char = false;
  inert_close_brace : (c =? "}")%char = false;
  inert_open_bracket : (c =? "[")%char = false;
  inert_open_brace : (c =? "{")%char = false;
  inert_comma : (c =? ",")%char = false;
  inert_colon : (c =? ":")%char = false;
  inert_u : (c =? "u")%char = false;
  inert_escape : escape c = None;
  inert_literals : forallb (λ lv, negb (char_in c (fst lv))) literals = true
}.

(** What it means for a scan of a text to survive the loss of a final
    character [c]: when the scan of the longer text succeeds, [c] is
    still there in what is left, and the scan of the shorter text gives
    the same value. *)
Definition cut_ok (c : ascii) (long short : scan json) : Prop :=
  ∀ v r, long = Ok v r → ∃ r', r = r' +:+ String c "" ∧ short = Ok v r'.

End Json.

(** ** [analyze_compliance] *)

Module Analyzer.
Import PyStr Pandas Json.

(** The four cells that the loop body reads from a row. *)
Definition fields (row : list (string * cell)) : option (cell * cell * cell * cell) :=
  id ← row_getitem "ID" row;
  category ← row_getitem "Category" row;
  requirement ← row_getitem "Requirement" row;
  description ← row_getitem "Description" row;
  Some (id, category, requirement, description).

(** What one turn of the loop appends to [standards_text]. *)
Definition render (f : cell * cell * cell * cell) : string :=
  let '(id, category, requirement, description) := f in
  (nl +:+ str id +:+ " - " +:+ str category +:+ ": " +:+ str requirement +:+ nl)
  +:+ (if truthy description then "Description: " +:+ str description +:+ nl else "").

(** [for _, row in standards_df.iterrows(): standards_text += ...] *)
Fixpoint render_rows (standards_text : string) (rows : list (list (string * cell)))
  : option string :=
  match rows with
  | [] => Some standards_text
  | row :: rest => f ← fields row; render_rows (standards_text +:+ render f) rest
  end.

Definition standards_text (standards_df : DataFrame) : option string :=
  render_rows "" (iterrows standards_df).

(** The f-string [prompt], line by line. *)
Definition prompt (app_content standards_text : string) : string :=
  String.concat nl
    ["You are a compliance analyst. Review the following application documentation against the provided standards and identify any deficiencies.";
     "";
     "APPLICATION DOCUMENTATION:";
     app_content;
     "";
     "STANDARDS TO CHECK:";
     standards_text;
     "";
     "For each standard, determine if the application documentation provides sufficient evidence of compliance. ";
     "";
     "Respond ONLY with a JSON array of findings in this exact format, with no markdown backticks or preamble:";
     "[";
     "  {";
     "    " +:+ dq +:+ "standardId" +:+ dq +:+ ": " +:+ dq +:+ "ID of the standard" +:+ dq +:+ ",";
     "    " +:+ dq +:+ "category" +:+ dq +:+ ": " +:+ dq +:+ "Category name" +:+ dq +:+ ",";
     "    " +:+ dq +:+ "requirement" +:+ dq +:+ ": " +:+ dq +:+ "The requirement text" +:+ dq +:+ ",";
     "    " +:+ dq +:+ "status" +:+ dq +:+ ": " +:+ dq +:+ "Deficient" +:+ dq +:+ " or " +:+ dq +:+ "Compliant" +:+ dq +:+ " or " +:+ dq +:+ "Partial" +:+ dq +:+ ",";
     "    " +:+ dq +:+ "finding" +:+ dq +:+ ": " +:+ dq +:+ "Detailed description of the deficiency or compliance status" +:+ dq +:+ ",";
     "    " +:+ dq +:+ "recommendation" +:+ dq +:+ ": " +:+ dq +:+ "Specific recommendation to address the deficiency" +:+ dq;
     "  }";
     "]"].

Definition fence : string := "```".
Definition fence_json : string := "```json".

(** Lines 109 to 116: the text handed to [json.loads]. *)
Definition cleanup (response_text : string) : string :=
  let response_text := strip response_text in
  let response_text :=
    if startswith response_text fence_json then drop 7 response_text
    else response_text in
  let response_text :=
    if startswith response_text fence then drop 3 response_text
    else response_text in
  let response_text :=
    if endswith response_text fence then drop_last 3 response_text
    else response_text in
  strip response_text.

(** What [analyze_compliance] hands back: the findings or [None], and
    the messages it passed to [st.error]. *)
Record analysis := Analysis { findings : option json; st_errors : list string }.

(** The [except Exception as e] branch, on [str(e)]. *)
Definition report (what : string) : analysis :=
  Analysis None ["Error during analysis: " +:+ what].

(** Lines 108 to 119, for a reply that has arrived. *)
Definition parse_response (response_text : string) : analysis :=
  match loads (cleanup response_text) with
  | inr findings => Analysis (Some findings) []
  | inl e => report (str_error e)
  end.

Section Client.

(** Lines 96 to 106: the client is built from the key and asked once;
    the reply text comes back, or an exception whose [str(e)] is kept. *)
Variable ask : string → string → string + string.

(** The whole function.  [None] when a row does not give the four
    fields as single cells (see [Pandas.row_getitem]). *)
Definition analyze_compliance (app_content : string) (standards_df : DataFrame)
  (api_key : string) : option analysis :=
  text ← standards_text standards_df;
  Some match ask api_key (prompt app_content text) with
       | inl what => report what
       | inr response_text => parse_response response_text
       end.

End Client.

(** *** Vocabulary for the statements below *)

(** A standard as the data model has it: four texts. *)
Record StandardRecord := Standard {
  std_id : string;
  std_category : string;
  std_requirement : string;
  std_description : string
}.

(** The frame that holds a sequence of records, one per row. *)
Definition frame_of (records : list StandardRecord) : DataFrame :=
  Frame (length records)
    [("ID", (λ r, CStr (std_id r)) <$> records);
     ("Category", (λ r, CStr (std_category r)) <$> records);
     ("Requirement", (λ r, CStr (std_requirement r)) <$> records);
     ("Description", (λ r, CStr (std_description r)) <$> records)].

(** The four cells of the row that holds a record. *)
Definition cells_of (r : StandardRecord) : cell * cell * cell * cell :=
  (CStr (std_id r), CStr (std_category r), CStr (std_requirement r),
   CStr (std_description r)).

(** The text of one record, in the words of the specification: after a
    line break, the line "id - category: requirement", then the line
    "Description: description" when the description is not empty. *)
Definition record_text (r : StandardRecord) : string :=
  nl +:+ std_id r +:+ " - " +:+ std_category r +:+ ": " +:+ std_requirement r +:+ nl
  +:+ (if String.eqb (std_description r) "" then ""
       else "Description: " +:+ std_description r +:+ nl).

(** The standards block: the texts of the records, in order. *)
Definition standards_block (records : list StandardRecord) : string :=
  foldr String.append "" (record_text <$> records).

(** A text between a "```json" line and a "```" line. *)
Definition fenced (j : string) : string :=
  fence_json +:+ nl +:+ j +:+ nl +:+ fence.

End Analyzer.

(** ** [read_docx] *)

Module Docx.
Import PyStr Normalizer.

(** A paragraph as python-docx presents it; only its text is read. *)
Record Paragraph := Para { text : string }.

(** [for para in doc.paragraphs: full_text.append(para.text)] *)
Definition collect (paragraphs : list Paragraph) : list string :=
  foldl (λ full_text para, full_text ++ [text para]) [] paragraphs.

(** [sep.join(parts)] *)
Definition join (sep : string) (parts : list string) : string :=
  String.concat sep parts.

Section Documents.

(** [Document(file)]: the paragraphs of the document, or the text of the
    exception raised when the file cannot be opened as one. *)
Variable Document : UploadedFile → string + list Paragraph.

Definition read_docx (file : UploadedFile) : string + string :=
  match Document file with
  | inl what => inl what
  | inr paragraphs => inr (join nl (collect paragraphs))
  end.

End Documents.

End Docx.

(** ** The script: uploads, review and analysis

    One run of the script from line 143 to line 204, as Streamlit
    performs it at every interaction: the widgets give their current
    values, [st.session_state] is read and written, and an exception
    that nothing catches ends the run.  The third tab comes after and
    only reads the session state. *)

Module App.
Import PyStr Pandas Json Docx.
Import Normalizer Analyzer.

(** [st.session_state], once lines 12 to 17 have set the absent keys to
    [None]. *)
Record session := Session {
  standards : option DataFrame;
  app_content : option string;
  findings : option json
}.

(** The state of a new session. *)
Definition fresh : session := Session None None None.

(** What the widgets return during a run: the key typed in the sidebar,
    the two uploaded files if any, and whether the button, where it is
    drawn, has just been pressed. *)
Record widgets := Widgets {
  api_key : string;
  app_file : option UploadedFile;
  standards_file : option UploadedFile;
  analyze_clicked : bool
}.

(** The collaborators of a run. *)
Record services := Services {
  Document : UploadedFile → string + list Paragraph;
  read_csv : UploadedFile → pandas_error + DataFrame;
  read_excel : UploadedFile → pandas_error + DataFrame;
  ask : string → string → string + string
}.

(** The calls that show something which depends on the run, in the order
    of the calls.  Titles, captions and rules, the same at every run,
    are left out; a message with a character outside Latin-1 is named
    by a constructor of its own. *)
Inductive display :=
| success_loaded (name : string)
| info_content_length (n : nat)
| info_standards_loaded (n : nat)
| error (message : string)
| error_api_key
| warning_no_document
| warning_no_standards
| preview (body : string)
| subheader_standards (total : nat)
| dataframe (df : DataFrame)
| success_analysis_complete
| balloons.

(** An exception that ends the run. *)
Inductive exception :=
| DocumentError (what : string)
| PandasError (e : pandas_error).

(** A run so far: the session state, what has been shown, and the
    exception that ended it, if any. *)
Record script := Script {
  state : session;
  shown : list display;
  raised : option exception
}.

(** Sequencing: what follows is run unless an exception was raised. *)
Definition and_then (r : script) (next : session → script) : script :=
  match raised r with
  | Some _ => r
  | None =>
      let r' := next (state r) in
      Script (state r') (shown r ++ shown r') (raised r')
  end.

Definition and_finally (r : script) (next : session → option script)
  : option script :=
  match raised r with
  | Some _ => Some r
  | None =>
      r' ← next (state r);
      Some (Script (state r') (shown r ++ shown r') (raised r'))
  end.

(** [bool(v)] for a decoded value.  The zero test of a float is not
    modelled. *)
Definition json_truthy (v : json) : option bool :=
  match v with
  | JNull => Some false
  | JBool b => Some b
  | JInt z => Some (negb (z =? 0)%Z)
  | JFloat _ => None
  | JConst _ => Some true
  | JStr s => Some (if s is [] then false else true)
  | JArr items => Some (if items is [] then false else true)
  | JObj members => Some (if members is [] then false else true)
  end.

(** [bool(s)] for a text. *)
Definition str_truthy (s : string) : bool := negb (String.eqb s "").

Section Run.

Variable sv : services.
Variable w : widgets.

(** Lines 155 to 159. *)
Definition upload_document (s : session) : script :=
  match app_file w with
  | None => Script s [] None
  | Some file =>
      match read_docx (Document sv) file with
      | inl what => Script s [] (Some (DocumentError what))
      | inr text =>
          Script (Session (standards s) (Some text) (findings s))
            [success_loaded (name file);
             info_content_length (String.length text)]
            None
      end
  end.

(** Lines 165 to 170. *)
Definition upload_standards (s : session) : script :=
  match standards_file w with
  | None => Script s [] None
  | Some file =>
      let r := read_standards_file (read_csv sv) (read_excel sv) file in
      let errors := error <$> Normalizer.st_errors r in
      match result r with
      | Raises e => Script s errors (Some (PandasError e))
      | Returns v =>
          Script (Session v (app_content s) (findings s))
            (errors ++ match v with
                       | Some df => [success_loaded (name file);
                                     info_standards_loaded (nrows df)]
                       | None => []
                       end)
            None
      end
  end.

(** Lines 175 to 186. *)
Definition review (s : session) : list display :=
  (match app_content s with
   | Some text =>
       if str_truthy text then [preview (take 1000 text +:+ "...")]
       else [warning_no_document]
   | None => [warning_no_document]
   end)
  ++ match standards s with
     | Some df => [subheader_standards (nrows df); dataframe df]
     | None => [warning_no_standards]
     end.

(** Lines 190 to 204.  [None] where [analyze_compliance] or the test of
    its result is not modelled. *)
Definition analysis (s : session) : option script :=
  match app_content s, standards s with
  | Some text, Some df =>
      if str_truthy text then
        if negb (str_truthy (api_key w)) then Some (Script s [error_api_key] None)
        else if analyze_clicked w then
          a ← analyze_compliance (ask sv) text df (api_key w);
          let errors := error <$> Analyzer.st_errors a in
          match Analyzer.findings a with
          | None => Some (Script s errors None)
          | Some v =>
              truthy ← json_truthy v;
              if truthy : bool
              then Some (Script (Session (standards s) (app_content s) (Some v))
                           (errors ++ [success_analysis_complete; balloons])
                           None)
              else Some (Script s errors None)
          end
        else Some (Script s [] None)
      else Some (Script s [] None)
  | _, _ => Some (Script s [] None)
  end.

(** Lines 143 to 204. *)
Definition run (s : session) : option script :=
  and_finally (and_then (upload_document s) upload_standards)
    (λ s, r ← analysis s; Some (Script (state r) (review s ++ shown r) (raised r))).

End Run.

(** *** The results tab, up to the metrics *)

(** [d.get(key)] on the members of a decoded object. *)
Fixpoint dict_get (key : list N) (members : list (list N * json)) : option json :=
  match members with
  | [] => None
  | (k, v) :: ms => if bool_decide (k = key) then Some v else dict_get key ms
  end.

(** [finding['status'] == label] for one row of [pd.DataFrame(findings)]:
    a missing member gives NaN, which equals no text, and so does a
    status that is not a text. *)
Definition has_status (label : string) (finding : list (list N * json)) : bool :=
  match dict_get (codes "status") finding with
  | Some (JStr s) => bool_decide (s = codes label)
  | _ => false
  end.

(** The members of the findings when they are a list of objects. *)
Definition rows (v : json) : option (list (list (list N * json))) :=
  match v with
  | JArr items => mapM (λ item, if item is JObj members then Some members else None) items
  | _ => None
  end.

(** [len(findings_df[findings_df['status'] == label])] *)
Definition count_status (label : string) (findings : list (list (list N * json))) : nat :=
  length (filter (λ finding, has_status label finding = true) findings).

(** What the tab shows first: the three metrics, or the note that there
    are no results; or [KeyError] leaves [findings_df['status']]. *)
Inductive results :=
| Metrics (deficient partial compliant : nat)
| NoResults
| MetricsError (e : pandas_error).

(** Lines 209 to 221 and 278 to 279.  The frame built from a list of
    objects has a column "status" when some object has such a member.
    [None] for findings of another shape, which are not modelled. *)
Definition results_tab (s : session) : option results :=
  match findings s with
  | None => Some NoResults
  | Some v =>
      truthy ← json_truthy v;
      if truthy : bool then
        findings ← rows v;
        Some (if existsb (λ finding,
                   bool_decide (is_Some (dict_get (codes "status") finding)))
                 findings
              then Metrics (count_status "Deficient" findings)
                     (count_status "Partial" findings)
                     (count_status "Compliant" findings)
              else MetricsError (KeyError ["status"]))
      else Some NoResults
  end.

(** *** Vocabulary for the statements below *)

(** The session states that runs can lead to. *)
Inductive reachable : session → Prop :=
| reachable_fresh : reachable fresh
| reachable_run (sv : services) (w : widgets) (s : session) (r : script) :
    reachable s → run sv w s = Some r → reachable (state r).

(** The same widgets with the button not pressed. *)
Definition not_clicked (w : widgets) : widgets :=
  Widgets (api_key w) (app_file w) (standards_file w) false.

(** The same collaborators with another client. *)
Definition with_client (sv : services) (ask' : string → string → string + string)
  : services :=
  Services (Document sv) (read_csv sv) (read_excel sv) ask'.

(** The status of a finding is one of the three that are counted. *)
Definition counted (finding : list (list N * json)) : bool :=
  has_status "Deficient" finding || has_status "Partial" finding
  || has_status "Compliant" finding.

End App.

(** ** Vocabulary for the further properties *)

Module Layout.
Import PyStr Pandas Normalizer.

(** How many source headers resolve to [target]. *)
Definition resolved_count (target : string) (df : DataFrame) : nat :=
  length (filter (λ h, resolve h = Some target) (columns df)).

(** The name of the file has none of the three supported extensions. *)
Definition unsupported (file : UploadedFile) : bool :=
  negb (endswith (name file) ".csv") && negb (endswith (name file) ".xlsx")
  && negb (endswith (name file) ".xls").

(** A reader of the file's extension raised [e]. *)
Definition reader_raises (read_csv read_excel : UploadedFile → pandas_error + DataFrame)
  (file : UploadedFile) (e : pandas_error) : Prop :=
  (endswith (name file) ".csv" = true ∧ read_csv file = inl e)
  ∨ (endswith (name file) ".csv" = false
     ∧ endswith (name file) ".xlsx" || endswith (name file) ".xls" = true
     ∧ read_excel file = inl e).

End Layout.

Module Replies.
Import PyStr Json.

(** A character that can begin a JSON term: the quote, a bracket, a
    brace, the minus sign, a digit, or the first letter of a named
    constant. *)
Definition value_start (c : ascii) : bool :=
  ((c =? DQ) || (c =? "{") || (c =? "[") || (c =? "-") || isdigit c
   || (c =? "n") || (c =? "t") || (c =? "f") || (c =? "N") || (c =? "I"))%char.

(** [x] is a contiguous part of [s]. *)
Definition part_of (x s : string) : Prop := ∃ a b, s = a +:+ x +:+ b.

End Replies.

Module Tails.
Import PyStr Json.

(** The decoded value is a number. *)
Definition number (v : json) : bool :=
  match v with
  | JInt _ | JFloat _ => true
  | _ => false
  end.

(** The text starts with a character that ends a number for good:
    neither a digit, nor a dot, nor the letter of an exponent. *)
Definition closed (r : string) : bool :=
  match r with
  | String c _ => negb (isdigit c || (c =? ".") || (c =? "e") || (c =? "E"))%char
  | "" => false
  end.

(** What is left after a term allows more text to follow without the
    term changing: always after any term but a number, and after a
    number when what is left closes it. *)
Definition settled (v : json) (r : string) : bool := negb (number v) || closed r.

End Tails.

(** ** Sample inputs *)

Module Samples.
Import PyStr Pandas Normalizer.

(** A reader stub that returns a given table. *)
Definition reader_of (df : DataFrame) : UploadedFile → pandas_error + DataFrame :=
  λ _, inr df.

Definition standards_csv : UploadedFile := Upload "standards.csv" "".
Definition standards_txt : UploadedFile := Upload "standards.txt" "".

(** The only header is "Req #". *)
Definition req_only : DataFrame := Frame 1 [("Req #", [CStr "R1"])].

(** Every header names its field after the word "Standard". *)
Definition all_standard : DataFrame :=
  Frame 1 [("Standard ID", [CStr "A1"]);
           ("Standard Category", [CStr "Security"]);
           ("Standard Requirement", [CStr "Use MFA"])].

(** Padded, mixed-case headers and a column that no rule takes. *)
Definition tidy : DataFrame :=
  Frame 2 [(" Ref ID", [CStr "A1"; CStr "A2"]);
           ("Type ", [CStr "Security"; CStr "Ops"]);
           ("REQUIREMENT", [CStr "Use MFA"; CStr "Keep logs"]);
           ("Owner", [CStr "ann"; CNaN])].

(** Two headers that both contain "standard", and nothing else. *)
Definition two_standards : DataFrame :=
  Frame 1 [("Standard A", [CStr "A1"]); ("Standard B", [CStr "B1"])].

(** The same two headers in a table that has the other fields too. *)
Definition two_standards_full : DataFrame :=
  Frame 1 [("Standard A", [CStr "A1"]); ("Standard B", [CStr "B1"]);
           ("Category", [CStr "Security"]); ("Requirement", [CStr "Use MFA"]);
           ("Detail", [CStr "d"])].

(** A client stub that answers every prompt with a given reply. *)
Definition replies (reply : string) : string → string → string + string :=
  λ _ _, inr reply.

(** The standard of the example scenario. *)
Definition mfa : Analyzer.StandardRecord :=
  Analyzer.Standard "A1" "Security" "Use MFA" "".

Definition logging : Analyzer.StandardRecord :=
  Analyzer.Standard "A2" "Operations" "Keep logs" "For ninety days".

(** A JSON object member whose value is a text, and the stub reply of
    the example scenario: an array of one finding. *)
Definition member (key value : string) : string :=
  dq +:+ key +:+ dq +:+ ":" +:+ dq +:+ value +:+ dq.

Definition stub_reply : string :=
  "[{" +:+ String.concat ","
             [member "standardId" "A1"; member "category" "Security";
              member "requirement" "Use MFA"; member "status" "Compliant";
              member "finding" "Document mentions 2FA";
              member "recommendation" "None"]
  +:+ "}]".

End Samples.

(** ** Sample sessions *)

Module AppSamples.
Import PyStr Pandas Json Docx Normalizer Analyzer App Samples.

(** Collaborators that open every document as one paragraph holding the
    bytes of the file, read every table as [tidy], and answer every
    prompt with a given reply. *)
Definition stubs (reply : string) : services :=
  Services (λ file, inr [Para (content file)]) (reader_of tidy) (reader_of tidy)
    (replies reply).

Definition app_docx : UploadedFile := Upload "app.docx" "We require two-factor login.".

(** Both files uploaded, a key typed, the button pressed. *)
Definition all_set : widgets :=
  Widgets "key" (Some app_docx) (Some standards_csv) true.

(** The session once [all_set] has been run with a reply. *)
Definition session_after (reply : string) : session :=
  default fresh (state <$> run (stubs reply) all_set fresh).

End AppSamples.

(** * Facts *)

(** ** Python [str] *)

Module StrFacts.
Import PyStr.
#[local] Arguments String.append : simpl nomatch.

Lemma append_nil_r (s : string) : s +:+ "" = s.
Proof. induction s as [|c s IH]; simpl; [done | by rewrite IH]. Qed.

Lemma append_assoc (s t u : string) : (s +:+ t) +:+ u = s +:+ (t +:+ u).
Proof. induction s as [|c s IH]; simpl; [done | by rewrite IH]. Qed.

Lemma append_length (s t : string) :
  String.length (s +:+ t) = String.length s + String.length t.
Proof. induction s as [|c s IH]; simpl; [done | by rewrite IH]. Qed.

Lemma append_eq_nil (s t : string) : s +:+ t = "" → s = "" ∧ t = "".
Proof. destruct s; simpl; [done | discriminate]. Qed.

(** *** Prefixes, suffixes and slices *)

Lemma startswith_app (p s : string) : startswith (p +:+ s) p = true.
Proof.
  unfold startswith. induction p as [|c p IH]; simpl.
  - by destruct s.
  - destruct (ascii_dec c c); [done | congruence].
Qed.

Lemma drop_app (p s : string) : drop (String.length p) (p +:+ s) = s.
Proof. induction p as [|c p IH]; simpl; [by destruct s | done]. Qed.

Lemma take_app (s p : string) : take (String.length s) (s +:+ p) = s.
Proof.
  induction s as [|c s IH]; simpl; [by destruct p | by rewrite IH].
Qed.

Lemma drop_last_app (s p : string) : drop_last (String.length p) (s +:+ p) = s.
Proof.
  unfold drop_last. rewrite append_length.
  replace (String.length s + String.length p - String.length p)
    with (String.length s) by lia.
  apply take_app.
Qed.

Lemma endswith_app (s p : string) : endswith (s +:+ p) p = true.
Proof.
  unfold endswith. rewrite append_length.
  replace (String.length s + String.length p - String.length p)
    with (String.length s) by lia.
  rewrite drop_app, String.eqb_refl, andb_true_r.
  apply Nat.leb_le. lia.
Qed.

(** A text that ends with [p] is some text followed by [p]. *)
Lemma drop_take (n : nat) (s : string) : take n s +:+ drop n s = s.
Proof.
  revert s. induction n as [|n IH]; intros [|c s]; simpl; try done.
  by rewrite IH.
Qed.

Lemma endswith_split (s p : string) :
  endswith s p = true → s = drop_last (String.length p) s +:+ p.
Proof.
  unfold endswith, drop_last. intros H.
  apply andb_true_iff in H as [_ H]. apply String.eqb_eq in H.
  rewrite <- (drop_take (String.length s - String.length p) s) at 1.
  by rewrite H.
Qed.

Lemma startswith_split (s p : string) :
  startswith s p = true → s = p +:+ drop (String.length p) s.
Proof.
  unfold startswith. revert s. induction p as [|c p IH]; intros [|d s]; simpl; try done.
  destruct (ascii_dec c d) as [->|]; [|done].
  intros H. by rewrite <- IH.
Qed.

(** *** Stripping *)

Lemma lstrip_space (w : string) : all_space w = true → lstrip w = "".
Proof.
  induction w as [|c w IH]; simpl; [done|].
  intros [Hc Hw]%andb_true_iff. rewrite Hc. auto.
Qed.

Lemma rstrip_space (w : string) : all_space w = true → rstrip w = "".
Proof.
  induction w as [|c w IH]; simpl; [done|].
  intros [Hc Hw]%andb_true_iff. rewrite IH, Hc; done.
Qed.

Lemma lstrip_app_space (w s : string) :
  all_space w = true → lstrip (w +:+ s) = lstrip s.
Proof.
  induction w as [|c w IH]; simpl; [done|].
  intros [Hc Hw]%andb_true_iff. rewrite Hc. auto.
Qed.

Lemma rstrip_app_space (s w : string) :
  all_space w = true → rstrip (s +:+ w) = rstrip s.
Proof.
  intros Hw. induction s as [|c s IH]; simpl.
  - by apply rstrip_space.
  - by rewrite IH.
Qed.

(** Text before a part that does not strip to nothing is kept. *)
Lemma rstrip_app_keep (s t : string) :
  rstrip t ≠ "" → rstrip (s +:+ t) = s +:+ rstrip t.
Proof.
  intros Ht. induction s as [|c s IH]; simpl; [done|].
  rewrite IH. destruct (s +:+ rstrip t) eqn:E; [|done].
  by apply append_eq_nil in E as [_ ?].
Qed.

Lemma rstrip_last (s : string) (c : ascii) :
  isspace c = false → rstrip (s +:+ String c "") = s +:+ String c "".
Proof.
  intros Hc. rewrite rstrip_app_keep; simpl; rewrite Hc; done.
Qed.

Lemma lstrip_first (c : ascii) (s : string) :
  isspace c = false → lstrip (String c s) = String c s.
Proof. intros Hc. simpl. by rewrite Hc. Qed.

(** Padding with whitespace on either side does not change [strip]. *)
Lemma strip_app_space_r (s w : string) :
  all_space w = true → strip (s +:+ w) = strip s.
Proof.
  intros Hw. unfold strip. induction s as [|c s IH]; simpl.
  - rewrite (lstrip_space w Hw). done.
  - destruct (isspace c); [done|].
    change (String c (s +:+ w)) with (String c s +:+ w).
    by apply rstrip_app_space.
Qed.

Lemma strip_pad (w1 s w2 : string) :
  all_space w1 = true → all_space w2 = true →
  strip (w1 +:+ s +:+ w2) = strip s.
Proof.
  intros H1 H2. unfold strip at 1. rewrite lstrip_app_space by done.
  by apply strip_app_space_r.
Qed.

(** The result of [lstrip] does not start with whitespace, and the
    result of [rstrip] does not end with it. *)
Lemma lstrip_head (s : string) (c : ascii) (t : string) :
  lstrip s = String c t → isspace c = false.
Proof.
  induction s as [|d s IH]; simpl; [done|].
  destruct (isspace d) eqn:E; [done|]. by intros [= <- _].
Qed.

Lemma lstrip_idem (s : string) : lstrip (lstrip s) = lstrip s.
Proof.
  induction s as [|d s IH]; simpl; [done|].
  destruct (isspace d) eqn:E; [done|]. simpl. by rewrite E.
Qed.

Lemma rstrip_idem (s : string) : rstrip (rstrip s) = rstrip s.
Proof.
  induction s as [|d s IH]; simpl; [done|].
  destruct (rstrip s) as [|e r] eqn:E.
  - destruct (isspace d) eqn:Ed; simpl; [done | by rewrite Ed].
  - simpl in *. by rewrite IH.
Qed.

(** [rstrip] only removes whitespace from the right. *)
Lemma rstrip_split (s : string) :
  ∃ w, all_space w = true ∧ s = rstrip s +:+ w.
Proof.
  induction s as [|c s (w & Hw & IH)]; simpl.
  - by exists "".
  - destruct (rstrip s) as [|e r] eqn:E.
    + destruct (isspace c) eqn:Ec.
      * exists (String c w). simpl in *. rewrite Ec, Hw. by rewrite IH at 1.
      * exists w. simpl in *. by rewrite IH at 1.
    + exists w. split; [done|]. simpl. by rewrite IH at 1.
Qed.

Lemma lstrip_split (s : string) :
  ∃ w, all_space w = true ∧ s = w +:+ lstrip s.
Proof.
  induction s as [|c s (w & Hw & IH)]; simpl.
  - by exists "".
  - destruct (isspace c) eqn:Ec.
    + exists (String c w). simpl. rewrite Ec, Hw. by rewrite IH at 1.
    + by exists "".
Qed.

Lemma rstrip_lstrip_head (s : string) (c : ascii) (t : string) :
  rstrip s = String c t → ∃ t', s = String c t'.
Proof.
  destruct s as [|d s]; simpl; [done|].
  destruct (rstrip s); [destruct (isspace d)|]; intros [= <- _]; eauto.
Qed.

Lemma strip_head (s : string) (c : ascii) (t : string) :
  strip s = String c t → isspace c = false.
Proof.
  unfold strip. intros H.
  apply rstrip_lstrip_head in H as [t' H]. by apply lstrip_head in H.
Qed.

Lemma strip_idem (s : string) : strip (strip s) = strip s.
Proof.
  unfold strip. destruct (rstrip (lstrip s)) as [|c t] eqn:E; [done|].
  pose proof (strip_head s c t E) as Hc.
  rewrite <- E at 1. simpl lstrip at 1.
  rewrite E. simpl lstrip. rewrite Hc. rewrite <- E. apply rstrip_idem.
Qed.

(** *** Lower-casing *)

Lemma isspace_lower_char (c : ascii) : isspace (lower_char c) = isspace c.
Proof.
  destruct c as [[] [] [] [] [] [] [] []]; vm_compute; reflexivity.
Qed.

Lemma lower_lstrip (s : string) : lower (lstrip s) = lstrip (lower s).
Proof.
  induction s as [|c s IH]; simpl; [done|].
  rewrite isspace_lower_char. by destruct (isspace c).
Qed.

Lemma lower_rstrip (s : string) : lower (rstrip s) = rstrip (lower s).
Proof.
  induction s as [|c s IH]; simpl; [done|].
  rewrite <- IH, isspace_lower_char.
  destruct (rstrip s); simpl; [by destruct (isspace c) | done].
Qed.

Lemma lower_strip (s : string) : lower (strip s) = strip (lower s).
Proof. unfold strip. by rewrite lower_rstrip, lower_lstrip. Qed.

Lemma lower_idem (s : string) : lower (lower s) = lower s.
Proof.
  induction s as [|c s IH]; simpl; [done|]. rewrite IH. f_equal.
  destruct c as [[] [] [] [] [] [] [] []]; vm_compute; reflexivity.
Qed.

End StrFacts.

(** ** The decoder *)

Module JsonFacts.
Import PyStr Json StrFacts.
#[local] Arguments String.append : simpl nomatch.

(** *** Characters *)

Lemma inert_spec (c : ascii) : inert c = true → inert_char c.
Proof.
  destruct c as [[] [] [] [] [] [] [] []]; intros H;
    try discriminate H; split; reflexivity.
Qed.

Lemma is_ws_isspace (c : ascii) : is_ws c = true → isspace c = true.
Proof.
  destruct c as [[] [] [] [] [] [] [] []]; intros H;
    try discriminate H; reflexivity.
Qed.

Lemma isspace_inert (c : ascii) : isspace c = true → inert c = true.
Proof. unfold inert. by intros ->. Qed.

(** *** Generic steps *)

Lemma scan_map_ok {A B : Type} (f : A → B) (x : scan A) (b : B) (r : string) :
  scan_map f x = Ok b r → ∃ a, x = Ok a r ∧ b = f a.
Proof. destruct x; simpl; intros [= <- <-] || discriminate. eauto. Qed.

Lemma snoc_cons (a : ascii) (s t : string) : String a (s +:+ t) = String a s +:+ t.
Proof. reflexivity. Qed.

Lemma snoc_nil (t : string) : t = "" +:+ t.
Proof. reflexivity. Qed.

(** *** Whitespace *)

Lemma skip_ws_length (s : string) : String.length (skip_ws s) ≤ String.length s.
Proof. induction s as [|c s IH]; simpl; [lia|]. destruct (is_ws c); simpl; lia. Qed.

Lemma skip_ws_head (s : string) (d : ascii) (r : string) :
  skip_ws s = String d r → is_ws d = false.
Proof.
  induction s as [|c s IH]; simpl; [done|].
  destruct (is_ws c) eqn:E; [done|]. by intros [= <- _].
Qed.

Lemma skip_ws_fixed (d : ascii) (r : string) :
  is_ws d = false → skip_ws (String d r) = String d r.
Proof. intros H. simpl. by rewrite H. Qed.

(** Skipping whitespace before a last character [c] either stops before
    it, or passes everything, [c] included. *)
Lemma skip_ws_snoc (s : string) (c : ascii) :
  skip_ws (s +:+ String c "") = skip_ws s +:+ String c ""
  ∨ (skip_ws s = "" ∧ skip_ws (s +:+ String c "") = "").
Proof.
  induction s as [|a s IH]; simpl.
  - destruct (is_ws c); auto.
  - destruct (is_ws a); auto.
Qed.

Lemma skip_ws_app_nil (a b : string) : skip_ws (a +:+ b) = "" → skip_ws a = "".
Proof.
  induction a as [|c a IH]; simpl; [done|].
  destruct (is_ws c); [done | discriminate].
Qed.

Lemma skip_ws_split (s : string) :
  ∃ w, all_space w = true ∧ s = w +:+ skip_ws s.
Proof.
  induction s as [|c s (w & Hw & IH)]; simpl.
  - by exists "".
  - destruct (is_ws c) eqn:E.
    + exists (String c w). simpl. rewrite Hw, (is_ws_isspace c E).
      split; [done|]. by rewrite <- IH.
    + by exists "".
Qed.

(** *** Strings *)

Lemma scanstring_single (c : ascii) (o : string) (cs : list N) (r : string) :
  inert c = true → scanstring (String c "") o = Ok cs r → False.
Proof.
  intros [] %inert_spec. cbn [scanstring].
  rewrite inert_dq0, inert_bs0. by destruct (_ <=? _)%N.
Qed.

(** Case analysis that follows the evaluation of the scan on the longer
    text: the head test of the hypothesis is split, and a text is split
    when the scan looks at its first character. *)
Ltac head_step c :=
  match goal with
  | H : (match ?s +:+ String c "" with _ => _ end) = _ |- _ =>
      is_var s; destruct s; cbn [String.append] in *
  | H : (match ?x with _ => _ end) = _ |- _ =>
      destruct x eqn:?; cbn [String.append] in *
  end.

Lemma scanstring_cut_aux (n : nat) (c : ascii) :
  inert c = true →
  ∀ s o o' cs r,
    scanstring (s +:+ String c "") o = Ok cs r → String.length s ≤ n →
    ∃ r', r = r' +:+ String c "" ∧ scanstring s o' = Ok cs r'.
Proof.
  intros Hc. pose proof (inert_spec c Hc) as [].
  induction n as [|n IH]; intros s o o' cs r H Hn.
  - destruct s; [|simpl in Hn; lia].
    by apply scanstring_single in H.
  - destruct s as [|a s1]; [by apply scanstring_single in H|].
    cbn [scanstring String.append] in H |- *.
    repeat head_step c;
      rewrite ?inert_escape0, ?inert_u0, ?inert_bs0 in *; try discriminate.
    all: try (injection H as <- <-; eexists; split; [|reflexivity]; reflexivity).
    all: apply scan_map_ok in H as (? & H & ->).
    all: try (exfalso; exact (scanstring_single _ _ _ _ Hc H)).
    all: match goal with
         | |- ∃ r', _ ∧ scan_map _ (scanstring ?Y _) = _ =>
             destruct (IH Y o o' _ _ H) as (r' & -> & H');
             [ cbn [String.length] in *; lia
             | exists r'; split; [reflexivity | rewrite H'; reflexivity] ]
         end.
Qed.

Lemma scanstring_cut (c : ascii) (s o o' : string) (cs : list N) (r : string) :
  inert c = true →
  scanstring (s +:+ String c "") o = Ok cs r →
  ∃ r', r = r' +:+ String c "" ∧ scanstring s o' = Ok cs r'.
Proof. intros Hc H. by eapply scanstring_cut_aux. Qed.

(** *** Numbers and literals *)

Lemma span_digits_snoc (c : ascii) (s : string) :
  isdigit c = false →
  span_digits (s +:+ String c "")
  = (fst (span_digits s), snd (span_digits s) +:+ String c "").
Proof.
  intros Hc. induction s as [|a s IH]; simpl.
  - by rewrite Hc.
  - destruct (isdigit a); [|done]. rewrite IH. by destruct (span_digits s).
Qed.

Lemma int_part_snoc (c : ascii) (s : string) :
  inert c = true →
  int_part (s +:+ String c "")
  = (λ dr, (fst dr, snd dr +:+ String c "")) <$> int_part s.
Proof.
  intros [] %inert_spec. destruct s as [|a s]; simpl.
  - by rewrite inert_zero0, inert_digit0.
  - destruct (a =? "0")%char; [done|]. destruct (isdigit a); [|done].
    rewrite span_digits_snoc by done. by destruct (span_digits s).
Qed.

Lemma frac_part_snoc (c : ascii) (s : string) :
  inert c = true →
  frac_part (s +:+ String c "")
  = (fst (frac_part s), snd (frac_part s) +:+ String c "").
Proof.
  intros [] %inert_spec. destruct s as [|a [|d s]]; simpl; [done| |].
  - rewrite inert_digit0. by rewrite andb_false_r.
  - destruct ((a =? ".")%char && isdigit d); [|done].
    rewrite span_digits_snoc by done. by destruct (span_digits s).
Qed.

Lemma exp_part_snoc (c : ascii) (s : string) :
  inert c = true →
  exp_part (s +:+ String c "")
  = (fst (exp_part s), snd (exp_part s) +:+ String c "").
Proof.
  intros Hc. pose proof (inert_spec c Hc) as [].
  assert (He : (c =? "e")%char = false ∧ (c =? "E")%char = false
               ∧ (c =? "+")%char = false).
  { clear -Hc. destruct c as [[] [] [] [] [] [] [] []];
      try discriminate Hc; repeat split. }
  destruct He as (He1 & He2 & He3).
  destruct s as [|e s]; simpl.
  - by rewrite He1, He2.
  - destruct ((e =? "e")%char || (e =? "E")%char); [|done].
    destruct s as [|g s]; simpl.
    + rewrite He3, inert_minus0. simpl. by rewrite inert_digit0.
    + destruct ((g =? "+")%char || (g =? "-")%char).
      * rewrite span_digits_snoc by done.
        destruct (span_digits s) as [[|d ds] r]; done.
      * change (String g (s +:+ String c "")) with (String g s +:+ String c "").
        rewrite span_digits_snoc by done.
        destruct (span_digits (String g s)) as [[|d ds] r]; done.
Qed.

Lemma match_number_cut (c : ascii) (s : string) (v : json) (r : string) :
  inert c = true →
  match_number (s +:+ String c "") = Ok v r →
  ∃ r', r = r' +:+ String c "" ∧ match_number s = Ok v r'.
Proof.
  intros Hc. pose proof (inert_spec c Hc) as []. unfold match_number.
  assert (Hneg : (match s +:+ String c "" with
                  | String a s' => if (a =? "-")%char then (true, s')
                                   else (false, s +:+ String c "")
                  | "" => (false, s +:+ String c "")
                  end)
                 = (let p := match s with
                             | String a s' => if (a =? "-")%char then (true, s')
                                              else (false, s)
                             | "" => (false, s)
                             end in (fst p, snd p +:+ String c ""))).
  { destruct s as [|a s]; simpl; [by rewrite inert_minus0|].
    by destruct (a =? "-")%char. }
  rewrite Hneg. clear Hneg.
  destruct (match s with
            | String a s' => if (a =? "-")%char then (true, s') else (false, s)
            | "" => (false, s)
            end) as [negative s0].
  cbn [fst snd]. rewrite int_part_snoc by done.
  destruct (int_part s0) as [[ds r0]|]; cbn [fmap option_fmap option_map fst snd];
    [|discriminate].
  rewrite frac_part_snoc by done. destruct (frac_part r0) as [frac r1].
  cbn [fst snd]. rewrite exp_part_snoc by done.
  destruct (exp_part r1) as [exp r2]. cbn [fst snd].
  destruct frac, exp; intros [= <- <-]; eexists; split; reflexivity.
Qed.

Lemma prefix_snoc (c : ascii) (l s : string) :
  char_in c l = false →
  String.prefix l (s +:+ String c "") = String.prefix l s.
Proof.
  revert s. induction l as [|a l IH]; intros s Hl.
  - by destruct s.
  - simpl in Hl. apply orb_false_iff in Hl as [Ha Hl].
    destruct s as [|b s]; simpl.
    + destruct (ascii_dec a c) as [->|]; [|done].
      by rewrite Ascii.eqb_refl in Ha.
    + destruct (ascii_dec a b); [auto | done].
Qed.

Lemma drop_snoc (l s t : string) :
  String.prefix l s = true →
  drop (String.length l) (s +:+ t) = drop (String.length l) s +:+ t.
Proof.
  revert s. induction l as [|a l IH]; intros s; simpl.
  - intros _. by destruct s.
  - destruct s as [|b s]; simpl; [discriminate|].
    destruct (ascii_dec a b); [auto | discriminate].
Qed.

Lemma match_literal_cut (c : ascii) (ls : list (string * json)) (s : string)
  (v : json) (r : string) :
  inert c = true →
  forallb (λ lv, negb (char_in c (fst lv))) ls = true →
  match_literal ls (s +:+ String c "") = Ok v r →
  ∃ r', r = r' +:+ String c "" ∧ match_literal ls s = Ok v r'.
Proof.
  intros Hc. induction ls as [|[l w] ls IH]; simpl.
  - intros _. by apply match_number_cut.
  - intros [Hl Hls]%andb_true_iff. apply negb_true_iff in Hl.
    rewrite prefix_snoc by done.
    destruct (String.prefix l s) eqn:E; [|auto].
    intros [= <- <-]. eexists. split; [|reflexivity]. by apply drop_snoc.
Qed.

(** *** Terms *)

Lemma scan_once_unfold (f : nat) (c : ascii) (s1 : string) :
  scan_once (S f) (String c s1) =
    if (c =? DQ)%char then scan_map JStr (scanstring s1 (String c s1))
    else if (c =? "{")%char then
      match skip_ws s1 with
      | String d r1 as r =>
          if (d =? "}")%char then Ok (JObj []) r1 else parse_members f r []
      | "" => parse_members f "" []
      end
    else if (c =? "[")%char then
      match skip_ws s1 with
      | String d r1 as r =>
          if (d =? "]")%char then Ok (JArr []) r1 else parse_items f r []
      | "" => parse_items f "" []
      end
    else match_literal literals (String c s1).
Proof. reflexivity. Qed.

Lemma parse_items_unfold (f : nat) (s : string) (acc : list json) :
  parse_items (S f) s acc =
    match scan_once f s with
    | Ok v r =>
        match skip_ws r with
        | String d r2 as r1 =>
            if (d =? "]")%char then Ok (JArr (acc ++ [v])) r2
            else if (d =? ",")%char
                 then parse_items f (skip_ws r2) (acc ++ [v])
                 else Err want_comma r1
        | "" => Err want_comma ""
        end
    | Err msg at_suffix => Err msg at_suffix
    | Stop at_suffix => Stop at_suffix
    | Exhausted => Exhausted
    end.
Proof. reflexivity. Qed.

Lemma parse_members_unfold (f : nat) (q : ascii) (s1 : string)
  (acc : list (list N * json)) :
  parse_members (S f) (String q s1) acc =
    if negb (q =? DQ)%char then Err want_key (String q s1)
    else
      match scanstring s1 (String q s1) with
      | Ok key r =>
          match skip_ws r with
          | "" => Err want_colon ""
          | String colon r2 as r1 =>
              if negb (colon =? ":")%char then Err want_colon r1
              else
                match scan_once f (skip_ws r2) with
                | Ok v r4 =>
                    match skip_ws r4 with
                    | String d r6 as r5 =>
                        if (d =? "}")%char
                        then Ok (JObj (dict_set key v acc)) r6
                        else if (d =? ",")%char
                             then parse_members f (skip_ws r6)
                                    (dict_set key v acc)
                             else Err want_comma r5
                    | "" => Err want_comma ""
                    end
                | Err msg at_suffix => Err msg at_suffix
                | Stop at_suffix => Stop at_suffix
                | Exhausted => Exhausted
                end
          end
      | Err msg at_suffix => Err msg at_suffix
      | Stop at_suffix => Stop at_suffix
      | Exhausted => Exhausted
      end.
Proof. reflexivity. Qed.

Lemma scan_once_nil (f : nat) (v : json) (r : string) :
  scan_once f "" = Ok v r → False.
Proof. by destruct f. Qed.

Lemma parse_items_nil (f : nat) (acc : list json) (v : json) (r : string) :
  parse_items f "" acc = Ok v r → False.
Proof. destruct f as [|[|f]]; done. Qed.

Lemma parse_members_nil (f : nat) (acc : list (list N * json)) (v : json)
  (r : string) : parse_members f "" acc = Ok v r → False.
Proof. by destruct f. Qed.



Lemma scan_cut (c : ascii) (f : nat) :
  inert c = true →
  (∀ s, cut_ok c (scan_once f (s +:+ String c "")) (scan_once f s))
  ∧ (∀ s acc, cut_ok c (parse_items f (s +:+ String c "") acc)
                (parse_items f s acc))
  ∧ (∀ s acc, cut_ok c (parse_members f (s +:+ String c "") acc)
                (parse_members f s acc)).
Proof.
  intros Hc. pose proof (inert_spec c Hc) as [].
  induction f as [|f (IHs & IHi & IHm)].
  { split; [|split]; intros; intros v r H; discriminate H. }
  split; [|split].
  - (* scan_once *)
    intros [|a s1] v r H.
    + cbn [String.append] in H.
      rewrite scan_once_unfold in H.
      rewrite inert_dq0, inert_open_brace0, inert_open_bracket0 in H.
      apply (match_literal_cut c literals "") in H as (r' & _ & H);
        [|done|done].
      vm_compute in H. discriminate.
    + cbn [String.append] in H.
      rewrite scan_once_unfold in H. rewrite scan_once_unfold.
      destruct (a =? DQ)%char.
      { apply scan_map_ok in H as (cs & H & ->).
        apply (scanstring_cut c s1 _ (String a s1)) in H as (r' & -> & H);
          [|done].
        exists r'. by rewrite H. }
      destruct (a =? "{")%char.
      { destruct (skip_ws_snoc s1 c) as [E|[E1 E2]].
        - rewrite E in H. destruct (skip_ws s1) as [|d r1].
          + cbn [String.append] in H.
            rewrite inert_close_brace0 in H.
            by apply (IHm "") in H.
          + cbn [String.append] in H.
            destruct (d =? "}")%char.
            * injection H as <- <-. by eexists.
            * by apply (IHm (String d r1)) in H.
        - rewrite E2 in H. by apply parse_members_nil in H. }
      destruct (a =? "[")%char.
      { destruct (skip_ws_snoc s1 c) as [E|[E1 E2]].
        - rewrite E in H. destruct (skip_ws s1) as [|d r1].
          + cbn [String.append] in H.
            rewrite inert_close_bracket0 in H.
            by apply (IHi "") in H.
          + cbn [String.append] in H.
            destruct (d =? "]")%char.
            * injection H as <- <-. by eexists.
            * by apply (IHi (String d r1)) in H.
        - rewrite E2 in H. by apply parse_items_nil in H. }
      by apply (match_literal_cut c literals (String a s1)) in H.
  - (* parse_items *)
    intros s acc v r H. rewrite parse_items_unfold in H |- *.
    destruct (scan_once f (s +:+ String c "")) as [w r0| | |] eqn:E;
      try discriminate H.
    apply IHs in E as (r0' & -> & E). rewrite E.
    destruct (skip_ws_snoc r0' c) as [E'|[E1 E2]].
    + rewrite E' in H. destruct (skip_ws r0') as [|d r2].
      * cbn [String.append] in H.
        rewrite inert_close_bracket0, inert_comma0 in H. discriminate.
      * cbn [String.append] in H.
        destruct (d =? "]")%char.
        { injection H as <- <-. by eexists. }
        destruct (d =? ",")%char; [|discriminate].
        destruct (skip_ws_snoc r2 c) as [E2|[E2 E3]].
        -- rewrite E2 in H. by apply IHi in H.
        -- rewrite E3 in H. by apply parse_items_nil in H.
    + rewrite E2 in H. discriminate.
  - (* parse_members *)
    intros [|q s1] acc v r H.
    + cbn [String.append] in H.
      rewrite parse_members_unfold in H. by rewrite inert_dq0 in H.
    + cbn [String.append] in H.
      rewrite parse_members_unfold in H. rewrite parse_members_unfold.
      destruct (negb (q =? DQ)%char); [discriminate|].
      destruct (scanstring (s1 +:+ String c "") _) as [key r0| | |] eqn:E;
        try discriminate H.
      apply (scanstring_cut c s1 _ (String q s1)) in E as (r0' & -> & E);
        [|done].
      rewrite E.
      destruct (skip_ws_snoc r0' c) as [E'|[E1 E2]];
        [|rewrite E2 in H; discriminate].
      rewrite E' in H. destruct (skip_ws r0') as [|colon r2].
      { cbn [String.append] in H.
        by rewrite inert_colon0 in H. }
      cbn [String.append] in H.
      destruct (negb (colon =? ":")%char); [discriminate|].
      assert (Hv : ∃ w r4, scan_once f (skip_ws (r2 +:+ String c "")) = Ok w r4).
      { destruct (scan_once f (skip_ws (r2 +:+ String c ""))); try discriminate H.
        eauto. }
      destruct Hv as (w & r4 & Hv). rewrite Hv in H.
      destruct (skip_ws_snoc r2 c) as [E3|[E3 E4]];
        [|rewrite E4 in Hv; by apply scan_once_nil in Hv].
      rewrite E3 in Hv. apply IHs in Hv as (r4' & -> & Hv). rewrite Hv.
      destruct (skip_ws_snoc r4' c) as [E5|[E5 E6]];
        [|rewrite E6 in H; discriminate].
      rewrite E5 in H. destruct (skip_ws r4') as [|d r6].
      { cbn [String.append] in H.
        rewrite inert_close_brace0, inert_comma0 in H. discriminate. }
      cbn [String.append] in H.
      destruct (d =? "}")%char.
      { injection H as <- <-. by eexists. }
      destruct (d =? ",")%char; [|discriminate].
      destruct (skip_ws_snoc r6 c) as [E7|[E7 E8]].
      * rewrite E7 in H. by apply IHm in H.
      * rewrite E8 in H. by apply parse_members_nil in H.
Qed.

(** *** Every term takes at least one character *)

Lemma scanstring_shorter_aux (n : nat) :
  ∀ s o cs r, scanstring s o = Ok cs r → String.length s ≤ n →
              String.length r < String.length s.
Proof.
  induction n as [|n IH]; intros s o cs r H Hn.
  - destruct s; [discriminate | simpl in Hn; lia].
  - destruct s as [|c s1]; [discriminate|].
    cbn [scanstring] in H.
    repeat case_match; simplify_eq; cbn [String.length] in *;
      try lia;
      try (apply scan_map_ok in H as (? & H & ->); apply IH in H;
           cbn [String.length] in *; lia).
Qed.

Lemma scanstring_shorter (s o : string) (cs : list N) (r : string) :
  scanstring s o = Ok cs r → String.length r < String.length s.
Proof. intros H. by eapply scanstring_shorter_aux. Qed.

Lemma span_digits_length (s : string) :
  String.length (snd (span_digits s)) ≤ String.length s.
Proof.
  induction s as [|c s IH]; simpl; [lia|].
  destruct (isdigit c); simpl; [|lia].
  destruct (span_digits s). simpl in *. lia.
Qed.

Lemma int_part_shorter (s d r : string) :
  int_part s = Some (d, r) → String.length r < String.length s.
Proof.
  destruct s as [|c s]; simpl; [done|].
  destruct (c =? "0")%char; [intros [= <- <-]; lia|].
  destruct (isdigit c); [|done].
  pose proof (span_digits_length s). destruct (span_digits s).
  intros [= <- <-]. simpl in *. lia.
Qed.

Lemma frac_part_length (s : string) :
  String.length (snd (frac_part s)) ≤ String.length s.
Proof.
  destruct s as [|a [|d s]]; simpl; try lia.
  destruct ((a =? ".")%char && isdigit d); simpl; [|lia].
  pose proof (span_digits_length s). destruct (span_digits s). simpl in *. lia.
Qed.

Lemma exp_part_length (s : string) :
  String.length (snd (exp_part s)) ≤ String.length s.
Proof.
  destruct s as [|e s]; simpl; [lia|].
  destruct ((e =? "e")%char || (e =? "E")%char); simpl; [|lia].
  destruct s as [|g s]; simpl; [lia|].
  destruct ((g =? "+")%char || (g =? "-")%char).
  - pose proof (span_digits_length s).
    destruct (span_digits s) as [[|] ?]; simpl in *; lia.
  - pose proof (span_digits_length (String g s)).
    destruct (span_digits (String g s)) as [[|] ?]; simpl in *; lia.
Qed.

Lemma match_number_shorter (s : string) (v : json) (r : string) :
  match_number s = Ok v r → String.length r < String.length s.
Proof.
  unfold match_number.
  assert (Hs0 : String.length
                  (snd (match s with
                        | String c s' => if (c =? "-")%char then (true, s')
                                         else (false, s)
                        | "" => (false, s)
                        end)) ≤ String.length s).
  { destruct s as [|c s]; simpl; [lia|]. destruct (c =? "-")%char; simpl; lia. }
  destruct (match s with
            | String c s' => if (c =? "-")%char then (true, s') else (false, s)
            | "" => (false, s)
            end) as [negative s0].
  simpl in Hs0. destruct (int_part s0) as [[ds r0]|] eqn:E; [|done].
  apply int_part_shorter in E.
  pose proof (frac_part_length r0). destruct (frac_part r0) as [frac r1].
  pose proof (exp_part_length r1). destruct (exp_part r1) as [exp r2].
  simpl in *. destruct frac, exp; intros [= <- <-]; lia.
Qed.

Lemma drop_prefix_shorter (l s : string) :
  l ≠ "" → String.prefix l s = true →
  String.length (drop (String.length l) s) < String.length s.
Proof.
  intros Hl H. apply (startswith_split s l) in H. rewrite H at 2.
  rewrite append_length. destruct l; [done|]. simpl. lia.
Qed.

Lemma match_literal_shorter (ls : list (string * json)) (s : string) (v : json)
  (r : string) :
  forallb (λ lv, negb (String.eqb (fst lv) "")) ls = true →
  match_literal ls s = Ok v r → String.length r < String.length s.
Proof.
  induction ls as [|[l w] ls IH]; simpl.
  - intros _. apply match_number_shorter.
  - intros [Hl Hls]%andb_true_iff.
    destruct (String.prefix l s) eqn:E; [|auto].
    intros [= <- <-]. apply drop_prefix_shorter; [|done].
    intros ->. done.
Qed.

Lemma scan_shorter (f : nat) :
  (∀ s v r, scan_once f s = Ok v r → String.length r < String.length s)
  ∧ (∀ s acc v r, parse_items f s acc = Ok v r →
                  String.length r < String.length s)
  ∧ (∀ s acc v r, parse_members f s acc = Ok v r →
                  String.length r < String.length s).
Proof.
  induction f as [|f (IHs & IHi & IHm)].
  { split; [|split]; intros; discriminate. }
  split; [|split].
  - intros [|a s1] v r H; [by apply scan_once_nil in H|].
    rewrite scan_once_unfold in H. cbn [String.length].
    destruct (a =? DQ)%char.
    { apply scan_map_ok in H as (cs & H & ->).
      apply scanstring_shorter in H. lia. }
    pose proof (skip_ws_length s1) as Hw.
    destruct (a =? "{")%char.
    { destruct (skip_ws s1) as [|d r1]; [by apply parse_members_nil in H|].
      destruct (d =? "}")%char.
      - injection H as <- <-. simpl in Hw. lia.
      - apply IHm in H. lia. }
    destruct (a =? "[")%char.
    { destruct (skip_ws s1) as [|d r1]; [by apply parse_items_nil in H|].
      destruct (d =? "]")%char.
      - injection H as <- <-. simpl in Hw. lia.
      - apply IHi in H. lia. }
    by apply match_literal_shorter in H.
  - intros s acc v r H. rewrite parse_items_unfold in H.
    destruct (scan_once f s) as [w r0| | |] eqn:E; try discriminate H.
    apply IHs in E. pose proof (skip_ws_length r0) as Hw.
    destruct (skip_ws r0) as [|d r2]; [discriminate|]. simpl in Hw.
    destruct (d =? "]")%char; [injection H as <- <-; lia|].
    destruct (d =? ",")%char; [|discriminate].
    apply IHi in H. pose proof (skip_ws_length r2). lia.
  - intros [|q s1] acc v r H; [by apply parse_members_nil in H|].
    rewrite parse_members_unfold in H. cbn [String.length].
    destruct (negb (q =? DQ)%char); [discriminate|].
    destruct (scanstring s1 _) as [key r0| | |] eqn:E; try discriminate H.
    apply scanstring_shorter in E. pose proof (skip_ws_length r0) as Hw.
    destruct (skip_ws r0) as [|colon r2]; [discriminate|]. simpl in Hw.
    destruct (negb (colon =? ":")%char); [discriminate|].
    pose proof (skip_ws_length r2) as Hw2.
    destruct (scan_once f (skip_ws r2)) as [w r4| | |] eqn:E2;
      try discriminate H.
    apply IHs in E2. pose proof (skip_ws_length r4) as Hw4.
    destruct (skip_ws r4) as [|d r6]; [discriminate|]. simpl in Hw4.
    destruct (d =? "}")%char; [injection H as <- <-; lia|].
    destruct (d =? ",")%char; [|discriminate].
    apply IHm in H. pose proof (skip_ws_length r6). lia.
Qed.

(** *** Fuel *)

Lemma scanstring_not_exhausted (s o : string) : scanstring s o ≠ Exhausted.
Proof.
  assert (H : ∀ n s o, String.length s ≤ n → scanstring s o ≠ Exhausted).
  { clear. induction n as [|n IH]; intros s o Hn.
    - destruct s; [discriminate | simpl in Hn; lia].
    - destruct s as [|c s1]; [discriminate|]. cbn [scanstring].
      repeat case_match; simplify_eq; cbn [String.length] in *;
        try discriminate;
        match goal with
        | |- scan_map _ (scanstring ?x ?o) ≠ _ =>
            assert (Hx : scanstring x o ≠ Exhausted)
              by (apply IH; cbn [String.length] in *; lia);
            destruct (scanstring x o); [discriminate..|done]
        end. }
  by eapply H.
Qed.

Lemma match_literal_not_exhausted (ls : list (string * json)) (s : string) :
  match_literal ls s ≠ Exhausted.
Proof.
  induction ls as [|[l w] ls IH]; simpl.
  - unfold match_number. repeat case_match; discriminate.
  - by destruct (String.prefix l s).
Qed.

(** With fuel above twice the length of the text, one more unit of fuel
    changes nothing, and fuel does not run out. *)
Lemma fuel_stable (f : nat) :
  (∀ s, 2 * String.length s + 1 ≤ f →
        scan_once (S f) s = scan_once f s ∧ scan_once f s ≠ Exhausted)
  ∧ (∀ s acc, 2 * String.length s + 2 ≤ f →
        parse_items (S f) s acc = parse_items f s acc
        ∧ parse_items f s acc ≠ Exhausted)
  ∧ (∀ s acc, 2 * String.length s + 2 ≤ f →
        parse_members (S f) s acc = parse_members f s acc
        ∧ parse_members f s acc ≠ Exhausted).
Proof.
  induction f as [|f (IHs & IHi & IHm)].
  { split; [|split]; intros; lia. }
  destruct (scan_shorter f) as (Cs & Ci & Cm).
  split; [|split].
  - intros [|a s1] Hf; [done|]. cbn [String.length] in Hf.
    rewrite !scan_once_unfold.
    destruct (a =? DQ)%char.
    { split; [done|]. pose proof (scanstring_not_exhausted s1 (String a s1)).
      by destruct (scanstring s1 _). }
    pose proof (skip_ws_length s1) as Hw.
    destruct (a =? "{")%char.
    { destruct (skip_ws s1) as [|d r1].
      - apply IHm. simpl. lia.
      - destruct (d =? "}")%char; [done|]. apply IHm. lia. }
    destruct (a =? "[")%char.
    { destruct (skip_ws s1) as [|d r1].
      - apply IHi. simpl. lia.
      - destruct (d =? "]")%char; [done|]. apply IHi. lia. }
    split; [done|]. apply match_literal_not_exhausted.
  - intros s acc Hf. rewrite !parse_items_unfold.
    destruct (IHs s) as [Es Ns]; [lia|]. rewrite Es.
    destruct (scan_once f s) as [w r0| | |] eqn:E; [|done..].
    apply Cs in E. pose proof (skip_ws_length r0) as Hw.
    destruct (skip_ws r0) as [|d r2]; [done|]. simpl in Hw.
    destruct (d =? "]")%char; [done|].
    destruct (d =? ",")%char; [|done].
    apply IHi. pose proof (skip_ws_length r2). lia.
  - intros [|q s1] acc Hf; [done|]. cbn [String.length] in Hf.
    rewrite !parse_members_unfold.
    destruct (negb (q =? DQ)%char); [done|].
    pose proof (scanstring_not_exhausted s1 (String q s1)).
    destruct (scanstring s1 _) as [key r0| | |] eqn:E; [|done..].
    apply scanstring_shorter in E. pose proof (skip_ws_length r0) as Hw.
    destruct (skip_ws r0) as [|colon r2]; [done|]. simpl in Hw.
    destruct (negb (colon =? ":")%char); [done|].
    pose proof (skip_ws_length r2) as Hw2.
    destruct (IHs (skip_ws r2)) as [Es Ns]; [lia|]. rewrite Es.
    destruct (scan_once f (skip_ws r2)) as [w r4| | |] eqn:E2; [|done..].
    apply Cs in E2. pose proof (skip_ws_length r4) as Hw4.
    destruct (skip_ws r4) as [|d r6]; [done|]. simpl in Hw4.
    destruct (d =? "}")%char; [done|].
    destruct (d =? ",")%char; [|done].
    apply IHm. pose proof (skip_ws_length r6). lia.
Qed.

(** Any two amounts of fuel above the bound give the same result. *)
Lemma fuel_irrelevant (s : string) (f1 f2 : nat) :
  2 * String.length s + 1 ≤ f1 → 2 * String.length s + 1 ≤ f2 →
  scan_once f1 s = scan_once f2 s.
Proof.
  assert (H : ∀ f, 2 * String.length s + 1 ≤ f →
                   scan_once f s = scan_once (2 * String.length s + 1) s).
  { intros f Hf. induction Hf as [|f Hf IH]; [done|].
    rewrite <- IH. by apply fuel_stable. }
  intros H1 H2. by rewrite (H f1), (H f2).
Qed.

Lemma scan_once_not_exhausted (s : string) (f : nat) :
  2 * String.length s + 1 ≤ f → scan_once f s ≠ Exhausted.
Proof. intros Hf. by apply fuel_stable. Qed.

(** *** A term does not start with an inert character *)

Lemma match_literal_head (ls : list (string * json)) (d : ascii) (t : string) :
  inert d = true →
  forallb (λ lv, negb (String.eqb (fst lv) "")) ls = true →
  forallb (λ lv, negb (char_in d (fst lv))) ls = true →
  match_literal ls (String d t) = Stop (String d t).
Proof.
  intros Hd. pose proof (inert_spec d Hd) as [].
  induction ls as [|[l w] ls IH]; simpl.
  - intros _ _. unfold match_number, int_part.
    by rewrite inert_minus0, inert_zero0, inert_digit0.
  - intros [Hl Hls]%andb_true_iff [Hc Hcs]%andb_true_iff.
    destruct l as [|a l]; [done|]. simpl in Hc |- *.
    apply negb_true_iff, orb_false_iff in Hc as [Ha _].
    destruct (ascii_dec a d) as [->|]; [by rewrite Ascii.eqb_refl in Ha|].
    auto.
Qed.

Lemma scan_once_head (f : nat) (d : ascii) (t : string) (v : json) (r : string) :
  scan_once f (String d t) = Ok v r → inert d = false.
Proof.
  intros H. destruct (inert d) eqn:Hd; [|done]. exfalso.
  pose proof (inert_spec d Hd) as [].
  destruct f as [|f]; [discriminate|]. rewrite scan_once_unfold in H.
  rewrite inert_dq0, inert_open_brace0, inert_open_bracket0 in H.
  rewrite match_literal_head in H by done. discriminate.
Qed.

(** *** Losing trailing inert characters *)

Lemma all_space_inert (w : string) : all_space w = true → all_inert w = true.
Proof.
  induction w as [|c w IH]; simpl; [done|].
  intros [Hc Hw]%andb_true_iff. by rewrite (isspace_inert c Hc), IH.
Qed.

Lemma scan_cut_many (f : nat) (w s : string) (v : json) (r : string) :
  all_inert w = true →
  scan_once f (s +:+ w) = Ok v r →
  ∃ r', r = r' +:+ w ∧ scan_once f s = Ok v r'.
Proof.
  revert s. induction w as [|c w IH]; intros s Hw H.
  - rewrite append_nil_r in H. exists r. by rewrite append_nil_r.
  - simpl in Hw. apply andb_true_iff in Hw as [Hc Hw].
    change (String c w) with (String c "" +:+ w) in H |- *.
    rewrite <- append_assoc in H.
    apply IH in H as (r1 & -> & H); [|done].
    apply (scan_cut c f Hc) in H as (r' & -> & H).
    exists r'. by rewrite append_assoc.
Qed.

Lemma skip_ws_snoc_solid (s : string) (c : ascii) :
  is_ws c = false → skip_ws (s +:+ String c "") ≠ "".
Proof.
  intros Hc. induction s as [|a s IH]; simpl.
  - by rewrite Hc.
  - by destruct (is_ws a).
Qed.

(** *** [loads] and [strip] *)

Lemma loads_ok_inv (s : string) (v : json) :
  loads s = inr v →
  ∃ r, scan_once (fuel_for s) (skip_ws s) = Ok v r ∧ skip_ws r = "".
Proof.
  unfold loads. destruct (scan_once _ _) as [w r| | |]; [|done..].
  destruct (skip_ws r) eqn:E; [|done]. intros [= <-]. eauto.
Qed.

Lemma loads_ok_intro (s : string) (v : json) (r : string) :
  scan_once (fuel_for s) (skip_ws s) = Ok v r → skip_ws r = "" →
  loads s = inr v.
Proof. unfold loads. by intros -> ->. Qed.

Lemma rstrip_keeps_head (d : ascii) (t : string) :
  isspace d = false → ∃ t', rstrip (String d t) = String d t'.
Proof.
  intros Hd. simpl. destruct (rstrip t); [rewrite Hd|]; eauto.
Qed.

Lemma inert_false_isspace (d : ascii) : inert d = false → isspace d = false.
Proof. unfold inert. by intros [? _]%orb_false_iff. Qed.

Lemma isspace_false_is_ws (d : ascii) : isspace d = false → is_ws d = false.
Proof.
  intros H. destruct (is_ws d) eqn:E; [|done].
  apply is_ws_isspace in E. congruence.
Qed.

(** A text that [loads] accepts is still accepted, with the same value,
    once stripped. *)
Lemma loads_strip (s : string) (v : json) :
  loads s = inr v → loads (strip s) = inr v.
Proof.
  intros H. apply loads_ok_inv in H as (r & H & Hr).
  destruct (skip_ws_split s) as (w & Hw & Hs).
  destruct (skip_ws s) as [|d t] eqn:Es; [by apply scan_once_nil in H|].
  pose proof (inert_false_isspace d (scan_once_head _ _ _ _ _ H)) as Hd.
  assert (Hstrip : strip s = rstrip (String d t)).
  { rewrite Hs at 1. unfold strip.
    by rewrite lstrip_app_space, lstrip_first. }
  destruct (rstrip_split (String d t)) as (w' & Hw' & Ht).
  destruct (rstrip_keeps_head d t Hd) as (t' & Hx).
  rewrite Hstrip, Hx. rewrite Hx in Ht.
  rewrite Ht in H.
  apply scan_cut_many in H as (r' & -> & H); [|by apply all_space_inert].
  apply skip_ws_app_nil in Hr.
  apply (loads_ok_intro _ _ r'); [|done].
  rewrite skip_ws_fixed by (by apply isspace_false_is_ws).
  rewrite <- H. apply fuel_irrelevant; unfold fuel_for; [lia|].
  assert (String.length (String d t') ≤ String.length s); [|lia].
  rewrite Hs, Ht, !append_length. lia.
Qed.

(** A text that [loads] accepts has, once stripped, no backtick at
    either end. *)
Lemma loads_ok_no_fence (s : string) (v : json) :
  loads s = inr v →
  startswith (strip s) "```" = false ∧ endswith (strip s) "```" = false.
Proof.
  intros H. apply loads_strip, loads_ok_inv in H as (r & H & Hr).
  destruct (strip s) as [|d t] eqn:Ex; [done|].
  pose proof (strip_head _ _ _ Ex) as Hd.
  rewrite skip_ws_fixed in H by (by apply isspace_false_is_ws).
  split.
  - destruct (startswith (String d t) "```") eqn:E; [exfalso|done].
    apply startswith_split in E. injection E as -> _.
    apply scan_once_head in H. discriminate H.
  - destruct (endswith (String d t) "```") eqn:E; [exfalso|done].
    apply endswith_split in E. rewrite E in H.
    change "```" with ("``" +:+ String "`" "") in H.
    rewrite <- append_assoc in H.
    apply (scan_cut "`" _ eq_refl) in H as (r' & -> & _).
    by apply skip_ws_snoc_solid in Hr.
Qed.

(** [loads] never runs out of fuel. *)
Lemma loads_never_exhausted (s : string) : loads s ≠ inl RecursionError.
Proof.
  unfold loads.
  assert (H : scan_once (fuel_for s) (skip_ws s) ≠ Exhausted).
  { apply scan_once_not_exhausted. pose proof (skip_ws_length s).
    unfold fuel_for. lia. }
  destruct (scan_once _ _); [destruct (skip_ws rest)|..]; done.
Qed.

End JsonFacts.

(** ** Column resolution and selection *)

Module NormalizerFacts.
Import PyStr Pandas Normalizer StrFacts.

Lemma canonical_id : "ID" ∈ canonical.
Proof. unfold canonical. apply elem_of_cons. by left. Qed.
Lemma canonical_category : "Category" ∈ canonical.
Proof. unfold canonical. do 1 (apply elem_of_cons; right). apply elem_of_cons. by left. Qed.
Lemma canonical_requirement : "Requirement" ∈ canonical.
Proof. unfold canonical. do 2 (apply elem_of_cons; right). apply elem_of_cons. by left. Qed.
Lemma canonical_description : "Description" ∈ canonical.
Proof. unfold canonical. do 3 (apply elem_of_cons; right). apply elem_of_cons. by left. Qed.
#[local] Hint Resolve canonical_id canonical_category canonical_requirement
  canonical_description : core.

(** The dictionary built by the loop sends a header that was met to
    what the rule gives for it. *)
Lemma col_mapping_lookup (headers : list string) (m : gmap string string) (c : string) :
  foldl col_mapping_step m headers !! c =
    if decide (c ∈ headers)
    then match col_rule (lower c) with Some t => Some t | None => m !! c end
    else m !! c.
Proof.
  revert m. induction headers as [|h hs IH]; intros m; simpl.
  - done.
  - rewrite IH. unfold col_mapping_step.
    destruct (decide (h = c)) as [->|Hne].
    + rewrite (decide_True (P := c ∈ c :: hs)) by apply list_elem_of_here.
      destruct (col_rule (lower c)) eqn:E; [|by destruct (decide (c ∈ hs))].
      rewrite lookup_insert_eq. by destruct (decide (c ∈ hs)).
    + assert (Hiff : c ∈ h :: hs ↔ c ∈ hs).
      { rewrite elem_of_cons. split; [intros [E|Hin]; [congruence|done] | by right]. }
      assert (Hm : match col_rule (lower h) with
                   | Some target => <[h:=target]> m
                   | None => m
                   end !! c = m !! c).
      { destruct (col_rule (lower h)); [by rewrite lookup_insert_ne | done]. }
      rewrite Hm. destruct (decide (c ∈ hs)).
      * by rewrite decide_True by (by apply Hiff).
      * by rewrite decide_False by (by rewrite Hiff).
Qed.

Lemma build_col_mapping_lookup (headers : list string) (c : string) :
  c ∈ headers → build_col_mapping headers !! c = col_rule (lower c).
Proof.
  intros Hc. unfold build_col_mapping. rewrite col_mapping_lookup.
  rewrite decide_True by done. rewrite lookup_empty. by destruct (col_rule _).
Qed.

(** Renaming relabels every column by [final_label] and keeps its data. *)
Lemma cols_renamed (df : DataFrame) :
  cols (renamed df) = (λ c, (final_label (fst c), snd c)) <$> cols df.
Proof.
  unfold renamed, rename, relabel. simpl. rewrite <- list_fmap_compose.
  apply Forall_fmap_ext_1, Forall_forall. intros [h d] Hin. simpl. f_equal.
  unfold final_label, resolve. rewrite build_col_mapping_lookup; [done|].
  unfold columns. simpl. rewrite <- list_fmap_compose.
  apply list_elem_of_fmap. by exists (h, d).
Qed.

Lemma columns_renamed (df : DataFrame) :
  columns (renamed df) = final_label <$> columns df.
Proof.
  unfold columns. rewrite cols_renamed, <- !list_fmap_compose. done.
Qed.

Lemma nrows_renamed (df : DataFrame) : nrows (renamed df) = nrows df.
Proof. done. Qed.

(** The rule only ever assigns one of the four canonical names, and a
    canonical name fed to the rule gives itself. *)
Lemma col_rule_canonical (x t : string) : col_rule x = Some t → t ∈ canonical.
Proof.
  unfold col_rule. repeat case_match; intros [= <-]; auto.
Qed.

Lemma resolve_of_canonical (h k : string) :
  k ∈ canonical → strip h = k → resolve h = Some k.
Proof.
  unfold resolve, canonical. intros Hk ->.
  repeat (apply elem_of_cons in Hk as [->|Hk]; [vm_compute; reflexivity|]).
  by apply elem_of_nil in Hk.
Qed.

(** A header ends up bearing a canonical name exactly when it resolves
    to that name. *)
Lemma final_label_canonical (h k : string) :
  k ∈ canonical → final_label h = k ↔ resolve h = Some k.
Proof.
  intros Hk. unfold final_label. destruct (resolve h) as [t|] eqn:E; simpl.
  - split; [by intros -> | by intros [= ->]].
  - split; [|done]. intros Hs.
    rewrite (resolve_of_canonical h k Hk Hs) in E. done.
Qed.

Lemma columns_labelled_renamed (k : string) (df : DataFrame) :
  k ∈ canonical → columns_labelled k (renamed df) = mapped_to k df.
Proof.
  intros Hk. unfold columns_labelled, mapped_to. rewrite cols_renamed.
  induction (cols df) as [|[h d] l IH]; [done|].
  rewrite fmap_cons, !filter_cons. simpl.
  destruct (decide (final_label h = k)) as [Hl|Hl].
  - rewrite decide_True by (by apply final_label_canonical).
    rewrite fmap_cons. simpl. by rewrite IH, Hl.
  - rewrite decide_False; [done|]. by rewrite <- final_label_canonical.
Qed.

Lemma elem_of_columns_renamed (k : string) (df : DataFrame) :
  k ∈ canonical →
  k ∈ columns (renamed df) ↔ ∃ h, h ∈ columns df ∧ resolve h = Some k.
Proof.
  intros Hk. rewrite columns_renamed, list_elem_of_fmap. split.
  - intros (h & Hl & Hin). exists h. split; [done|].
    by apply final_label_canonical.
  - intros (h & Hin & Hr). exists h. split; [|done]. symmetry.
    by apply final_label_canonical.
Qed.

(** *** The [Description] column *)

Lemma has_column_spec (k : string) (df : DataFrame) :
  has_column k df = true ↔ k ∈ columns df.
Proof. unfold has_column. apply bool_decide_eq_true. Qed.

Lemma nrows_with_description (df : DataFrame) : nrows (with_description df) = nrows df.
Proof.
  unfold with_description.
  destruct (has_column "Description" (renamed df)) eqn:E; simpl; [done|].
  unfold setitem. by rewrite E.
Qed.

Lemma cols_with_description (df : DataFrame) :
  cols (with_description df) =
    if has_column "Description" (renamed df) then cols (renamed df)
    else cols (renamed df) ++ [("Description", replicate (nrows df) (CStr ""))].
Proof.
  unfold with_description.
  destruct (has_column "Description" (renamed df)) eqn:E; simpl; [done|].
  unfold setitem. by rewrite E.
Qed.

Lemma columns_labelled_app (k : string) (n : nat) (l1 l2 : list (string * list cell)) :
  columns_labelled k (Frame n (l1 ++ l2))
  = columns_labelled k (Frame n l1) ++ columns_labelled k (Frame n l2).
Proof. unfold columns_labelled. simpl. apply filter_app. Qed.

Lemma columns_labelled_nil (k : string) (df : DataFrame) :
  k ∉ columns df → columns_labelled k df = [].
Proof.
  unfold columns_labelled, columns. intros Hk.
  induction (cols df) as [|c l IH]; [done|].
  rewrite filter_cons. rewrite fmap_cons, not_elem_of_cons in Hk.
  destruct Hk as [Hc Hl]. rewrite decide_False by done. auto.
Qed.

Lemma columns_labelled_non_nil (k : string) (df : DataFrame) :
  k ∈ columns df → columns_labelled k df ≠ [].
Proof.
  unfold columns_labelled, columns. intros ([h d] & -> & Hin)%list_elem_of_fmap E.
  assert (H : (h, d) ∈ filter (λ c, c.1 = (h, d).1) (cols df)).
  { apply list_elem_of_filter. done. }
  rewrite E in H. by apply elem_of_nil in H.
Qed.

(** Ensuring [Description] leaves the other labels as they were. *)
Lemma columns_labelled_with_description (k : string) (df : DataFrame) :
  k ≠ "Description" →
  columns_labelled k (with_description df) = columns_labelled k (renamed df).
Proof.
  intros Hk. unfold columns_labelled. rewrite cols_with_description.
  destruct (has_column "Description" (renamed df)); [done|].
  rewrite filter_app, filter_cons, filter_nil. simpl.
  rewrite decide_False by done. by rewrite app_nil_r.
Qed.

Lemma description_with_description (df : DataFrame) :
  columns_labelled "Description" (with_description df) = description_columns df.
Proof.
  assert (Hc : "Description" ∈ canonical) by auto.
  unfold description_columns. rewrite <- (columns_labelled_renamed _ _ Hc).
  unfold columns_labelled at 1. rewrite cols_with_description.
  destruct (has_column "Description" (renamed df)) eqn:E.
  - apply has_column_spec, columns_labelled_non_nil in E.
    fold (columns_labelled "Description" (renamed df)).
    by destruct (columns_labelled "Description" (renamed df)).
  - assert (Hn : "Description" ∉ columns (renamed df)).
    { rewrite <- has_column_spec. by rewrite E. }
    rewrite filter_app. fold (columns_labelled "Description" (renamed df)).
    rewrite (columns_labelled_nil _ _ Hn). done.
Qed.

Lemma elem_of_columns_with_description (k : string) (df : DataFrame) :
  k ∈ columns (with_description df) ↔ k ∈ columns (renamed df) ∨ k = "Description".
Proof.
  unfold columns at 1. rewrite cols_with_description.
  destruct (has_column "Description" (renamed df)) eqn:E.
  - fold (columns (renamed df)). apply has_column_spec in E.
    split; [by left | by intros [?| ->]].
  - rewrite fmap_app, elem_of_app. fold (columns (renamed df)). simpl.
    rewrite list_elem_of_singleton. done.
Qed.

(** *** Selection *)

Lemma getitem_list_ok (keys : list string) (df : DataFrame) :
  (∀ k, k ∈ keys → k ∈ columns df) →
  getitem_list keys df = inr (Frame (nrows df) (k ← keys; columns_labelled k df)).
Proof.
  intros H. unfold getitem_list.
  assert (E : filter (λ k, k ∉ columns df) keys = []).
  { induction keys as [|k ks IH]; [done|]. rewrite filter_cons.
    rewrite decide_False.
    - apply IH. intros k' Hk'. apply H. by right.
    - intros Hk. apply Hk, H. by left. }
  by rewrite E.
Qed.

Lemma getitem_list_missing (keys : list string) (df : DataFrame) (k : string) :
  k ∈ keys → k ∉ columns df →
  ∃ missing, getitem_list keys df = inl (KeyError missing)
             ∧ k ∈ missing ∧ missing = filter (λ k, k ∉ columns df) keys.
Proof.
  intros Hk Hn. unfold getitem_list.
  assert (Hin : k ∈ filter (λ k, k ∉ columns df) keys).
  { by apply list_elem_of_filter. }
  destruct (filter (λ k, k ∉ columns df) keys) as [|m ms] eqn:E.
  - by apply elem_of_nil in Hin.
  - by exists (m :: ms).
Qed.

(** The result of a successful [standardize], column by column. *)
Lemma standardize_ok (df : DataFrame) :
  "ID" ∈ columns (renamed df) →
  "Category" ∈ columns (renamed df) →
  "Requirement" ∈ columns (renamed df) →
  standardize df = inr (normalized df).
Proof.
  intros Hi Hc Hr. unfold standardize, normalized. rewrite getitem_list_ok.
  - rewrite nrows_with_description. do 2 f_equal. unfold canonical. simpl.
    rewrite !columns_labelled_with_description by done.
    rewrite description_with_description, app_nil_r.
    rewrite !columns_labelled_renamed by auto.
    done.
  - intros k Hk. apply elem_of_columns_with_description.
    unfold canonical in Hk.
    repeat (apply elem_of_cons in Hk as [->|Hk]; [by auto|]).
    by apply elem_of_nil in Hk.
Qed.

Lemma standardize_inv (df out : DataFrame) :
  standardize df = inr out → out = normalized df.
Proof.
  intros H.
  destruct (decide ("ID" ∈ columns (renamed df))) as [Hi|Hi];
    [destruct (decide ("Category" ∈ columns (renamed df))) as [Hc|Hc];
     [destruct (decide ("Requirement" ∈ columns (renamed df))) as [Hr|Hr]|]|].
  - rewrite standardize_ok in H by done. by injection H as <-.
  - destruct (getitem_list_missing canonical (with_description df) "Requirement")
      as (m & Hm & _); [by auto| |].
    + rewrite elem_of_columns_with_description. by intros [?|?].
    + unfold standardize in H. congruence.
  - destruct (getitem_list_missing canonical (with_description df) "Category")
      as (m & Hm & _); [by auto| |].
    + rewrite elem_of_columns_with_description. by intros [?|?].
    + unfold standardize in H. congruence.
  - destruct (getitem_list_missing canonical (with_description df) "ID")
      as (m & Hm & _); [by auto| |].
    + rewrite elem_of_columns_with_description. by intros [?|?].
    + unfold standardize in H. congruence.
Qed.

(** A successful [standardize] means the three required names are borne. *)
Lemma standardize_ok_inv (df out : DataFrame) (k : string) :
  standardize df = inr out → k ∈ canonical → k ∈ columns (with_description df).
Proof.
  intros H Hk. destruct (decide (k ∈ columns (with_description df))) as [|Hn]; [done|].
  destruct (getitem_list_missing canonical (with_description df) k Hk Hn)
    as (m & Hm & _).
  unfold standardize in H. congruence.
Qed.

(** *** The columns of the normalized frame *)

Lemma mapped_to_labels (t k : string) (df : DataFrame) :
  filter (λ c, fst c = k) (mapped_to t df)
  = if decide (t = k) then mapped_to t df else [].
Proof.
  unfold mapped_to.
  induction (filter (λ c, resolve c.1 = Some t) (cols df)) as [|c l IH].
  - by destruct (decide (t = k)).
  - rewrite fmap_cons, filter_cons, IH. simpl.
    destruct (decide (t = k)); done.
Qed.

Lemma description_columns_labels (k : string) (df : DataFrame) :
  filter (λ c, fst c = k) (description_columns df)
  = if decide ("Description" = k) then description_columns df else [].
Proof.
  unfold description_columns.
  pose proof (mapped_to_labels "Description" k df) as H.
  destruct (mapped_to "Description" df) as [|c l] eqn:E; [|done].
  rewrite filter_cons, filter_nil. simpl.
  destruct (decide ("Description" = k)); done.
Qed.

Lemma columns_labelled_normalized (k : string) (df : DataFrame) :
  columns_labelled k (normalized df) =
    (if decide ("ID" = k) then mapped_to "ID" df else [])
    ++ (if decide ("Category" = k) then mapped_to "Category" df else [])
    ++ (if decide ("Requirement" = k) then mapped_to "Requirement" df else [])
    ++ (if decide ("Description" = k) then description_columns df else []).
Proof.
  unfold columns_labelled, normalized. simpl.
  by rewrite !filter_app, !mapped_to_labels, description_columns_labels.
Qed.

Lemma mapped_to_non_nil (t h : string) (df : DataFrame) :
  h ∈ columns df → resolve h = Some t → mapped_to t df ≠ [].
Proof.
  unfold columns, mapped_to. intros ([h' d] & -> & Hin)%list_elem_of_fmap Hr E.
  apply fmap_nil_inv in E.
  assert (H : (h', d) ∈ filter (λ c, resolve c.1 = Some t) (cols df)).
  { by apply list_elem_of_filter. }
  rewrite E in H. by apply elem_of_nil in H.
Qed.

Lemma mapped_to_nil (t : string) (df : DataFrame) :
  (∀ h, h ∈ columns df → resolve h ≠ Some t) → mapped_to t df = [].
Proof.
  unfold columns, mapped_to. intros H.
  induction (cols df) as [|[h d] l IH]; [done|].
  rewrite filter_cons. simpl. rewrite decide_False.
  - apply IH. intros h' Hin. apply H. rewrite fmap_cons. by right.
  - apply H. rewrite fmap_cons. by left.
Qed.

(** *** Reading, then normalizing *)

Lemma read_standards_file_reads read_csv read_excel file df :
  reads_as read_csv read_excel file df →
  read_standards_file read_csv read_excel file = after_read (inr df).
Proof.
  unfold reads_as, read_standards_file.
  intros [[-> ->]|(-> & -> & ->)]; done.
Qed.

(** *** Counting the columns that bear a label *)

Lemma filter_length_two {A : Type} (P : A → Prop) `{!∀ x, Decision (P x)}
  (l : list A) (i j : nat) (x y : A) :
  i ≠ j → l !! i = Some x → l !! j = Some y → P x → P y →
  2 ≤ length (filter P l).
Proof.
  revert i j. induction l as [|a l IH]; intros i j Hij Hi Hj Px Py; [done|].
  assert (Hone : ∀ k z, l !! k = Some z → P z → 1 ≤ length (filter P l)).
  { intros k z Hk Pz.
    assert (Hin : z ∈ filter P l).
    { apply list_elem_of_filter. split; [done|]. by eapply list_elem_of_lookup_2. }
    destruct (filter P l); [by apply elem_of_nil in Hin | simpl; lia]. }
  rewrite filter_cons. destruct i as [|i], j as [|j]; simpl in *.
  - done.
  - injection Hi as ->. rewrite decide_True by done. simpl.
    specialize (Hone j y Hj Py). lia.
  - injection Hj as ->. rewrite decide_True by done. simpl.
    specialize (Hone i x Hi Px). lia.
  - assert (2 ≤ length (filter P l)) by (eapply (IH i j); eauto).
    destruct (decide (P a)); simpl; lia.
Qed.

Lemma filter_label_twice (k t : string) (l : list (string * list cell)) :
  filter (λ c, fst c = t) (filter (λ c, fst c = k) l)
  = if decide (k = t) then filter (λ c, fst c = k) l else [].
Proof.
  induction l as [|c l IH]; [by destruct (decide (k = t))|].
  rewrite (filter_cons (λ c, c.1 = k)).
  destruct (decide (c.1 = k)) as [Hk|Hk]; [|exact IH].
  rewrite filter_cons, IH. destruct (decide (k = t)) as [Hkt|Hkt].
  - rewrite decide_True by congruence. done.
  - rewrite decide_False by congruence. done.
Qed.

Lemma NoDup_labels_once (k : string) (l : list (string * list cell)) :
  NoDup (fst <$> l) → length (filter (λ c, fst c = k) l) ≤ 1.
Proof.
  induction l as [|[h d] l IH]; [simpl; lia|].
  rewrite fmap_cons, NoDup_cons. simpl. intros [Hh Hl].
  rewrite filter_cons. simpl. destruct (decide (h = k)) as [->|]; [|auto].
  assert (E : filter (λ c : string * list cell, c.1 = k) l = []).
  { clear IH Hl. induction l as [|[h' d'] l IH]; [done|].
    rewrite fmap_cons, not_elem_of_cons in Hh. destruct Hh as [Hne Hh].
    rewrite filter_cons. simpl. rewrite decide_False by done. auto. }
  rewrite E. simpl. lia.
Qed.

End NormalizerFacts.

(** ** Response cleanup and rendering *)

Module AnalyzerFacts.
Import PyStr Pandas Json Analyzer StrFacts JsonFacts.
#[local] Arguments String.append : simpl nomatch.

(** *** Cleanup *)

Lemma startswith_fence_json (t : string) :
  startswith t fence_json = true → startswith t fence = true.
Proof.
  intros H. apply startswith_split in H. rewrite H. reflexivity.
Qed.

(** Without a fence at either end, cleanup only strips. *)
Lemma cleanup_plain (r : string) :
  startswith (strip r) fence = false → endswith (strip r) fence = false →
  cleanup r = strip r.
Proof.
  intros Hs He. unfold cleanup.
  destruct (startswith (strip r) fence_json) eqn:Hj.
  - apply startswith_fence_json in Hj. congruence.
  - by rewrite Hs, He, strip_idem.
Qed.

(** A fenced text is cleaned to the stripped text between the fences. *)
Lemma cleanup_fenced (j : string) : cleanup (fenced j) = strip j.
Proof.
  assert (Hstrip : strip (fenced j) = fenced j).
  { unfold strip.
    assert (Hl : lstrip (fenced j) = fenced j) by reflexivity.
    rewrite Hl. unfold fenced.
    rewrite <- !append_assoc. by rewrite rstrip_app_keep. }
  unfold cleanup. rewrite Hstrip. unfold fenced.
  rewrite startswith_app.
  change 7 with (String.length fence_json). rewrite drop_app.
  change (startswith (nl +:+ j +:+ nl +:+ fence) fence) with false.
  cbv iota.
  replace (nl +:+ j +:+ nl +:+ fence) with ((nl +:+ j +:+ nl) +:+ fence)
    by (by rewrite !append_assoc).
  rewrite endswith_app.
  change 3 with (String.length fence). rewrite drop_last_app.
  by apply strip_pad.
Qed.

(** An opening fence alone: the text after it is stripped and kept. *)
Lemma cleanup_opening_json (r rest : string) :
  strip r = fence_json +:+ rest →
  startswith rest fence = false → endswith rest fence = false →
  cleanup r = strip rest.
Proof.
  intros Hr Hs He. unfold cleanup. rewrite Hr, startswith_app.
  change 7 with (String.length fence_json). rewrite drop_app.
  by rewrite Hs, He.
Qed.

Lemma cleanup_opening_plain (r rest : string) :
  strip r = fence +:+ rest →
  startswith rest "json" = false → endswith rest fence = false →
  cleanup r = strip rest.
Proof.
  intros Hr Hs He. unfold cleanup. rewrite Hr.
  assert (Hj : startswith (fence +:+ rest) fence_json = false).
  { unfold startswith in *. simpl in *. exact Hs. }
  rewrite Hj, startswith_app.
  change 3 with (String.length fence). rewrite drop_app.
  by rewrite He.
Qed.

(** A closing fence alone: it is cut off and the text before it kept. *)
Lemma cleanup_closing (r j : string) :
  strip r = j +:+ fence → startswith (j +:+ fence) fence = false →
  cleanup r = strip j.
Proof.
  intros Hr Hs. unfold cleanup. rewrite Hr.
  destruct (startswith (j +:+ fence) fence_json) eqn:Hj.
  - apply startswith_fence_json in Hj. congruence.
  - rewrite Hs, endswith_app.
    change 3 with (String.length fence). by rewrite drop_last_app.
Qed.

(** *** Parsing the cleaned text *)

Lemma parse_response_ok (r : string) (v : json) :
  loads (cleanup r) = inr v → parse_response r = Analysis (Some v) [].
Proof. unfold parse_response. by intros ->. Qed.

Lemma parse_response_error (r : string) (e : error) :
  loads (cleanup r) = inl e → parse_response r = report (str_error e).
Proof. unfold parse_response. by intros ->. Qed.

(** What [loads] raises is a [JSONDecodeError] that carries the text
    it was given. *)
Lemma loads_error_doc (s : string) (e : error) :
  loads s = inl e → ∃ msg pos, e = JSONDecodeError msg s pos.
Proof.
  intros H. pose proof (loads_never_exhausted s) as Hn. revert H Hn.
  unfold loads. destruct (scan_once _ _); [destruct (skip_ws rest)|..];
    intros [= <-]; eauto. done.
Qed.

(** A reply that has arrived is handed to [parse_response]. *)
Lemma analyze_compliance_reply (ask : string → string → string + string)
  (app_content : string) (standards_df : DataFrame) (api_key text reply : string) :
  standards_text standards_df = Some text →
  ask api_key (prompt app_content text) = inr reply →
  analyze_compliance ask app_content standards_df api_key
  = Some (parse_response reply).
Proof. unfold analyze_compliance. intros -> Hr. simpl. by rewrite Hr. Qed.

(** A text that [loads] accepts starts, once its whitespace is skipped,
    with a character that is not inert. *)
Lemma loads_ok_head (s : string) (v : json) :
  loads s = inr v → ∃ d t, skip_ws s = String d t ∧ inert d = false.
Proof.
  intros (r & H & _)%loads_ok_inv.
  destruct (skip_ws s) as [|d t]; [by apply scan_once_nil in H|].
  apply scan_once_head in H. eauto.
Qed.

(** A valid JSON text before a closing fence does not look like an
    opening fence. *)
Lemma valid_then_fence (reply j : string) (v : json) :
  strip reply = j +:+ fence → loads j = inr v →
  startswith (j +:+ fence) fence = false.
Proof.
  intros Hr Hj. destruct (loads_ok_head j v Hj) as (d & t & Hd & Hi).
  destruct j as [|a j']; [done|].
  cbn [String.append] in Hr. apply strip_head in Hr.
  rewrite skip_ws_fixed in Hd by (by apply isspace_false_is_ws).
  injection Hd as <- <-.
  destruct (startswith (String a j' +:+ fence) fence) eqn:E; [exfalso|done].
  apply startswith_split in E. cbn [String.append] in E.
  injection E as -> _. discriminate Hi.
Qed.

(** *** Rendering *)

Lemma render_rows_acc (acc : string) (rows : list (list (string * cell))) :
  render_rows acc rows
  = (λ fs, acc +:+ foldr String.append "" (render <$> fs)) <$> mapM fields rows.
Proof.
  revert acc. induction rows as [|row rows IH]; intros acc; simpl.
  - by rewrite append_nil_r.
  - destruct (fields row) as [f|]; simpl; [|done].
    rewrite IH. destruct (mapM fields rows); simpl; [|done].
    by rewrite append_assoc.
Qed.

(** The block depends on the rows only through their four fields. *)
Lemma standards_text_fields (df : DataFrame) :
  standards_text df
  = (λ fs, foldr String.append "" (render <$> fs)) <$> mapM fields (iterrows df).
Proof. unfold standards_text. by rewrite render_rows_acc. Qed.

Lemma render_cells_of (r : StandardRecord) : render (cells_of r) = record_text r.
Proof.
  unfold render, cells_of, record_text. cbn [str truthy].
  destruct (String.eqb (std_description r) ""); cbn [negb];
    by rewrite !append_assoc.
Qed.

Lemma iterrows_frame_of (records : list StandardRecord) :
  mapM fields (iterrows (frame_of records)) = Some (cells_of <$> records).
Proof.
  unfold iterrows. simpl.
  assert (H : ∀ pre, mapM fields
            ((λ i, row_at i (frame_of (pre ++ records)))
               <$> seq (length pre) (length records))
          = Some (cells_of <$> records)).
  { induction records as [|r rs IH]; intros pre; [done|].
    change (length (r :: rs)) with (S (length rs)).
    rewrite <- cons_seq, !fmap_cons.
    assert (Hrow : fields (row_at (length pre) (frame_of (pre ++ r :: rs)))
                   = Some (cells_of r)).
    { unfold row_at, frame_of. simpl.
      rewrite !fmap_app, !fmap_cons.
      rewrite !app_nth2 by (rewrite length_fmap; lia).
      rewrite !length_fmap, Nat.sub_diag. reflexivity. }
    change (mapM fields (?x :: ?l)) with
      (y ← fields x; k ← mapM fields l; mret (y :: k)).
    rewrite Hrow. simpl.
    specialize (IH (pre ++ [r])).
    rewrite <- app_assoc in IH. simpl in IH.
    rewrite length_app in IH. simpl in IH.
    replace (length pre + 1) with (S (length pre)) in IH by lia.
    by rewrite IH. }
  apply (H []).
Qed.

(** *** The example scenario *)

(** One standard, the document text and the stub reply: the findings are
    one object holding the six fields verbatim, in the order of the
    reply, and nothing is reported. *)
Example stub_reply_parsed :
  analyze_compliance (Samples.replies Samples.stub_reply)
    "We require two-factor login." (frame_of [Samples.mfa]) "key"
  = Some (Analysis
            (Some (JArr [JObj [(codes "standardId", JStr (codes "A1"));
                               (codes "category", JStr (codes "Security"));
                               (codes "requirement", JStr (codes "Use MFA"));
                               (codes "status", JStr (codes "Compliant"));
                               (codes "finding", JStr (codes "Document mentions 2FA"));
                               (codes "recommendation", JStr (codes "None"))]]))
            []).
Proof. vm_compute. reflexivity. Qed.

End AnalyzerFacts.

(** ** The layout of a normalized frame *)

Module LayoutFacts.
Import PyStr Pandas Normalizer Layout StrFacts NormalizerFacts.

Lemma elem_of_mapped_to (t k : string) (d : list cell) (df : DataFrame) :
  (t, d) ∈ mapped_to k df ↔ t = k ∧ ∃ h, (h, d) ∈ cols df ∧ resolve h = Some k.
Proof.
  unfold mapped_to. rewrite list_elem_of_fmap. split.
  - intros ([h d'] & E & Hin). simpl in E. injection E as -> ->.
    apply list_elem_of_filter in Hin as [Hr Hin]. simpl in Hr.
    split; [done|]. by exists h.
  - intros (-> & h & Hin & Hr). exists (h, d). split; [done|].
    apply list_elem_of_filter. by split.
Qed.

Lemma elem_of_columns_cols (h : string) (df : DataFrame) :
  h ∈ columns df ↔ ∃ d, (h, d) ∈ cols df.
Proof.
  unfold columns. rewrite list_elem_of_fmap. split.
  - intros ([h' d] & -> & Hin). by exists d.
  - intros (d & Hin). by exists (h, d).
Qed.

Lemma mapped_to_nil_inv (t : string) (df : DataFrame) :
  mapped_to t df = [] → ∀ h, h ∈ columns df → resolve h ≠ Some t.
Proof.
  intros E h Hin Hr. by apply (mapped_to_non_nil t h df Hin Hr).
Qed.

Lemma elem_of_description_columns (t : string) (d : list cell) (df : DataFrame) :
  (t, d) ∈ description_columns df ↔
    t = "Description"
    ∧ ((∃ h, (h, d) ∈ cols df ∧ resolve h = Some "Description")
       ∨ (d = replicate (nrows df) (CStr "")
          ∧ ∀ h, h ∈ columns df → resolve h ≠ Some "Description")).
Proof.
  unfold description_columns.
  destruct (mapped_to "Description" df) as [|c l] eqn:E.
  - rewrite list_elem_of_singleton. split.
    + intros [= -> ->]. split; [done|]. right. split; [done|].
      by apply mapped_to_nil_inv.
    + intros (-> & [(h & Hin & Hr)|[-> _]]); [|done].
      exfalso. apply (mapped_to_nil_inv _ _ E h); [|done].
      apply elem_of_columns_cols. by exists d.
  - rewrite <- E, elem_of_mapped_to. split.
    + intros [-> H]. split; [done|]. by left.
    + intros (-> & [H|[_ Hnone]]); [done|].
      exfalso. rewrite (mapped_to_nil _ _ Hnone) in E. done.
Qed.

Lemma mapped_to_columns (t : string) (df : DataFrame) :
  (mapped_to t df).*1 = replicate (resolved_count t df) t.
Proof.
  unfold mapped_to, resolved_count, columns.
  induction (cols df) as [|[h d] l IH]; [done|].
  rewrite fmap_cons, !filter_cons. simpl.
  destruct (decide (resolve h = Some t));
    [rewrite !fmap_cons; simpl; f_equal|]; exact IH.
Qed.

Lemma mapped_to_length (t : string) (df : DataFrame) :
  length (mapped_to t df) = resolved_count t df.
Proof.
  rewrite <- (length_fmap fst), mapped_to_columns. apply length_replicate.
Qed.

Lemma description_columns_columns (df : DataFrame) :
  (description_columns df).*1
  = replicate (resolved_count "Description" df `max` 1) "Description".
Proof.
  unfold description_columns.
  pose proof (mapped_to_length "Description" df) as Hl.
  pose proof (mapped_to_columns "Description" df) as Hc.
  destruct (mapped_to "Description" df) as [|c l]; simpl in *.
  - by rewrite <- Hl.
  - rewrite Hc, <- Hl. by rewrite Nat.max_l by lia.
Qed.

(** The labels of a normalized frame resolve to themselves. *)
Lemma resolve_canonical (k : string) : k ∈ canonical → resolve k = Some k.
Proof.
  intros Hk. apply resolve_of_canonical; [done|].
  unfold canonical in Hk.
  repeat (apply elem_of_cons in Hk as [->|Hk]; [reflexivity|]).
  by apply elem_of_nil in Hk.
Qed.

Lemma mapped_to_canonical_labels (k : string) (l : list (string * list cell)) (n : nat) :
  Forall (λ c, c.1 ∈ canonical) l →
  mapped_to k (Frame n l) = columns_labelled k (Frame n l).
Proof.
  unfold mapped_to, columns_labelled. simpl.
  induction 1 as [|[h d] l Hh Hl IH]; [done|].
  rewrite !filter_cons. simpl in *.
  rewrite (resolve_canonical h Hh).
  destruct (decide (Some h = Some k)) as [E|E], (decide (h = k)) as [E'|E'];
    simplify_eq; [|done]. rewrite fmap_cons. simpl. by rewrite IH.
Qed.

Lemma normalized_labels_canonical (df : DataFrame) :
  Forall (λ c, c.1 ∈ canonical) (cols (normalized df)).
Proof.
  apply Forall_forall. intros [t d] Hin. simpl.
  unfold normalized in Hin. simpl in Hin.
  rewrite !elem_of_app, !elem_of_mapped_to, elem_of_description_columns in Hin.
  destruct Hin as [[-> _]|[[-> _]|[[-> _]|[-> _]]]];
    auto using canonical_id, canonical_category, canonical_requirement,
      canonical_description.
Qed.

End LayoutFacts.

(** ** Parts of a reply and first characters *)

Module ReplyFacts.
Import PyStr Pandas Json Analyzer Replies StrFacts JsonFacts AnalyzerFacts.
#[local] Arguments String.append : simpl nomatch.

(** *** Parts of a text *)

Lemma part_of_refl (s : string) : part_of s s.
Proof. exists "", "". by rewrite append_nil_r. Qed.

Lemma part_of_trans (x y z : string) : part_of x y → part_of y z → part_of x z.
Proof.
  intros (a & b & ->) (c & d & ->). exists (c +:+ a), (b +:+ d).
  by rewrite !append_assoc.
Qed.

Lemma part_of_length (x s : string) :
  part_of x s → String.length x ≤ String.length s.
Proof. intros (a & b & ->). rewrite !append_length. lia. Qed.

Lemma part_of_lstrip (s : string) : part_of (lstrip s) s.
Proof.
  destruct (lstrip_split s) as (w & _ & E). exists w, "".
  by rewrite append_nil_r.
Qed.

Lemma part_of_rstrip (s : string) : part_of (rstrip s) s.
Proof. destruct (rstrip_split s) as (w & _ & E). by exists "", w. Qed.

Lemma part_of_strip (s : string) : part_of (strip s) s.
Proof.
  unfold strip. eapply part_of_trans; [apply part_of_rstrip|apply part_of_lstrip].
Qed.

Lemma part_of_drop (n : nat) (s : string) : part_of (drop n s) s.
Proof.
  exists (take n s), "". by rewrite append_nil_r, drop_take.
Qed.

Lemma part_of_take (n : nat) (s : string) : part_of (take n s) s.
Proof. exists "", (drop n s). simpl. by rewrite drop_take. Qed.

Lemma contains_prefix (x b : string) : String.prefix x (x +:+ b) = true.
Proof. apply (startswith_app x b). Qed.

Lemma contains_head (x s : string) :
  String.prefix x s = true → contains x s = true.
Proof. intros H. destruct s; cbn [contains]; by rewrite H. Qed.

Lemma contains_part_of (x s : string) : contains x s = true ↔ part_of x s.
Proof.
  split.
  - induction s as [|c s IH]; simpl.
    + rewrite orb_false_r. intros H. apply (startswith_split "" x) in H.
      exists "", (drop (String.length x) ""). by simpl.
    + intros [H|H]%orb_true_iff.
      * apply (startswith_split (String c s) x) in H.
        exists "", (drop (String.length x) (String c s)). by simpl.
      * destruct (IH H) as (a & b & ->). by exists (String c a), b.
  - intros (a & b & ->). induction a as [|c a IH].
    + cbn [String.append]. apply contains_head, contains_prefix.
    + simpl. simpl in IH. rewrite IH. apply orb_true_r.
Qed.

(** *** Stripping on both sides *)

Lemma lstrip_rstrip (s : string) : lstrip (rstrip s) = rstrip (lstrip s).
Proof.
  induction s as [|c s IH]; [done|].
  destruct (isspace c) eqn:Hc.
  - change (lstrip (String c s)) with (if isspace c then lstrip s else String c s).
    rewrite Hc, <- IH. simpl.
    destruct (rstrip s) eqn:E; simpl; by rewrite Hc.
  - rewrite (lstrip_first c s Hc).
    destruct (rstrip_keeps_head c s Hc) as (t' & ->).
    by apply lstrip_first.
Qed.

Lemma lstrip_app_solid (x : string) (c : ascii) (y : string) :
  isspace c = false → lstrip (x +:+ String c y) = lstrip x +:+ String c y.
Proof.
  intros Hc. induction x as [|a x IH]; simpl.
  - by rewrite Hc.
  - by destruct (isspace a).
Qed.

Lemma strip_app_solid (c : ascii) (p j : string) :
  isspace c = false → rstrip j ≠ "" →
  strip (String c p +:+ j) = String c p +:+ rstrip j.
Proof.
  intros Hc Hj. unfold strip. cbn [String.append].
  rewrite lstrip_first by done.
  change (String c (p +:+ j)) with (String c p +:+ j).
  by apply rstrip_app_keep.
Qed.

Lemma strip_rstrip (s : string) : strip (rstrip s) = strip s.
Proof.
  unfold strip. by rewrite <- !lstrip_rstrip, rstrip_idem.
Qed.

Lemma endswith_fence_lstrip (s : string) :
  endswith s fence = true → endswith (lstrip s) fence = true.
Proof.
  intros H. apply endswith_split in H. rewrite H.
  change fence with (String "`" "``").
  rewrite lstrip_app_solid by reflexivity. apply endswith_app.
Qed.

(** *** The first character of a term *)

Lemma scan_once_non_value (f : nat) (d : ascii) (t : string) :
  value_start d = false → scan_once (S f) (String d t) = Stop (String d t).
Proof.
  intros H.
  destruct d as [[] [] [] [] [] [] [] []];
    first [discriminate H | vm_compute; reflexivity].
Qed.

Lemma scan_once_value_start (f : nat) (d : ascii) (t : string) (v : json)
  (r : string) :
  scan_once f (String d t) = Ok v r → value_start d = true.
Proof.
  intros H. destruct (value_start d) eqn:E; [done|].
  destruct f; [done|]. by rewrite scan_once_non_value in H.
Qed.

Lemma str_error_start (msg doc : string) :
  str_error (JSONDecodeError msg doc 0) = msg +:+ ": line 1 column 1 (char 0)".
Proof. destruct doc; reflexivity. Qed.

Lemma loads_non_value (d : ascii) (t : string) :
  isspace d = false → value_start d = false →
  loads (String d t)
  = inl (JSONDecodeError "Expecting value" (String d t) 0).
Proof.
  intros Hs Hv. unfold loads.
  rewrite skip_ws_fixed by (by apply isspace_false_is_ws).
  assert (Hf : ∃ f, fuel_for (String d t) = S f)
    by (unfold fuel_for; simpl; eauto).
  destruct Hf as [f ->]. rewrite scan_once_non_value by done.
  unfold index_of. by rewrite Nat.sub_diag.
Qed.

Lemma loads_nil : loads "" = inl (JSONDecodeError "Expecting value" "" 0).
Proof. reflexivity. Qed.

(** The first character of a text that [loads] accepts, and of the text
    once right-stripped. *)
Lemma loads_ok_first (j : string) (v : json) :
  loads j = inr v →
  ∃ c t, j = String c t ∧ (isspace c = true ∨ value_start c = true).
Proof.
  intros H. apply loads_ok_inv in H as (r & H & _).
  destruct j as [|c t]; [by apply scan_once_nil in H|].
  exists c, t. split; [done|].
  destruct (is_ws c) eqn:E.
  - left. by apply is_ws_isspace.
  - right. rewrite skip_ws_fixed in H by done.
    by eapply scan_once_value_start.
Qed.

Lemma loads_ok_rstrip_first (j : string) (v : json) :
  loads j = inr v →
  ∃ c t, rstrip j = String c t ∧ (isspace c = true ∨ value_start c = true).
Proof.
  intros H. destruct (loads_ok_first j v H) as (c & t & -> & Hc).
  destruct (rstrip (String c t)) as [|c' t'] eqn:E.
  - exfalso. apply loads_strip in H. unfold strip in H.
    rewrite <- lstrip_rstrip, E in H. discriminate H.
  - destruct (rstrip_lstrip_head _ _ _ E) as [t'' [= <- _]]. eauto.
Qed.

Lemma loads_ok_rstrip_no_fence (j : string) (v : json) :
  loads j = inr v →
  startswith (rstrip j) fence = false ∧ startswith (rstrip j) "json" = false
  ∧ endswith (rstrip j) fence = false ∧ rstrip j ≠ "".
Proof.
  intros H. destruct (loads_ok_rstrip_first j v H) as (c & t & E & Hc).
  rewrite E. repeat split.
  - destruct (startswith (String c t) fence) eqn:Hs; [exfalso|done].
    apply startswith_split in Hs. injection Hs as -> _.
    by destruct Hc.
  - destruct (startswith (String c t) "json") eqn:Hs; [exfalso|done].
    apply startswith_split in Hs. injection Hs as -> _.
    by destruct Hc.
  - destruct (endswith (String c t) fence) eqn:He; [exfalso|done].
    rewrite <- E in He. apply endswith_fence_lstrip in He.
    rewrite lstrip_rstrip in He.
    destruct (loads_ok_no_fence j v H) as [_ Hn].
    unfold strip, fence in *. congruence.
  - done.
Qed.

End ReplyFacts.

(** ** Text after a term *)

Module TailFacts.
Import PyStr Pandas Json Analyzer Replies Tails StrFacts JsonFacts AnalyzerFacts ReplyFacts.
#[local] Arguments String.append : simpl nomatch.

(** *** Numbers *)

Lemma span_digits_app (s t : string) :
  snd (span_digits s) ≠ "" →
  span_digits (s +:+ t) = (fst (span_digits s), snd (span_digits s) +:+ t).
Proof.
  induction s as [|a s IH]; [done|]. cbn [span_digits String.append].
  destruct (isdigit a); [|done].
  destruct (span_digits s) as [d r] eqn:E. simpl. intros Hr.
  by rewrite IH.
Qed.

Lemma int_part_app (s t d r : string) :
  int_part s = Some (d, r) → r ≠ "" → int_part (s +:+ t) = Some (d, r +:+ t).
Proof.
  destruct s as [|a s]; [done|]. cbn [int_part String.append].
  destruct (a =? "0")%char; [by intros [= <- <-]|].
  destruct (isdigit a); [|done].
  destruct (span_digits s) as [d' r'] eqn:E. intros [= <- <-] Hr.
  rewrite span_digits_app; rewrite E; done.
Qed.

Lemma frac_part_app (r t f r1 : string) :
  frac_part r = (f, r1) → r1 ≠ "" →
  (f = "" → ∃ c r', r = String c r' ∧ (c =? ".")%char = false) →
  frac_part (r +:+ t) = (f, r1 +:+ t).
Proof.
  destruct r as [|dot [|d s2]]; cbn [frac_part String.append].
  - by intros [= <- <-].
  - intros [= <- <-] _ H. destruct (H eq_refl) as (c & r' & [= <- <-] & Hc).
    rewrite Hc. simpl. by destruct t.
  - destruct ((dot =? ".")%char && isdigit d); [|by intros [= <- <-]].
    destruct (span_digits s2) as [f' r'] eqn:E. intros [= <- <-] Hr _.
    rewrite span_digits_app; rewrite E; done.
Qed.

Lemma exp_part_app (r1 t e r2 : string) :
  exp_part r1 = (e, r2) → closed r2 = true →
  exp_part (r1 +:+ t) = (e, r2 +:+ t).
Proof.
  destruct r1 as [|e0 s1]; cbn [exp_part String.append].
  { by intros [= <- <-]. }
  destruct ((e0 =? "e") || (e0 =? "E"))%char eqn:He; [|by intros [= <- <-]].
  assert (Hopen : closed (String e0 s1) = false).
  { simpl. apply negb_false_iff.
    apply orb_true_iff in He as [-> | ->]; by rewrite ?orb_true_r. }
  destruct s1 as [|g s2]; cbn [String.append].
  { simpl. intros [= <- <-]. congruence. }
  destruct ((g =? "+") || (g =? "-"))%char.
  - destruct (span_digits s2) as [ds r] eqn:E.
    destruct ds as [|x ds]; [intros [= <- <-]; congruence|].
    intros [= <- <-] Hc. rewrite span_digits_app; rewrite E; simpl; [done|].
    by destruct r.
  - destruct (span_digits (String g s2)) as [ds r] eqn:E.
    destruct ds as [|x ds]; [intros [= <- <-]; congruence|].
    intros [= <- <-] Hc.
    change (String g (s2 +:+ t)) with (String g s2 +:+ t).
    rewrite span_digits_app; rewrite E; simpl; [done|].
    by destruct r.
Qed.

Lemma closed_non_nil (r : string) : closed r = true → r ≠ "".
Proof. by destruct r. Qed.

Lemma exp_part_rest (r1 e r2 : string) :
  exp_part r1 = (e, r2) → closed r2 = true →
  ∃ c r', r1 = String c r' ∧ (c =? ".")%char = false.
Proof.
  destruct r1 as [|c s1]; cbn [exp_part]; [by intros [= <- <-]|].
  intros H Hc. exists c, s1. split; [done|].
  destruct ((c =? "e") || (c =? "E"))%char eqn:He.
  - apply orb_true_iff in He as [-> %Ascii.eqb_eq| -> %Ascii.eqb_eq]; done.
  - injection H as <- <-. simpl in Hc.
    apply negb_true_iff in Hc.
    by repeat (apply orb_false_iff in Hc as [Hc ?]).
Qed.

Lemma match_number_app (s t : string) (v : json) (r : string) :
  match_number s = Ok v r → closed r = true →
  match_number (s +:+ t) = Ok v (r +:+ t).
Proof.
  unfold match_number. intros H Hc.
  assert (Hstep : ∀ s0 ds r0 frac r1 exp r2,
            int_part s0 = Some (ds, r0) → frac_part r0 = (frac, r1) →
            exp_part r1 = (exp, r2) → closed r2 = true →
            int_part (s0 +:+ t) = Some (ds, r0 +:+ t)
            ∧ frac_part (r0 +:+ t) = (frac, r1 +:+ t)
            ∧ exp_part (r1 +:+ t) = (exp, r2 +:+ t)).
  { intros s0 ds r0 frac r1 exp r2 Hi Hf He Hc2.
    pose proof (exp_part_rest _ _ _ He Hc2) as (c1 & r1' & E1 & Hdot).
    assert (Hr1 : r1 ≠ "") by (by rewrite E1).
    assert (Hr0 : r0 ≠ "").
    { intros ->. simpl in Hf. by injection Hf as <- <-. }
    split_and!.
    - by apply int_part_app.
    - apply frac_part_app; [done|done|]. intros ->.
      assert (r0 = r1) as ->; [|by eauto].
      destruct r0 as [|dot [|d s2]]; simpl in Hf; try by injection Hf.
      destruct ((dot =? ".")%char && isdigit d); [|by injection Hf].
      by destruct (span_digits s2).
    - by apply exp_part_app. }
  destruct s as [|c s']; [done|]. cbn [String.append].
  destruct (c =? "-")%char.
  - destruct (int_part s') as [[ds r0]|] eqn:Hi; [|done].
    destruct (frac_part r0) as [frac r1] eqn:Hf.
    destruct (exp_part r1) as [exp r2] eqn:He.
    assert (r = r2) as -> by (by destruct frac, exp; injection H).
    destruct (Hstep s' ds r0 frac r1 exp r2 Hi Hf He Hc) as (-> & -> & ->).
    by destruct frac, exp; injection H as <-.
  - change (String c (s' +:+ t)) with (String c s' +:+ t).
    destruct (int_part (String c s')) as [[ds r0]|] eqn:Hi; [|done].
    destruct (frac_part r0) as [frac r1] eqn:Hf.
    destruct (exp_part r1) as [exp r2] eqn:He.
    assert (r = r2) as -> by (by destruct frac, exp; injection H).
    destruct (Hstep _ ds r0 frac r1 exp r2 Hi Hf He Hc) as (-> & -> & ->).
    by destruct frac, exp; injection H as <-.
Qed.

(** *** Named constants *)

Lemma prefix_app_true (l s t : string) :
  String.prefix l s = true → String.prefix l (s +:+ t) = true.
Proof.
  intros H. apply (startswith_split s l) in H. rewrite H, append_assoc.
  apply (startswith_app l).
Qed.

Lemma prefix_head_diff (b a : ascii) (l x : string) :
  b ≠ a → String.prefix (String b l) (String a x) = false.
Proof. intros H. simpl. by destruct (ascii_dec b a). Qed.

Lemma prefix_head (b a : ascii) (l x : string) :
  String.prefix (String b l) (String a x) = true → a = b.
Proof. simpl. by destruct (ascii_dec b a). Qed.

Lemma literal_hit (l : string) (w : json) (ls : list (string * json)) (s t : string) :
  String.prefix l s = true →
  match_literal ((l, w) :: ls) (s +:+ t) = Ok w (drop (String.length l) s +:+ t).
Proof.
  intros H. cbn [match_literal]. by rewrite prefix_app_true, drop_snoc.
Qed.

Lemma literal_miss (b : ascii) (l : string) (w : json) (ls : list (string * json))
  (a : ascii) (x : string) :
  b ≠ a →
  match_literal ((String b l, w) :: ls) (String a x) = match_literal ls (String a x).
Proof. intros H. cbn [match_literal]. by rewrite prefix_head_diff. Qed.

Lemma match_number_head (s : string) (v : json) (r : string) :
  match_number s = Ok v r →
  number v = true
  ∧ ∃ a s', s = String a s'
      ∧ (isdigit a = true
         ∨ (a = "-"%char ∧ ∃ b s'', s' = String b s'' ∧ isdigit b = true)).
Proof.
  unfold match_number.
  assert (Hd : ∀ x d r0, int_part x = Some (d, r0) →
                         ∃ b x', x = String b x' ∧ isdigit b = true).
  { intros [|b x'] d r0; [done|]. simpl.
    destruct (b =? "0")%char eqn:E.
    - apply Ascii.eqb_eq in E as ->. intros _. by exists "0"%char, x'.
    - destruct (isdigit b) eqn:Hb; [|done]. intros _. by exists b, x'. }
  destruct s as [|c s']; [done|].
  destruct (c =? "-")%char eqn:Ec.
  - apply Ascii.eqb_eq in Ec as ->.
    destruct (int_part s') as [[ds r0]|] eqn:Hi; [|done].
    destruct (frac_part r0) as [frac r1], (exp_part r1) as [exp r2].
    intros H. split; [by destruct frac, exp; injection H as <-|].
    destruct (Hd _ _ _ Hi) as (b & x' & -> & Hb). eauto 10.
  - destruct (int_part (String c s')) as [[ds r0]|] eqn:Hi; [|done].
    destruct (frac_part r0) as [frac r1], (exp_part r1) as [exp r2].
    intros H. split; [by destruct frac, exp; injection H as <-|].
    destruct (Hd _ _ _ Hi) as (b & x' & [= <- <-] & Hb). eauto 10.
Qed.

Lemma match_literal_app (s t : string) (v : json) (r : string) :
  match_literal literals s = Ok v r → settled v r = true →
  match_literal literals (s +:+ t) = Ok v (r +:+ t).
Proof.
  destruct s as [|a s']; [done|]. unfold literals.
  intros H Hs.
  cbn [match_literal] in H.
  repeat match type of H with
  | (if String.prefix ?l ?x then _ else _) = _ =>
      destruct (String.prefix l x) eqn:?; [injection H as <- <-|]
  end.
  all: try match goal with
       | E : String.prefix _ (String ?a _) = true |- _ =>
           pose proof (prefix_head _ _ _ _ E); subst a
       end.
  all: cbn [String.append].
  all: try (rewrite ?literal_miss by discriminate;
            change (String ?a (s' +:+ t)) with (String a s' +:+ t);
            by apply literal_hit).
  destruct (match_number_head _ _ _ H) as (Hn & a' & s'' & [= <- <-] & Ha).
  unfold settled in Hs. rewrite Hn in Hs. simpl in Hs.
  destruct Ha as [Ha|(-> & b & x & -> & Hb)].
  - rewrite !literal_miss by (intros <-; discriminate Ha).
    cbn [match_literal].
    change (String a (s' +:+ t)) with (String a s' +:+ t).
    by apply match_number_app.
  - rewrite !literal_miss by discriminate.
    cbn [match_literal String.append].
    change (String.prefix "-Infinity" (String "-" (String b (x +:+ t))))
      with (String.prefix "Infinity" (String b (x +:+ t))).
    rewrite prefix_head_diff by (intros <-; discriminate Hb).
    change (String "-" (String b (x +:+ t))) with (String "-" (String b x) +:+ t).
    by apply match_number_app.
Qed.

(** *** Strings *)

(** One step along the evaluation of a scan that succeeded. *)
Ltac follow H :=
  match type of H with
  | (match ?x with _ => _ end) = _ =>
      destruct x eqn:?; cbn [String.append] in *; try discriminate H
  end.

Lemma short_not_pair (b : ascii) (rest o : string) (cs : list N) (r0 : string) :
  scanstring (String b rest) o = Ok cs r0 → String.length rest ≤ 5 →
  (b =? BS)%char = false
  ∨ ∃ v rest', rest = String v rest' ∧ (v =? "u")%char = false.
Proof.
  intros H Hlen. destruct (b =? BS)%char eqn:Hb; [right|by left].
  cbn [scanstring] in H.
  destruct (b =? DQ)%char eqn:Hq.
  { apply Ascii.eqb_eq in Hb, Hq. subst. discriminate. }
  rewrite Hb in H. destruct rest as [|v rest']; [discriminate|].
  exists v, rest'. split; [done|]. destruct (v =? "u")%char; [|done].
  exfalso.
  destruct rest' as [|h1 [|h2 [|h3 [|h4 [|h5 r']]]]]; try discriminate H.
  simpl in Hlen. lia.
Qed.

Lemma scanstring_app_aux (n : nat) :
  ∀ s o o' cs r t,
    scanstring s o = Ok cs r → String.length s ≤ n →
    scanstring (s +:+ t) o' = Ok cs (r +:+ t).
Proof.
  induction n as [|n IH]; intros s o o' cs r t H Hn.
  - destruct s; [done|simpl in Hn; lia].
  - destruct s as [|a s1]; [done|].
    cbn [scanstring String.append] in H |- *.
    repeat follow H.
    all: try (injection H as <- <-; reflexivity).
    all: apply scan_map_ok in H as (? & H & ->).
    all: match goal with
         | H : scanstring ?Y _ = Ok _ _ |- _ =>
             pose proof (IH Y o o' _ _ t H
                           ltac:(cbn [String.length] in *; lia)) as HD;
             cbn [String.append] in HD
         end.
    all: try (rewrite HD; reflexivity).
    all: match goal with
         | H : scanstring (String ?b ?rest) _ = Ok _ _ |- _ =>
             destruct (short_not_pair b rest _ _ _ H ltac:(simpl; lia))
               as [Hb|(v & rest' & Hrest & Hv)];
             [|first [discriminate Hrest | injection Hrest as <- <-]]
         end.
    all: repeat match goal with
           | |- (match ?t with "" => _ | String _ _ => _ end) = _ =>
               destruct t; cbn [String.append] in *
           end.
    all: rewrite ?Hb, ?Hv, ?andb_false_r; cbn [andb].
    all: rewrite HD; reflexivity.
Qed.

Lemma scanstring_app (s o o' : string) (cs : list N) (r t : string) :
  scanstring s o = Ok cs r → scanstring (s +:+ t) o' = Ok cs (r +:+ t).
Proof. intros H. by eapply scanstring_app_aux. Qed.

(** *** Terms *)

Lemma skip_ws_app (r t : string) :
  skip_ws r ≠ "" → skip_ws (r +:+ t) = skip_ws r +:+ t.
Proof.
  induction r as [|c r IH]; [done|]. cbn [skip_ws String.append].
  by destruct (is_ws c).
Qed.

Lemma skip_ws_app_cons (r t : string) (d : ascii) (r' : string) :
  skip_ws r = String d r' → skip_ws (r +:+ t) = String d (r' +:+ t).
Proof. intros H. rewrite skip_ws_app; rewrite H; done. Qed.

Lemma is_ws_closed (c : ascii) (r : string) : is_ws c = true → closed (String c r) = true.
Proof.
  unfold is_ws. intros H.
  repeat (apply orb_true_iff in H as [H|H]);
    apply Ascii.eqb_eq in H as ->; reflexivity.
Qed.

Lemma skip_ws_closed (r : string) (d : ascii) (r' : string) :
  skip_ws r = String d r' →
  ((d =? "]") || (d =? ",") || (d =? "}"))%char = true →
  closed r = true.
Proof.
  destruct r as [|c r0]; [done|]. cbn [skip_ws].
  destruct (is_ws c) eqn:Hw; [intros _ _; by apply is_ws_closed|].
  intros [= -> ->] H.
  repeat (apply orb_true_iff in H as [H|H]);
    apply Ascii.eqb_eq in H as ->; reflexivity.
Qed.

Lemma settled_closed (v : json) (r : string) : closed r = true → settled v r = true.
Proof. unfold settled. intros ->. apply orb_true_r. Qed.

Lemma scan_app (f : nat) (t : string) :
  (∀ s v r, scan_once f s = Ok v r → settled v r = true →
            scan_once f (s +:+ t) = Ok v (r +:+ t))
  ∧ (∀ s acc v r, parse_items f s acc = Ok v r →
                  parse_items f (s +:+ t) acc = Ok v (r +:+ t))
  ∧ (∀ s acc v r, parse_members f s acc = Ok v r →
                  parse_members f (s +:+ t) acc = Ok v (r +:+ t)).
Proof.
  induction f as [|f (IHs & IHi & IHm)]; [by split_and!|].
  split_and!.
  - intros [|c s1] v r H Hs; [done|]. cbn [String.append].
    rewrite scan_once_unfold in H |- *.
    destruct (c =? DQ)%char.
    { apply scan_map_ok in H as (cs & H & ->).
      by rewrite (scanstring_app _ _ (String c (s1 +:+ t)) _ _ t H). }
    destruct (c =? "{")%char.
    { destruct (skip_ws s1) as [|d r1] eqn:E;
        [by apply parse_members_nil in H|].
      rewrite (skip_ws_app_cons _ t _ _ E).
      destruct (d =? "}")%char; [by injection H as <- <-|].
      by apply (IHm (String d r1)). }
    destruct (c =? "[")%char.
    { destruct (skip_ws s1) as [|d r1] eqn:E;
        [by apply parse_items_nil in H|].
      rewrite (skip_ws_app_cons _ t _ _ E).
      destruct (d =? "]")%char; [by injection H as <- <-|].
      by apply (IHi (String d r1)). }
    by apply (match_literal_app (String c s1)).
  - intros s acc v r H. rewrite parse_items_unfold in H |- *.
    destruct (scan_once f s) as [v0 r0| | |] eqn:E0; [|done..].
    destruct (skip_ws r0) as [|d r2] eqn:Ew; [done|].
    assert (Hc : closed r0 = true).
    { apply (skip_ws_closed _ _ _ Ew).
      destruct (d =? "]")%char; [done|]. by destruct (d =? ",")%char. }
    rewrite (IHs _ _ _ E0 (settled_closed _ _ Hc)).
    rewrite (skip_ws_app_cons _ t _ _ Ew).
    destruct (d =? "]")%char; [by injection H as <- <-|].
    destruct (d =? ",")%char; [|done].
    destruct (skip_ws r2) as [|d' r3] eqn:E2; [by apply parse_items_nil in H|].
    rewrite (skip_ws_app_cons _ t _ _ E2). by apply (IHi (String d' r3)).
  - intros [|q s1] acc v r H; [done|]. cbn [String.append].
    rewrite parse_members_unfold in H |- *.
    destruct (negb (q =? DQ)%char); [done|].
    destruct (scanstring s1 (String q s1)) as [key r0| | |] eqn:Ek; [|done..].
    rewrite (scanstring_app _ _ (String q (s1 +:+ t)) _ _ t Ek).
    destruct (skip_ws r0) as [|colon r2] eqn:Ew; [done|].
    rewrite (skip_ws_app_cons _ t _ _ Ew).
    destruct (negb (colon =? ":")%char); [done|].
    destruct (skip_ws r2) as [|d2 r3] eqn:E2.
    { destruct (scan_once f "") eqn:E; [by apply scan_once_nil in E|done..]. }
    rewrite (skip_ws_app_cons _ t _ _ E2).
    destruct (scan_once f (String d2 r3)) as [v0 r4| | |] eqn:E0; [|done..].
    destruct (skip_ws r4) as [|d r6] eqn:E4; [done|].
    assert (Hc : closed r4 = true).
    { apply (skip_ws_closed _ _ _ E4).
      destruct (d =? "}")%char; [by rewrite orb_true_r|].
      destruct (d =? ",")%char; [by rewrite orb_true_r|done]. }
    pose proof (IHs (String d2 r3) _ _ E0 (settled_closed _ _ Hc)) as Hx.
    cbn [String.append] in Hx. rewrite Hx.
    rewrite (skip_ws_app_cons _ t _ _ E4).
    destruct (d =? "}")%char; [by injection H as <- <-|].
    destruct (d =? ",")%char; [|done].
    destruct (skip_ws r6) as [|d' r7] eqn:E6; [by apply parse_members_nil in H|].
    rewrite (skip_ws_app_cons _ t _ _ E6). by apply (IHm (String d' r7)).
Qed.

(** *** [loads] *)

Lemma skip_ws_app_blank (r t : string) :
  skip_ws r = "" → skip_ws (r +:+ t) = skip_ws t.
Proof.
  induction r as [|c r IH]; [done|]. cbn [skip_ws String.append].
  by destruct (is_ws c).
Qed.

(** A term other than a number, followed by text that is not blank:
    the decoder stops after the term and reports what follows. *)
Lemma loads_extra_data (j prose : string) (v : json) :
  loads j = inr v → number v = false → skip_ws prose ≠ "" →
  loads (j +:+ prose)
  = inl (JSONDecodeError "Extra data" (j +:+ prose)
           (String.length (j +:+ prose) - String.length (skip_ws prose))).
Proof.
  intros H Hn Hp. apply loads_ok_inv in H as (r & H & Hr).
  assert (Hj : skip_ws j ≠ "").
  { intros E. rewrite E in H. by apply scan_once_nil in H. }
  unfold loads. rewrite (skip_ws_app _ _ Hj).
  assert (Hf : scan_once (fuel_for (j +:+ prose)) (skip_ws j) = Ok v r).
  { rewrite <- H. pose proof (skip_ws_length j).
    apply fuel_irrelevant; unfold fuel_for; rewrite ?append_length; lia. }
  destruct (scan_app (fuel_for (j +:+ prose)) prose) as (Hs & _ & _).
  rewrite (Hs _ _ _ Hf); [|unfold settled; by rewrite Hn].
  rewrite (skip_ws_app_blank _ _ Hr).
  by destruct (skip_ws prose).
Qed.

End TailFacts.

(** ** From the normalizer to the analyzer *)

Module PipelineFacts.
Import PyStr Pandas Normalizer Analyzer Layout StrFacts NormalizerFacts LayoutFacts AnalyzerFacts.

Lemma mapM_fmap_Some {A B C : Type} (f : B → option C) (g : A → B) (h : A → C)
  (l : list A) :
  (∀ x, f (g x) = Some (h x)) → mapM f (g <$> l) = Some (h <$> l).
Proof.
  intros H. induction l as [|x l IH]; [done|].
  rewrite !fmap_cons.
  change (mapM f (?x :: ?l)) with (y ← f x; k ← mapM f l; mret (y :: k)).
  by rewrite H, IH.
Qed.

Lemma singleton_of_length {A : Type} (l : list A) :
  l ≠ [] → length l ≤ 1 → ∃ x, l = [x].
Proof. destruct l as [|x [|y l]]; simpl; [done|eauto|lia]. Qed.

Lemma mapped_to_singleton (k : string) (df : DataFrame) :
  mapped_to k df ≠ [] → length (mapped_to k df) ≤ 1 →
  ∃ d, mapped_to k df = [(k, d)].
Proof.
  intros Hn Hl. destruct (singleton_of_length _ Hn Hl) as [[t d] E].
  assert (Ht : (t, d) ∈ mapped_to k df) by (rewrite E; left).
  apply elem_of_mapped_to in Ht as [-> _]. eauto.
Qed.

End PipelineFacts.

(** ** Paragraphs and lines *)

Module DocxFacts.
Import PyStr Normalizer Docx Replies StrFacts ReplyFacts.
#[local] Arguments String.append : simpl nomatch.

Lemma collect_texts (paragraphs : list Paragraph) :
  collect paragraphs = text <$> paragraphs.
Proof.
  unfold collect.
  assert (H : ∀ acc, foldl (λ full_text para, full_text ++ [text para]) acc paragraphs
                     = acc ++ (text <$> paragraphs)).
  { induction paragraphs as [|p ps IH]; intros acc; simpl.
    - by rewrite app_nil_r.
    - rewrite IH, <- app_assoc. done. }
  apply (H []).
Qed.

Lemma join_cons (sep h : string) (t : list string) :
  join sep (h :: t) = h +:+ (if t is [] then "" else sep +:+ join sep t).
Proof. destruct t; simpl; [by rewrite append_nil_r|done]. Qed.

Lemma part_of_join (sep x : string) (parts : list string) :
  x ∈ parts → part_of x (join sep parts).
Proof.
  induction parts as [|h t IH]; [by intros ?%elem_of_nil|].
  rewrite join_cons. intros [->|Hin]%elem_of_cons.
  - by exists "", (if t is [] then "" else sep +:+ join sep t).
  - destruct t as [|h' t']; [by apply elem_of_nil in Hin|].
    destruct (IH Hin) as (a & b & E). rewrite E.
    exists (h +:+ sep +:+ a), b. by rewrite !append_assoc.
Qed.

Lemma contains_nl_cons (c : ascii) (s : string) :
  contains nl (String c s) = false → (c =? LF)%char = false ∧ contains nl s = false.
Proof.
  cbn [contains]. intros [H1 H2]%orb_false_iff. split; [|done].
  destruct (c =? LF)%char eqn:E; [|done].
  apply Ascii.eqb_eq in E as ->. by destruct s.
Qed.

(** Two texts without a line feed, each followed by nothing or by a
    line feed, are equal as soon as the whole texts are. *)
Lemma line_unique (h1 h2 r1 r2 : string) :
  contains nl h1 = false → contains nl h2 = false →
  (r1 = "" ∨ ∃ r, r1 = nl +:+ r) → (r2 = "" ∨ ∃ r, r2 = nl +:+ r) →
  h1 +:+ r1 = h2 +:+ r2 → h1 = h2 ∧ r1 = r2.
Proof.
  revert h2. induction h1 as [|c h1 IH]; intros h2 H1 H2 Hr1 Hr2 E.
  - destruct h2 as [|c2 h2]; [done|]. exfalso.
    apply contains_nl_cons in H2 as [Hc _].
    cbn [String.append] in E. destruct Hr1 as [->|[r ->]]; [done|].
    injection E as <- _. done.
  - destruct h2 as [|c2 h2].
    + exfalso. apply contains_nl_cons in H1 as [Hc _].
      cbn [String.append] in E. destruct Hr2 as [->|[r ->]]; [done|].
      injection E as -> _. done.
    + cbn [String.append] in E. injection E as -> E.
      apply contains_nl_cons in H1 as [_ H1]. apply contains_nl_cons in H2 as [_ H2].
      destruct (IH h2 H1 H2 Hr1 Hr2 E) as [-> ->]. done.
Qed.

Lemma join_lines_inj (l1 l2 : list string) :
  l1 ≠ [] → l2 ≠ [] →
  Forall (λ x, contains nl x = false) l1 → Forall (λ x, contains nl x = false) l2 →
  join nl l1 = join nl l2 → l1 = l2.
Proof.
  revert l2. induction l1 as [|h1 t1 IH]; intros l2 Hn1 Hn2 F1 F2 E; [done|].
  destruct l2 as [|h2 t2]; [done|].
  rewrite !join_cons in E.
  apply Forall_cons in F1 as [Hh1 F1]. apply Forall_cons in F2 as [Hh2 F2].
  apply line_unique in E as [-> E]; [|done|done|..].
  - f_equal. destruct t1 as [|a1 t1], t2 as [|a2 t2]; [done|done|done|].
    apply IH; [done|done|done|done|].
    change nl with (String LF "") in E. cbn [String.append] in E.
    by injection E.
  - destruct t1; [by left|right; eauto].
  - destruct t2; [by left|right; eauto].
Qed.

End DocxFacts.

(** ** The stages of a run *)

Module AppFacts.
Import PyStr Pandas Json Docx Normalizer Analyzer App.
Import StrFacts JsonFacts NormalizerFacts AnalyzerFacts.

Lemma read_standards_file_returns read_csv read_excel file out errors :
  read_standards_file read_csv read_excel file = Run (Returns (Some out)) errors →
  ∃ df, standardize df = inr out.
Proof.
  unfold read_standards_file, after_read.
  repeat match goal with
         | |- context [if ?b then _ else _] => destruct b
         | |- context [match ?x with inl _ => _ | inr _ => _ end] => destruct x eqn:?
         end; intros [= <-]; eauto.
Qed.

Lemma analyze_compliance_findings ask text df key a v :
  analyze_compliance ask text df key = Some a → Analyzer.findings a = Some v →
  ∃ reply, loads (cleanup reply) = inr v ∧ Analyzer.st_errors a = [].
Proof.
  unfold analyze_compliance. destruct (standards_text df); [|done]. simpl.
  intros [= <-]. destruct (ask _ _) as [what|reply]; [done|].
  unfold parse_response. destruct (loads (cleanup reply)) eqn:E; [done|].
  simpl. intros [= <-]. eauto.
Qed.

Lemma analyze_compliance_no_findings ask text df key a :
  analyze_compliance ask text df key = Some a → Analyzer.findings a = None →
  ∃ what, Analyzer.st_errors a = ["Error during analysis: " +:+ what].
Proof.
  unfold analyze_compliance. destruct (standards_text df); [|done]. simpl.
  intros [= <-]. destruct (ask _ _) as [what|reply]; [by eauto|].
  unfold parse_response. destruct (loads (cleanup reply)) eqn:E; [by eauto|done].
Qed.

(** What the three stages do to the session. *)
Lemma upload_document_state sv w s :
  let r := upload_document sv w s in
  standards (state r) = standards s ∧ findings (state r) = findings s
  ∧ (app_content (state r) = app_content s
     ∨ ∃ paragraphs, app_content (state r) = Some (join nl (collect paragraphs))).
Proof.
  unfold upload_document, read_docx. destruct (app_file w); [|by auto].
  destruct (Document sv u); simpl; eauto.
Qed.

Lemma upload_standards_state sv w s :
  let r := upload_standards sv w s in
  app_content (state r) = app_content s ∧ findings (state r) = findings s
  ∧ (standards (state r) = standards s
     ∨ standards (state r) = None
     ∨ ∃ df out, standardize df = inr out ∧ standards (state r) = Some out).
Proof.
  unfold upload_standards. destruct (standards_file w) as [file|]; [|by auto].
  destruct (read_standards_file _ _ file) as [[[out|]|e] errors] eqn:E; simpl; auto.
  apply read_standards_file_returns in E as [df E]. eauto 10.
Qed.

Ltac unchanged :=
  intros [= <-]; simpl; split_and!; [done..|left; split; [done|]];
  let H := fresh in
  intros H; repeat (apply elem_of_cons in H as [?|H]; [done|]);
  by apply elem_of_nil in H.

Lemma analysis_state sv w s r :
  analysis sv w s = Some r →
  raised r = None
  ∧ standards (state r) = standards s ∧ app_content (state r) = app_content s
  ∧ ((findings (state r) = findings s ∧ success_analysis_complete ∉ shown r)
     ∨ ∃ v reply, findings (state r) = Some v ∧ json_truthy v = Some true
                  ∧ loads (cleanup reply) = inr v
                  ∧ shown r = [success_analysis_complete; balloons]).
Proof.
  unfold analysis.
  destruct (app_content s) as [text|] eqn:Ec; [|by unchanged].
  destruct (standards s) as [df|] eqn:Es; [|by unchanged].
  destruct (str_truthy text); [|by unchanged].
  destruct (negb (str_truthy (api_key w))); [by unchanged|].
  destruct (analyze_clicked w); [|by unchanged].
  destruct (analyze_compliance _ _ _ _) as [a|] eqn:Ea; [|done]. simpl.
  destruct (Analyzer.findings a) as [v|] eqn:Ef.
  - destruct (analyze_compliance_findings _ _ _ _ _ _ Ea Ef) as (reply & Hl & He).
    rewrite He. simpl.
    destruct (json_truthy v) as [[]|] eqn:Et; simpl; [|by unchanged|done].
    intros [= <-]. simpl. split_and!; try done. right. eauto 10.
  - destruct (analyze_compliance_no_findings _ _ _ _ _ Ea Ef) as (what & He).
    rewrite He. by unchanged.
Qed.

(** How a run is made of its stages. *)
Lemma run_stages sv w s r :
  run sv w s = Some r →
  let r1 := upload_document sv w s in
  let r2 := upload_standards sv w (state r1) in
  (raised r1 ≠ None ∧ r = r1)
  ∨ (raised r1 = None ∧ raised r2 ≠ None
     ∧ r = Script (state r2) (shown r1 ++ shown r2) (raised r2))
  ∨ (raised r1 = None ∧ raised r2 = None
     ∧ ∃ r3, analysis sv w (state r2) = Some r3
             ∧ r = Script (state r3)
                     ((shown r1 ++ shown r2) ++ review (state r2) ++ shown r3)
                     (raised r3)).
Proof.
  unfold run, and_finally, and_then. simpl.
  destruct (raised (upload_document sv w s)) eqn:E1.
  { rewrite E1. intros [= <-]. by left. }
  simpl. destruct (raised (upload_standards sv w _)) eqn:E2.
  { intros [= <-]. right. left. done. }
  destruct (analysis sv w _) as [r3|] eqn:E3; [|done]. simpl.
  intros [= <-]. right. right. split_and!; try done. by exists r3.
Qed.

(** The success message of the analysis comes from the analysis alone. *)
Lemma uploads_show_no_success sv w s :
  (success_analysis_complete ∉ shown (upload_document sv w s))
  ∧ (success_analysis_complete ∉ shown (upload_standards sv w s))
  ∧ (success_analysis_complete ∉ review s).
Proof.
  split_and!.
  - unfold upload_document, read_docx. destruct (app_file w); [|by intros ?%elem_of_nil].
    destruct (Document sv u); simpl; [by intros ?%elem_of_nil|].
    intros H. repeat (apply elem_of_cons in H as [?|H]; [done|]).
    by apply elem_of_nil in H.
  - unfold upload_standards.
    destruct (standards_file w) as [file|]; [|by intros ?%elem_of_nil].
    destruct (read_standards_file _ _ file) as [[v|e] errors]; simpl.
    + intros [H|H]%elem_of_app.
      * by apply list_elem_of_fmap in H as (? & ? & _).
      * destruct v; [|by apply elem_of_nil in H].
        repeat (apply elem_of_cons in H as [?|H]; [done|]).
        by apply elem_of_nil in H.
    + by intros (? & ? & _)%list_elem_of_fmap.
  - unfold review. intros H.
    repeat case_match;
      repeat (first [apply elem_of_app in H as [H|H]
                    | apply elem_of_cons in H as [?|H]; [done|]
                    | by apply elem_of_nil in H]).
Qed.

(** Uploading again what the session already holds changes nothing. *)
Lemma upload_document_again sv w s s' :
  raised (upload_document sv w s) = None →
  app_content s' = app_content (state (upload_document sv w s)) →
  state (upload_document sv (not_clicked w) s') = s'
  ∧ raised (upload_document sv (not_clicked w) s') = None.
Proof.
  unfold upload_document. simpl. destruct (app_file w); [|done].
  destruct (read_docx (Document sv) u); [done|]. simpl.
  intros _ E. destruct s'. simpl in *. by rewrite E.
Qed.

Lemma upload_standards_again sv w s s' :
  raised (upload_standards sv w s) = None →
  standards s' = standards (state (upload_standards sv w s)) →
  state (upload_standards sv (not_clicked w) s') = s'
  ∧ raised (upload_standards sv (not_clicked w) s') = None.
Proof.
  unfold upload_standards. simpl. destruct (standards_file w); [|done].
  destruct (result (read_standards_file _ _ u)); [|done]. simpl.
  intros _ E. destruct s'. simpl in *. by rewrite E.
Qed.

Lemma analysis_not_clicked sv w s :
  ∃ r, analysis sv (not_clicked w) s = Some r ∧ state r = s ∧ raised r = None.
Proof.
  unfold analysis. simpl. repeat case_match; eauto.
Qed.

End AppFacts.

(** ** Counting statuses *)

Module ResultsFacts.
Import PyStr Pandas Json App.

Lemma has_status_exclusive (finding : list (list N * json)) :
  (if has_status "Deficient" finding then 1 else 0)
  + (if has_status "Partial" finding then 1 else 0)
  + (if has_status "Compliant" finding then 1 else 0)
  = if counted finding then 1 else 0.
Proof.
  unfold counted, has_status.
  destruct (dict_get (codes "status") finding) as [[| | | | |s| |]|]; try done.
  destruct (bool_decide (s = codes "Deficient")) eqn:E1;
    destruct (bool_decide (s = codes "Partial")) eqn:E2;
    destruct (bool_decide (s = codes "Compliant")) eqn:E3; try done;
    repeat match goal with
           | H : bool_decide _ = true |- _ => apply bool_decide_eq_true in H
           end; subst; discriminate.
Qed.

Lemma count_status_cons (label : string) (finding : list (list N * json))
  (findings : list (list (list N * json))) :
  count_status label (finding :: findings)
  = (if has_status label finding then 1 else 0) + count_status label findings.
Proof.
  unfold count_status. rewrite filter_cons.
  destruct (has_status label finding); by destruct (decide _).
Qed.

Lemma counts_sum (findings : list (list (list N * json))) :
  count_status "Deficient" findings + count_status "Partial" findings
  + count_status "Compliant" findings
  = length (filter (λ finding, counted finding = true) findings).
Proof.
  induction findings as [|f fs IH]; [done|].
  rewrite !count_status_cons, filter_cons.
  pose proof (has_status_exclusive f) as H.
  destruct (counted f); destruct (decide _); try done; simpl length; lia.
Qed.

Lemma filter_all_length {A : Type} (P : A → Prop) `{!∀ x, Decision (P x)}
  (l : list A) :
  length (filter P l) = length l ↔ Forall P l.
Proof.
  split.
  - induction l as [|x l IH]; [done|]. rewrite filter_cons.
    destruct (decide (P x)); simpl.
    + intros [= Hlen]. constructor; auto.
    + intros Hlen. pose proof (length_filter P l). lia.
  - induction 1 as [|x l Hx Hl IH]; [done|].
    rewrite filter_cons, decide_True by done. simpl. by rewrite IH.
Qed.

End ResultsFacts.

(** * The claims about the standards normalizer *)

Section NormalizerClaims.
Import PyStr Pandas Normalizer Samples StrFacts NormalizerFacts.

(** C7. A standards file whose name ends in neither ".csv", ".xlsx" nor
    ".xls" is not read: whatever the readers would do,
    [read_standards_file] shows the unsupported-format error and returns
    [None], so no normalized table is produced. *)
Theorem unsupported_extension_rejected
  (read_csv read_excel : UploadedFile → pandas_error + DataFrame)
  (file : UploadedFile) :
  endswith (name file) ".csv" = false →
  endswith (name file) ".xlsx" = false →
  endswith (name file) ".xls" = false →
  read_standards_file read_csv read_excel file
  = Run (Returns None) [unsupported_message].
Proof.
  intros Hcsv Hxlsx Hxls. unfold read_standards_file.
  by rewrite Hcsv, Hxlsx, Hxls.
Qed.

Lemma unsupported_extension_rejected_witness :
  read_standards_file (reader_of tidy) (reader_of tidy) standards_txt
  = Run (Returns None) [unsupported_message].
Proof.
  apply unsupported_extension_rejected; reflexivity.
Defined.





(** C1. A table that was read and in which, once the headers are
    stripped and renamed, no column bears ID, or none bears Category, or
    none bears Requirement, is not normalized: the final selection
    raises [KeyError] naming the absent labels, the exception leaves
    [read_standards_file], and no frame is returned. *)
Theorem missing_required_column_raises
  (read_csv read_excel : UploadedFile → pandas_error + DataFrame)
  (file : UploadedFile) (df : DataFrame) :
  reads_as read_csv read_excel file df →
  "ID" ∉ columns (renamed df) ∨ "Category" ∉ columns (renamed df)
  ∨ "Requirement" ∉ columns (renamed df) →
  ∃ missing,
    missing ≠ []
    ∧ missing = filter (λ k, k ∉ columns (with_description df)) canonical
    ∧ standardize df = inl (KeyError missing)
    ∧ read_standards_file read_csv read_excel file
      = Run (Raises (KeyError missing)) [].
Proof.
  intros Hread Habsent.
  assert (∃ k, k ∈ canonical ∧ k ∉ columns (with_description df)) as (k & Hk & Hn).
  { destruct Habsent as [H|[H|H]];
      [exists "ID"; split; [apply canonical_id|]
      |exists "Category"; split; [apply canonical_category|]
      |exists "Requirement"; split; [apply canonical_requirement|]];
      rewrite elem_of_columns_with_description; by intros [?|?]. }
  destruct (getitem_list_missing canonical (with_description df) k Hk Hn)
    as (missing & Hm & Hin & Hfilter).
  exists missing. split; [|split; [done|split; [done|]]].
  - intros ->. by apply elem_of_nil in Hin.
  - rewrite (read_standards_file_reads _ _ _ _ Hread). unfold after_read.
    unfold standardize. by rewrite Hm.
Qed.

Lemma missing_required_column_raises_witness :
  ∃ missing,
    missing ≠ []
    ∧ missing = filter (λ k, k ∉ columns (with_description req_only)) canonical
    ∧ standardize req_only = inl (KeyError missing)
    ∧ read_standards_file (reader_of req_only) (reader_of req_only) standards_csv
      = Run (Raises (KeyError missing)) [].
Proof.
  apply missing_required_column_raises.
  - left. split; reflexivity.
  - left. rewrite columns_renamed. compute_done.
Defined.




(** C10, as stated, fails: both headers below pass the same rule and are
    renamed to ID, but the final selection returns nothing at all, since
    Category and Requirement are absent. *)
Lemma duplicated_rule_without_output :
  cols two_standards !! 0 = Some ("Standard A", [CStr "A1"])
  ∧ cols two_standards !! 1 = Some ("Standard B", [CStr "B1"])
  ∧ matches id_rule "Standard A" = true
  ∧ matches id_rule "Standard B" = true
  ∧ columns (renamed two_standards) = ["ID"; "ID"]
  ∧ standardize two_standards = inl (KeyError ["Category"; "Requirement"])
  ∧ ¬ ∃ out, standardize two_standards = inr out.
Proof.
  repeat split; try (vm_compute; reflexivity).
  intros [out H]. vm_compute in H. discriminate.
Qed.

(** C10, amended. Two distinct columns whose headers resolve to the same
    canonical name are both renamed to it, data untouched; and whenever
    the final selection succeeds, it returns every column bearing that
    name, so the frame returned has at least two columns under it and
    its labels are not the four canonical names once each. *)
Theorem same_target_columns_duplicated (df : DataFrame) (i j : nat)
  (h1 h2 target : string) (d1 d2 : list cell) :
  i ≠ j →
  cols df !! i = Some (h1, d1) → cols df !! j = Some (h2, d2) →
  resolve h1 = Some target → resolve h2 = Some target →
  (cols (renamed df) !! i = Some (target, d1)
   ∧ cols (renamed df) !! j = Some (target, d2))
  ∧ ∀ out, standardize df = inr out →
      columns_labelled target out = columns_labelled target (with_description df)
      ∧ 2 ≤ length (columns_labelled target out)
      ∧ ¬ NoDup (columns out)
      ∧ columns out ≠ canonical.
Proof.
  intros Hij Hi Hj R1 R2.
  assert (Ht : target ∈ canonical) by (by eapply col_rule_canonical).
  assert (Hren : cols (renamed df) !! i = Some (target, d1)
                 ∧ cols (renamed df) !! j = Some (target, d2)).
  { rewrite cols_renamed, !list_lookup_fmap, Hi, Hj. simpl.
    unfold final_label. by rewrite R1, R2. }
  split; [done|]. intros out Hout.
  assert (Hsel : columns_labelled target out
                 = columns_labelled target (with_description df)).
  { unfold standardize, getitem_list in Hout.
    destruct (filter _ canonical); [|done]. injection Hout as <-.
    unfold columns_labelled at 1. simpl. rewrite app_nil_r, !filter_app.
    assert (Hff : ∀ k, filter (λ c : string * list cell, c.1 = target)
                         (columns_labelled k (with_description df))
                       = if decide (k = target)
                         then columns_labelled k (with_description df) else [])
      by (intros k; apply filter_label_twice).
    rewrite !Hff. unfold canonical in Ht.
    repeat (apply elem_of_cons in Ht as [->|Ht];
            [simpl; by rewrite ?app_nil_r|]).
    by apply elem_of_nil in Ht. }
  assert (Htwo : 2 ≤ length (columns_labelled target out)).
  { rewrite Hsel. destruct Hren as [Hri Hrj].
    assert (Hwd : ∃ l, cols (with_description df) = cols (renamed df) ++ l).
    { rewrite cols_with_description. destruct (has_column _ _); [|by eauto].
      exists []. by rewrite app_nil_r. }
    destruct Hwd as [l Hwd]. unfold columns_labelled. rewrite Hwd.
    apply (filter_length_two (λ c : string * list cell, c.1 = target) _ i j
             (target, d1) (target, d2));
      [done | by apply lookup_app_l_Some | by apply lookup_app_l_Some
      | done | done]. }
  split; [done|]. split; [done|].
  assert (Hdup : ¬ NoDup (columns out)).
  { intros Hnd. apply (NoDup_labels_once target) in Hnd.
    unfold columns_labelled in Htwo. lia. }
  split; [done|]. intros E. apply Hdup. rewrite E. unfold canonical.
  compute_done.
Qed.

Lemma same_target_columns_duplicated_witness :
  (cols (renamed two_standards_full) !! 0 = Some ("ID", [CStr "A1"])
   ∧ cols (renamed two_standards_full) !! 1 = Some ("ID", [CStr "B1"]))
  ∧ ∀ out, standardize two_standards_full = inr out →
      columns_labelled "ID" out
      = columns_labelled "ID" (with_description two_standards_full)
      ∧ 2 ≤ length (columns_labelled "ID" out)
      ∧ ¬ NoDup (columns out)
      ∧ columns out ≠ canonical.
Proof.
  apply (same_target_columns_duplicated two_standards_full 0 1
           "Standard A" "Standard B" "ID" [CStr "A1"] [CStr "B1"]);
    [lia | reflexivity ..].
Defined.

End NormalizerClaims.

(** * The claims about the compliance analyzer *)

Section AnalyzerClaims.
Import PyStr Pandas Json Analyzer Samples StrFacts JsonFacts AnalyzerFacts.











End AnalyzerClaims.

(** * Further properties of the standards normalizer *)

Section NormalizerProperties.
Import PyStr Pandas Normalizer Layout Samples StrFacts NormalizerFacts LayoutFacts.


(** X2. What a successful normalization returns, column by column: the
    row count is that of the source, and a column is in the result
    exactly when it is a source column whose header resolves to a
    canonical name, relabelled with that name and with its cells
    untouched, or the synthesized Description column of empty strings,
    present only when no header resolves to Description.  A column whose
    header matches no rule is not in the result. *)
Theorem normalized_columns_from_source (df out : DataFrame) :
  standardize df = inr out →
  nrows out = nrows df
  ∧ ∀ target data,
      (target, data) ∈ cols out ↔
        (∃ h, (h, data) ∈ cols df ∧ resolve h = Some target)
        ∨ (target = "Description"
           ∧ data = replicate (nrows df) (CStr "")
           ∧ ∀ h, h ∈ columns df → resolve h ≠ Some "Description").
Proof.
  intros ->%standardize_inv. split; [done|]. intros t d.
  unfold normalized. simpl.
  rewrite !elem_of_app, !elem_of_mapped_to, elem_of_description_columns.
  split.
  - intros [[-> H]|[[-> H]|[[-> H]|[-> [H|H]]]]]; auto.
  - intros [(h & Hin & Hr)|(-> & -> & Hnone)]; [|by auto 10].
    pose proof (col_rule_canonical _ _ Hr) as Ht. unfold canonical in Ht.
    repeat (apply elem_of_cons in Ht as [->|Ht]; [by eauto 10|]).
    by apply elem_of_nil in Ht.
Qed.

Lemma normalized_columns_from_source_witness :
  nrows (normalized tidy) = nrows tidy
  ∧ ∀ target data,
      (target, data) ∈ cols (normalized tidy) ↔
        (∃ h, (h, data) ∈ cols tidy ∧ resolve h = Some target)
        ∨ (target = "Description"
           ∧ data = replicate (nrows tidy) (CStr "")
           ∧ ∀ h, h ∈ columns tidy → resolve h ≠ Some "Description").
Proof.
  apply normalized_columns_from_source. vm_compute. reflexivity.
Defined.

(** X3. The labels of the result are grouped by canonical name in the
    fixed order ID, Category, Requirement, Description, whatever the
    order of the source columns: each name is borne by as many columns as
    source headers resolve to it (at least one), Description by one
    column when no header resolves to it. *)
Theorem normalized_labels_grouped (df out : DataFrame) :
  standardize df = inr out →
  columns out
  = replicate (resolved_count "ID" df) "ID"
    ++ replicate (resolved_count "Category" df) "Category"
    ++ replicate (resolved_count "Requirement" df) "Requirement"
    ++ replicate (resolved_count "Description" df `max` 1) "Description"
  ∧ 1 ≤ resolved_count "ID" df
  ∧ 1 ≤ resolved_count "Category" df
  ∧ 1 ≤ resolved_count "Requirement" df.
Proof.
  intros Hout.
  assert (Hpos : ∀ k, k ∈ canonical → k ≠ "Description" →
                      1 ≤ resolved_count k df).
  { intros k Hk Hd.
    pose proof (standardize_ok_inv df out k Hout Hk) as Hin.
    apply elem_of_columns_with_description in Hin as [Hin|]; [|done].
    apply elem_of_columns_renamed in Hin as (h & Hh & Hr); [|done].
    rewrite <- mapped_to_length.
    pose proof (mapped_to_non_nil k h df Hh Hr).
    destruct (mapped_to k df); [done|simpl; lia]. }
  apply standardize_inv in Hout as ->.
  split; [|by auto using canonical_id, canonical_category, canonical_requirement].
  unfold columns, normalized. simpl.
  by rewrite !fmap_app, !mapped_to_columns, description_columns_columns.
Qed.

Lemma normalized_labels_grouped_witness :
  columns (normalized two_standards_full)
  = replicate (resolved_count "ID" two_standards_full) "ID"
    ++ replicate (resolved_count "Category" two_standards_full) "Category"
    ++ replicate (resolved_count "Requirement" two_standards_full) "Requirement"
    ++ replicate (resolved_count "Description" two_standards_full `max` 1)
         "Description"
  ∧ 1 ≤ resolved_count "ID" two_standards_full
  ∧ 1 ≤ resolved_count "Category" two_standards_full
  ∧ 1 ≤ resolved_count "Requirement" two_standards_full.
Proof.
  apply normalized_labels_grouped. vm_compute. reflexivity.
Defined.

(** X4. Normalization is idempotent: a frame that it returned is
    returned unchanged when normalized again. *)
Theorem standardize_idempotent (df out : DataFrame) :
  standardize df = inr out → standardize out = inr out.
Proof.
  intros Hout.
  pose proof (standardize_inv _ _ Hout) as ->.
  pose proof (normalized_labels_canonical df) as Hcan.
  assert (Hm : ∀ k, mapped_to k (normalized df) = columns_labelled k (normalized df)).
  { intros k. unfold normalized in *. simpl in *.
    by apply mapped_to_canonical_labels. }
  assert (Hhas : ∀ k, k ∈ canonical → k ≠ "Description" →
                      mapped_to k df ≠ []).
  { intros k Hk Hd.
    pose proof (standardize_ok_inv df _ k Hout Hk) as Hin.
    apply elem_of_columns_with_description in Hin as [Hin|]; [|done].
    apply elem_of_columns_renamed in Hin as (h & Hh & Hr); [|done].
    by apply (mapped_to_non_nil k h). }
  assert (Hd : description_columns df ≠ []).
  { unfold description_columns. by destruct (mapped_to "Description" df). }
  assert (Hin : ∀ k, k ∈ canonical → k ≠ "Description" →
                     k ∈ columns (renamed (normalized df))).
  { intros k Hk Hkd. apply elem_of_columns_renamed; [done|].
    exists k. split; [|by apply resolve_canonical].
    specialize (Hhas k Hk Hkd).
    destruct (mapped_to k df) as [|[t d] l] eqn:E; [done|].
    assert (Ht : (t, d) ∈ mapped_to k df) by (rewrite E; left).
    pose proof Ht as [-> _]%elem_of_mapped_to.
    apply elem_of_columns_cols. exists d. unfold normalized. simpl.
    rewrite !elem_of_app.
    unfold canonical in Hk.
    repeat (apply elem_of_cons in Hk as [->|Hk]; [by auto|]).
    by apply elem_of_nil in Hk. }
  rewrite standardize_ok;
    [|apply Hin; [apply canonical_id|done]
     |apply Hin; [apply canonical_category|done]
     |apply Hin; [apply canonical_requirement|done]].
  f_equal. unfold normalized at 1. unfold description_columns.
  rewrite !Hm, !columns_labelled_normalized. simpl.
  rewrite !app_nil_r.
  destruct (description_columns df) eqn:E; [done|].
  unfold normalized. by rewrite E.
Qed.

Lemma standardize_idempotent_witness :
  standardize (normalized tidy) = inr (normalized tidy).
Proof.
  apply (standardize_idempotent tidy). vm_compute. reflexivity.
Defined.

End NormalizerProperties.

(** * Further properties of the compliance analyzer *)

Section AnalyzerProperties.
Import PyStr Pandas Json Analyzer Replies Samples.
Import StrFacts JsonFacts AnalyzerFacts ReplyFacts.

(** X5. The prompt is a fixed frame around its two inputs: the document
    text comes right after the line "APPLICATION DOCUMENTATION:", the
    standards block right after the line "STANDARDS TO CHECK:", both
    verbatim, with nothing escaped or truncated. *)
Theorem prompt_embeds_inputs :
  ∃ opening closing : string,
    endswith opening ("APPLICATION DOCUMENTATION:" +:+ nl) = true
    ∧ endswith closing "]" = true
    ∧ ∀ app_content standards_text : string,
        prompt app_content standards_text
        = opening +:+ app_content
          +:+ (nl +:+ nl +:+ "STANDARDS TO CHECK:" +:+ nl)
          +:+ standards_text +:+ closing
        ∧ contains app_content (prompt app_content standards_text) = true
        ∧ contains standards_text (prompt app_content standards_text) = true.
Proof.
  exists (take 167 (prompt "" "")), (drop 189 (prompt "" "")).
  split; [vm_compute; reflexivity|]. split; [vm_compute; reflexivity|].
  intros app text.
  assert (E : prompt app text
              = take 167 (prompt "" "") +:+ app
                +:+ (nl +:+ nl +:+ "STANDARDS TO CHECK:" +:+ nl)
                +:+ text +:+ drop 189 (prompt "" ""))
    by reflexivity.
  split; [exact E|]. split; apply contains_part_of; rewrite E.
  - exists (take 167 (prompt "" "")),
      ((nl +:+ nl +:+ "STANDARDS TO CHECK:" +:+ nl)
       +:+ text +:+ drop 189 (prompt "" "")).
    reflexivity.
  - exists (take 167 (prompt "" "") +:+ app
            +:+ (nl +:+ nl +:+ "STANDARDS TO CHECK:" +:+ nl)),
      (drop 189 (prompt "" "")).
    rewrite !append_assoc. reflexivity.
Qed.

(** X6. A reply that is empty or made of whitespace only is reported as
    a parse failure at the very start of the text. *)
Theorem blank_reply_reported (reply : string) :
  all_space reply = true →
  cleanup reply = ""
  ∧ parse_response reply
    = report "Expecting value: line 1 column 1 (char 0)".
Proof.
  intros H.
  assert (E : cleanup reply = "").
  { unfold cleanup, strip. by rewrite (lstrip_space _ H). }
  split; [done|]. unfold parse_response. by rewrite E.
Qed.

Lemma blank_reply_reported_witness :
  cleanup (" " +:+ nl) = ""
  ∧ parse_response (" " +:+ nl)
    = report "Expecting value: line 1 column 1 (char 0)".
Proof. apply blank_reply_reported. reflexivity. Defined.



(** X8. Cleaning never adds anything: the cleaned text is a contiguous
    part of the reply, hence no longer, and it carries no whitespace at
    either end. *)
Theorem cleanup_within_reply (reply : string) :
  contains (cleanup reply) reply = true
  ∧ String.length (cleanup reply) ≤ String.length reply
  ∧ strip (cleanup reply) = cleanup reply.
Proof.
  assert (H : part_of (cleanup reply) reply).
  { unfold cleanup.
    repeat first
      [ apply part_of_refl
      | eapply part_of_trans; [apply part_of_strip|]
      | match goal with
        | |- part_of (if ?b then _ else _) _ =>
            destruct b;
            [eapply part_of_trans;
             [first [apply part_of_drop | apply part_of_take]|]|]
        end ]. }
  split; [by apply contains_part_of|]. split; [by apply part_of_length|].
  unfold cleanup. apply strip_idem.
Qed.





End AnalyzerProperties.

(** * Text after the findings *)

Section TrailingText.
Import PyStr Pandas Json Analyzer Replies Tails Samples.
Import StrFacts JsonFacts AnalyzerFacts ReplyFacts TailFacts.



End TrailingText.

(** * The normalizer and the analyzer together *)

Section PipelineProperties.
Import PyStr Pandas Normalizer Analyzer Layout Samples.
Import StrFacts NormalizerFacts LayoutFacts AnalyzerFacts PipelineFacts.



End PipelineProperties.

(** * Properties of the document reader *)

Section DocxProperties.
Import PyStr Normalizer Docx Replies StrFacts ReplyFacts DocxFacts.

(** X13. Nothing of a document that opens is lost: the text returned
    holds the text of every paragraph, verbatim. *)
Theorem read_docx_keeps_paragraphs
  (Document : UploadedFile → string + list Paragraph) (file : UploadedFile)
  (paragraphs : list Paragraph) :
  Document file = inr paragraphs →
  ∃ content, read_docx Document file = inr content
    ∧ ∀ para, para ∈ paragraphs → contains (text para) content = true.
Proof.
  intros H. unfold read_docx. rewrite H. eexists. split; [done|].
  intros para Hin. apply contains_part_of, part_of_join.
  rewrite collect_texts. apply list_elem_of_fmap. by exists para.
Qed.

Lemma read_docx_keeps_paragraphs_witness :
  ∃ content,
    read_docx (λ _, inr [Para "Access control"; Para ""; Para "We require two-factor login."])
      (Upload "app.docx" "") = inr content
    ∧ ∀ para,
        para ∈ [Para "Access control"; Para ""; Para "We require two-factor login."] →
        contains (text para) content = true.
Proof.
  apply (read_docx_keeps_paragraphs
           (λ _, inr [Para "Access control"; Para ""; Para "We require two-factor login."])).
  reflexivity.
Defined.

(** X14. The paragraphs can be told from the text returned as long as
    none of them holds a line feed and the document has a paragraph: two
    such documents with the same text have the same paragraphs.  (An
    empty document and a document of one empty paragraph both give the
    empty text.) *)
Theorem read_docx_injective
  (Document : UploadedFile → string + list Paragraph) (file1 file2 : UploadedFile)
  (paragraphs1 paragraphs2 : list Paragraph) :
  Document file1 = inr paragraphs1 → Document file2 = inr paragraphs2 →
  paragraphs1 ≠ [] → paragraphs2 ≠ [] →
  (∀ para, para ∈ paragraphs1 ++ paragraphs2 → contains nl (text para) = false) →
  read_docx Document file1 = read_docx Document file2 →
  paragraphs1 = paragraphs2.
Proof.
  intros H1 H2 Hn1 Hn2 Hlf. unfold read_docx. rewrite H1, H2.
  intros [= E]. rewrite !collect_texts in E.
  apply join_lines_inj in E.
  - revert E. clear. revert paragraphs2.
    induction paragraphs1 as [|[t1] l1 IH]; intros [|[t2] l2] E; try done.
    rewrite !fmap_cons in E. injection E as -> E. f_equal. by apply IH.
  - by destruct paragraphs1.
  - by destruct paragraphs2.
  - apply Forall_fmap, Forall_forall. intros p Hp. apply Hlf.
    apply elem_of_app. by left.
  - apply Forall_fmap, Forall_forall. intros p Hp. apply Hlf.
    apply elem_of_app. by right.
Qed.

Lemma read_docx_injective_witness :
  [Para "Access control"; Para ""] = [Para "Access control"; Para ""].
Proof.
  apply (read_docx_injective
           (λ file, inr [Para (content file); Para ""])
           (Upload "a.docx" "Access control") (Upload "b.docx" "Access control")).
  - reflexivity.
  - reflexivity.
  - done.
  - done.
  - intros para Hin.
    repeat (apply elem_of_cons in Hin as [->|Hin]; [reflexivity|]).
    by apply elem_of_nil in Hin.
  - reflexivity.
Defined.

End DocxProperties.

(** * Properties of the script *)

Section ScriptProperties.
Import PyStr Pandas Json Docx Normalizer Analyzer App Samples AppSamples.
Import StrFacts JsonFacts NormalizerFacts AnalyzerFacts AppFacts ResultsFacts.

(** X15. What a session holds has always been checked: its standards,
    if any, are a frame that normalization returned; its document text
    is the joined paragraphs of a document that opened; its findings, if
    any, are a value that a cleaned reply parsed to and that Python
    counts as true (so never an empty list). *)
Theorem session_holds_checked_data (s : session) :
  reachable s →
  (∀ out, standards s = Some out → ∃ df, standardize df = inr out)
  ∧ (∀ text, app_content s = Some text →
       ∃ paragraphs, text = join nl (collect paragraphs))
  ∧ (∀ v, findings s = Some v →
       json_truthy v = Some true ∧ ∃ reply, loads (cleanup reply) = inr v).
Proof.
  induction 1 as [|sv w s r Hs (IHs & IHc & IHf) Hrun]; [done|].
  pose proof (upload_document_state sv w s) as (Hs1 & Hf1 & Hc1).
  pose proof (upload_standards_state sv w (state (upload_document sv w s)))
    as (Hc2 & Hf2 & Hs2).
  simpl in *.
  assert (I1 : (∀ out, standards (state (upload_document sv w s)) = Some out →
                       ∃ df, standardize df = inr out)
               ∧ (∀ text, app_content (state (upload_document sv w s)) = Some text →
                          ∃ paragraphs, text = join nl (collect paragraphs))
               ∧ (∀ v, findings (state (upload_document sv w s)) = Some v →
                       json_truthy v = Some true
                       ∧ ∃ reply, loads (cleanup reply) = inr v)).
  { rewrite Hs1, Hf1. split_and!; [done| |done].
    destruct Hc1 as [->|[paragraphs ->]]; [done|]. intros text [= <-]. eauto. }
  destruct I1 as (I1s & I1c & I1f).
  set (s1 := state (upload_document sv w s)) in *.
  assert (I2 : (∀ out, standards (state (upload_standards sv w s1)) = Some out →
                       ∃ df, standardize df = inr out)
               ∧ (∀ text, app_content (state (upload_standards sv w s1)) = Some text →
                          ∃ paragraphs, text = join nl (collect paragraphs))
               ∧ (∀ v, findings (state (upload_standards sv w s1)) = Some v →
                       json_truthy v = Some true
                       ∧ ∃ reply, loads (cleanup reply) = inr v)).
  { rewrite Hc2, Hf2. split_and!; [|done|done].
    destruct Hs2 as [->|[->|(df & out & Hdf & ->)]]; [done|done|].
    intros ? [= <-]. eauto. }
  destruct I2 as (I2s & I2c & I2f).
  apply run_stages in Hrun as [[_ ->]|[(_ & _ & ->)|(_ & _ & r3 & H3 & ->)]];
    simpl; [done|done|].
  apply analysis_state in H3 as (_ & -> & -> & Hf3).
  split_and!; [done|done|].
  destruct Hf3 as [[-> _]|(v & reply & -> & Ht & Hl & _)]; [done|].
  intros ? [= <-]. eauto.
Qed.

Lemma session_holds_checked_data_witness :
  (∀ out, standards (session_after stub_reply) = Some out →
          ∃ df, standardize df = inr out)
  ∧ (∀ text, app_content (session_after stub_reply) = Some text →
       ∃ paragraphs, text = join nl (collect paragraphs))
  ∧ (∀ v, findings (session_after stub_reply) = Some v →
       json_truthy v = Some true ∧ ∃ reply, loads (cleanup reply) = inr v).
Proof.
  apply session_holds_checked_data. unfold session_after.
  destruct (run (stubs stub_reply) all_set fresh) as [r|] eqn:E; simpl.
  - exact (reachable_run _ _ _ _ reachable_fresh E).
  - exact reachable_fresh.
Defined.

(** X16. The client is consulted only when everything is there: with no
    key typed, or the button not pressed, or no document text in the
    session and none uploaded, or no standards in the session and none
    uploaded, the run is the same whatever the client would answer. *)
Theorem client_consulted_only_when_ready (sv : services)
  (ask' : string → string → string + string) (w : widgets) (s : session) :
  api_key w = ""
  ∨ analyze_clicked w = false
  ∨ (app_file w = None ∧ (app_content s = None ∨ app_content s = Some ""))
  ∨ (standards_file w = None ∧ standards s = None) →
  run (with_client sv ask') w s = run sv w s.
Proof.
  intros H. unfold run.
  change (upload_document (with_client sv ask') w s) with (upload_document sv w s).
  change (upload_standards (with_client sv ask') w) with (upload_standards sv w).
  unfold and_finally.
  destruct (raised (and_then _ _)) eqn:Er; [done|].
  assert (E : analysis (with_client sv ask') w
                (state (and_then (upload_document sv w s) (upload_standards sv w)))
              = analysis sv w
                  (state (and_then (upload_document sv w s) (upload_standards sv w)))).
  { pose proof (upload_document_state sv w s) as (Hs1 & _ & _).
    pose proof (upload_standards_state sv w (state (upload_document sv w s)))
      as (Hc2 & _ & _).
    simpl in Hs1, Hc2.
    assert (Est : state (and_then (upload_document sv w s) (upload_standards sv w))
                  = state (upload_standards sv w (state (upload_document sv w s)))).
    { unfold and_then in *.
      destruct (raised (upload_document sv w s)) eqn:E1; [congruence|done]. }
    rewrite Est.
    assert (Hc : app_file w = None →
                 app_content (state (upload_standards sv w
                                       (state (upload_document sv w s))))
                 = app_content s).
    { intros Hf. rewrite Hc2. unfold upload_document. by rewrite Hf. }
    assert (Hs : standards_file w = None →
                 standards (state (upload_standards sv w
                                     (state (upload_document sv w s))))
                 = standards s).
    { intros Hf. rewrite <- Hs1. unfold upload_standards. by rewrite Hf. }
    unfold analysis.
    destruct H as [Hk|[Hb|[[Hf [Hn|Hn]]|[Hf Hstd]]]].
    - rewrite Hk. simpl. by repeat case_match.
    - rewrite Hb. by repeat case_match.
    - by rewrite (Hc Hf), Hn.
    - rewrite (Hc Hf), Hn. simpl. by case_match.
    - rewrite (Hs Hf), Hstd. by case_match. }
  by rewrite E.
Qed.

Lemma client_consulted_only_when_ready_witness :
  run (with_client (stubs stub_reply) (replies "not json"))
    (Widgets "" (Some app_docx) (Some standards_csv) true) fresh
  = run (stubs stub_reply) (Widgets "" (Some app_docx) (Some standards_csv) true)
      fresh.
Proof.
  apply client_consulted_only_when_ready. left. reflexivity.
Defined.

(** X17. Findings are replaced only by a successful analysis: after a
    run, either the session holds the findings it held before and the
    success message was not shown, or it holds new findings that Python
    counts as true, the success message was shown and no exception ended
    the run.  A failed analysis, or one that gave an empty list, leaves
    the earlier findings in place. *)
Theorem findings_replaced_only_on_success (sv : services) (w : widgets)
  (s : session) (r : script) :
  run sv w s = Some r →
  (findings (state r) = findings s ∧ success_analysis_complete ∉ shown r)
  ∨ (∃ v, findings (state r) = Some v ∧ json_truthy v = Some true
          ∧ success_analysis_complete ∈ shown r ∧ raised r = None).
Proof.
  intros Hrun.
  pose proof (upload_document_state sv w s) as (_ & Hf1 & _).
  pose proof (upload_standards_state sv w (state (upload_document sv w s)))
    as (_ & Hf2 & _).
  pose proof (uploads_show_no_success sv w s) as (Hn1 & _ & _).
  pose proof (uploads_show_no_success sv w (state (upload_document sv w s)))
    as (_ & Hn2 & _).
  pose proof (uploads_show_no_success sv w
                (state (upload_standards sv w (state (upload_document sv w s)))))
    as (_ & _ & Hn3).
  simpl in Hf1, Hf2.
  apply run_stages in Hrun as [[_ ->]|[(_ & _ & ->)|(_ & _ & r3 & H3 & ->)]];
    simpl.
  - left. by split.
  - left. split; [congruence|]. by intros [?|?]%elem_of_app.
  - apply analysis_state in H3 as (Hr & _ & _ & Hf3).
    destruct Hf3 as [[Hf3 Hn4]|(v & reply & Hv & Ht & _ & Hshown)].
    + left. split; [congruence|].
      intros [[?|?]%elem_of_app|[?|?]%elem_of_app]%elem_of_app; done.
    + right. exists v. split_and!; [done|done| |done].
      rewrite Hshown, !elem_of_app. right. right. left.
Qed.

Lemma findings_replaced_only_on_success_witness :
  (findings (session_after "not json") = findings fresh
   ∧ success_analysis_complete
     ∉ shown (default (Script fresh [] None) (run (stubs "not json") all_set fresh)))
  ∨ (∃ v, findings (session_after "not json") = Some v
          ∧ json_truthy v = Some true
          ∧ success_analysis_complete
            ∈ shown (default (Script fresh [] None)
                       (run (stubs "not json") all_set fresh))
          ∧ raised (default (Script fresh [] None)
                      (run (stubs "not json") all_set fresh)) = None).
Proof.
  unfold session_after.
  destruct (run (stubs "not json") all_set fresh) as [r|] eqn:E.
  - apply (findings_replaced_only_on_success _ _ _ _ E).
  - vm_compute in E. discriminate E.
Defined.

(** X18. A reply that parses to a value Python counts as false, such as
    the empty list, is dropped without a word: with a document text and
    standards in the session, a key typed and the button pressed, the run
    shows the review and nothing else (no error, no success message) and
    leaves the session as it was. *)
Theorem empty_result_dropped_silently (sv : services) (w : widgets) (s : session)
  (text block reply : string) (df : DataFrame) (v : json) :
  app_file w = None → standards_file w = None →
  app_content s = Some text → text ≠ "" → standards s = Some df →
  api_key w ≠ "" → analyze_clicked w = true →
  standards_text df = Some block →
  ask sv (api_key w) (prompt text block) = inr reply →
  loads (cleanup reply) = inr v → json_truthy v = Some false →
  run sv w s = Some (Script s (review s) None).
Proof.
  intros Ha Hs Hc Ht Hd Hk Hb Hblock Hask Hl Hv.
  assert (Hstr : ∀ x, x ≠ "" → str_truthy x = true).
  { intros x Hx. unfold str_truthy. destruct (String.eqb_spec x ""); done. }
  unfold run, and_then, and_finally, upload_document, upload_standards.
  rewrite Ha, Hs. simpl. unfold analysis.
  rewrite Hc, Hd, (Hstr _ Ht), (Hstr _ Hk), Hb. simpl.
  rewrite (analyze_compliance_reply _ _ _ _ _ _ Hblock Hask).
  rewrite (parse_response_ok _ _ Hl). simpl. rewrite Hv. simpl.
  by rewrite app_nil_r.
Qed.

Lemma empty_result_dropped_silently_witness :
  run (stubs "[]") (Widgets "key" None None true)
    (session_after stub_reply)
  = Some (Script (session_after stub_reply) (review (session_after stub_reply))
            None).
Proof.
  apply (empty_result_dropped_silently _ _ _
           "We require two-factor login."
           (nl +:+ "A1 - Security: Use MFA" +:+ nl
            +:+ nl +:+ "A2 - Ops: Keep logs" +:+ nl)
           "[]" (normalized tidy) (JArr []));
    first [reflexivity | done].
Defined.

(** X19. The two ways a standards upload can fail differ in what they
    leave behind.  A file with an unsupported extension clears the
    standards of the session: the error is shown, the run goes on, the
    review says that no standards are loaded and no analysis is offered.
    A table that the normalizer raises on ends the run at once, and the
    standards loaded before stay in the session. *)
Theorem standards_upload_failures (sv : services) (w : widgets) (s : session)
  (file : UploadedFile) :
  app_file w = None → standards_file w = Some file →
  (endswith (name file) ".csv" = false →
   endswith (name file) ".xlsx" = false →
   endswith (name file) ".xls" = false →
   run sv w s
   = Some (Script (Session None (app_content s) (findings s))
             (error unsupported_message
                :: review (Session None (app_content s) (findings s)))
             None))
  ∧ (∀ e, read_standards_file (read_csv sv) (read_excel sv) file
          = Run (Raises e) [] →
          run sv w s = Some (Script s [] (Some (PandasError e)))).
Proof.
  intros Ha Hs. split.
  - intros H1 H2 H3.
    unfold run, and_then, and_finally, upload_document, upload_standards.
    rewrite Ha, Hs. simpl. unfold read_standards_file.
    rewrite H1, H2, H3. simpl. unfold analysis. simpl.
    destruct (app_content s); simpl; by rewrite ?app_nil_r.
  - intros e He.
    unfold run, and_then, and_finally, upload_document, upload_standards.
    rewrite Ha, Hs. simpl. rewrite He. done.
Qed.

Lemma standards_upload_failures_witness :
  (endswith (name standards_txt) ".csv" = false →
   endswith (name standards_txt) ".xlsx" = false →
   endswith (name standards_txt) ".xls" = false →
   run (stubs stub_reply) (Widgets "key" None (Some standards_txt) true)
     (session_after stub_reply)
   = Some (Script (Session None (app_content (session_after stub_reply))
                     (findings (session_after stub_reply)))
             (error unsupported_message
                :: review (Session None (app_content (session_after stub_reply))
                             (findings (session_after stub_reply))))
             None))
  ∧ (∀ e, read_standards_file (read_csv (stubs stub_reply))
            (read_excel (stubs stub_reply)) standards_txt
          = Run (Raises e) [] →
          run (stubs stub_reply) (Widgets "key" None (Some standards_txt) true)
            (session_after stub_reply)
          = Some (Script (session_after stub_reply) [] (Some (PandasError e)))).
Proof.
  apply standards_upload_failures; reflexivity.
Defined.

(** X20. The three metrics count the findings whose status is exactly
    "Deficient", "Partial" or "Compliant": they never add up to more
    than the number of findings, and they add up to it exactly when
    every finding has one of the three as its status.  A finding with a
    status spelled otherwise, or with none, is in no metric. *)
Theorem metrics_count_known_statuses (s : session) (d p c : nat) :
  results_tab s = Some (Metrics d p c) →
  ∃ items, (findings s ≫= rows) = Some items
    ∧ d = count_status "Deficient" items
    ∧ p = count_status "Partial" items
    ∧ c = count_status "Compliant" items
    ∧ d + p + c ≤ length items
    ∧ (d + p + c = length items ↔ Forall (λ finding, counted finding = true) items).
Proof.
  unfold results_tab. destruct (findings s) as [v|]; [|done]. simpl.
  destruct (json_truthy v) as [[]|]; [|done|done]. simpl.
  destruct (rows v) as [items|]; [|done]. simpl.
  destruct (existsb _ items); [|done]. intros [= <- <- <-].
  exists items. split_and!; try done.
  - rewrite counts_sum. apply length_filter.
  - rewrite counts_sum. apply filter_all_length.
Qed.

Lemma metrics_count_known_statuses_witness :
  ∃ items, (findings (session_after stub_reply) ≫= rows) = Some items
    ∧ 0 = count_status "Deficient" items
    ∧ 0 = count_status "Partial" items
    ∧ 1 = count_status "Compliant" items
    ∧ 0 + 0 + 1 ≤ length items
    ∧ (0 + 0 + 1 = length items
       ↔ Forall (λ finding, counted finding = true) items).
Proof.
  apply metrics_count_known_statuses. vm_compute. reflexivity.
Defined.

(** X21. A rerun changes nothing: when a run has ended without an
    exception, running the script again with the same files and key and
    the button not pressed, as Streamlit does at any other interaction,
    leaves the session exactly as it was. *)
Theorem rerun_keeps_session (sv : services) (w : widgets) (s : session)
  (r : script) :
  run sv w s = Some r → raised r = None →
  ∃ r', run sv (not_clicked w) (state r) = Some r'
        ∧ state r' = state r ∧ raised r' = None.
Proof.
  intros Hrun Hr.
  pose proof (upload_standards_state sv w (state (upload_document sv w s)))
    as (Hc2 & _ & _).
  simpl in Hc2.
  apply run_stages in Hrun as [[Hn ->]|[(_ & Hn & ->)|(H1 & H2 & r3 & H3 & ->)]];
    [done|done|]. simpl in *.
  apply analysis_state in H3 as (_ & Hs3 & Hc3 & _).
  destruct (upload_document_again sv w s (state r3) H1) as [E1 R1];
    [congruence|].
  destruct (upload_standards_again sv w (state (upload_document sv w s))
              (state r3) H2) as [E2 R2]; [congruence|].
  destruct (analysis_not_clicked sv w (state r3)) as (r' & Ha & E3 & R3).
  unfold run, and_finally, and_then. rewrite R1. simpl. rewrite E1, R2. simpl.
  rewrite E2, Ha. simpl. eexists. split; [done|]. by simpl.
Qed.

Lemma rerun_keeps_session_witness :
  ∃ r',
    run (stubs stub_reply) (not_clicked all_set) (session_after stub_reply)
    = Some r'
    ∧ state r' = session_after stub_reply ∧ raised r' = None.
Proof.
  unfold session_after.
  destruct (run (stubs stub_reply) all_set fresh) as [r|] eqn:E.
  - apply (rerun_keeps_session _ _ _ _ E).
    vm_compute in E. injection E as <-. reflexivity.
  - vm_compute in E. discriminate E.
Defined.

End ScriptProperties.
